(** * songshomie: the room and playback synchronisation server

  A shallow embedding of the two Socket.IO servers of the repository:

  - [Server]:  the stand-alone server (the file with
    [const rooms = new Map()] and the [io.on("connection", ...)] handlers);
  - [Manager]: the [WebSocketManager] class of [hooks/use-websocket.ts].

  Conventions of the embedding.

  - A JavaScript [Map] is an association list in insertion order
    ([JsMap]): the handlers iterate over [entries()] and stop at the
    first match, so the order is observable.
  - A JavaScript [number] holding a playback position or a volume is a
    rational ([Q]); a value of [Date.now()] is an integer number of
    milliseconds ([Z]).  Rounding of doubles is not modelled.
  - Every handler is a function from the room table to the new room
    table and the list of Socket.IO effects it performs, in program
    order.  One handler invocation reads the clock once ([now]).
  - [console.log] is not modelled. *)

From Stdlib Require Import List String ZArith QArith Bool Lia.
From Stdlib Require Import Qabs.
Import ListNotations.

Local Open Scope string_scope.
Local Open Scope Z_scope.

(** ** JavaScript [Map] with string keys *)

Module JsMap.

Section Ops.
Context {V : Type}.

Definition t := list (string * V).

Definition empty : t := [].

Fixpoint get (k : string) (m : t) : option V :=
  match m with
  | [] => None
  | (k', v) :: m' => if String.eqb k' k then Some v else get k m'
  end.

Definition has (k : string) (m : t) : bool :=
  match get k m with Some _ => true | None => false end.

(** [m.set(k, v)]: an existing key keeps its position, a new key goes last. *)
Fixpoint set (k : string) (v : V) (m : t) : t :=
  match m with
  | [] => [(k, v)]
  | (k', v') :: m' =>
      if String.eqb k' k then (k, v) :: m' else (k', v') :: set k v m'
  end.

(** [m.delete(k)]: the keys of a [Map] are distinct, so the first entry
    under [k] is the only one. *)
Fixpoint delete (k : string) (m : t) : t :=
  match m with
  | [] => []
  | (k', v') :: m' =>
      if String.eqb k' k then m' else (k', v') :: delete k m'
  end.

Definition size (m : t) : nat := List.length m.

Definition values (m : t) : list V := map snd m.

(** [Array.from(m.entries()).find(([_, v]) => f v)?.[0]], and the
    [for (const [k, v] of m.entries()) if (f v) { r = k; break }] loop. *)
Fixpoint find_key (f : V -> bool) (m : t) : option string :=
  match m with
  | [] => None
  | (k, v) :: m' => if f v then Some k else find_key f m'
  end.

End Ops.

Arguments t : clear implicits.

End JsMap.

(** Truthiness of the JavaScript values the handlers test. *)

Definition truthy_string (s : string) : bool :=
  negb (String.eqb s "").

Definition truthy_Z (z : Z) : bool := negb (z =? 0).

Definition truthy_Q (q : Q) : bool := negb (Qnum q =? 0).

(** ** Data model (the interfaces of [hooks/use-websocket.ts]) *)

Module Song.
Record t := mk {
  id : Z;                 (* Date.now().toString() *)
  title : string;
  artist : option string;
  duration : Q;
  url : string;
  addedBy : string;
  addedAt : Z             (* new Date().toISOString() *)
}.
End Song.

(** The [song] of an [add-song] request: [Omit<Song, "id" | "addedAt">]. *)
Module NewSong.
Record t := mk {
  title : string;
  artist : option string;
  duration : Q;
  url : string;
  addedBy : string
}.
End NewSong.

Module Participant.
Record t := mk {
  id : string;
  name : string;
  isAdmin : bool;
  joinedAt : Z;
  isOnline : bool
}.

Definition with_isAdmin (b : bool) (p : t) : t :=
  mk (id p) (name p) b (joinedAt p) (isOnline p).
End Participant.

(** The [user] of a [join-room] request; [isAdmin] may be missing. *)
Module JoinUser.
Record t := mk {
  id : string;
  name : string;
  isAdmin : option bool
}.
End JoinUser.

Module ChatMessage.
Record t := mk {
  id : Z * string;        (* `${Date.now()}_${Math.random()...}` *)
  user : string;
  message : string;
  timestamp : Z;
  roomId : string
}.
End ChatMessage.

Module PlaybackState.
Record t := mk {
  currentSong : option Song.t;
  isPlaying : bool;
  currentTime : Q;
  volume : Q;
  playlist : list Song.t;
  currentIndex : Z;
  serverStartTime : option Z;
  playbackStartTime : option Q;
  lastSyncTime : Z
}.

Definition with_currentTime (q : Q) (s : t) : t :=
  mk (currentSong s) (isPlaying s) q (volume s) (playlist s)
     (currentIndex s) (serverStartTime s) (playbackStartTime s)
     (lastSyncTime s).
End PlaybackState.

Module RoomSettings.
Record t := mk {
  allowGuestControl : bool;
  maxParticipants : Z;
  isPublic : bool;
  requireApproval : bool
}.

(** The payload of [update-settings]: any subset of the fields. *)
Record patch := mk_patch {
  p_allowGuestControl : option bool;
  p_maxParticipants : option Z;
  p_isPublic : option bool;
  p_requireApproval : option bool
}.

Definition or_else {A} (o : option A) (d : A) : A :=
  match o with Some a => a | None => d end.

(** [{ ...settings, ...payload }] *)
Definition merge (s : t) (p : patch) : t :=
  mk (or_else (p_allowGuestControl p) (allowGuestControl s))
     (or_else (p_maxParticipants p) (maxParticipants s))
     (or_else (p_isPublic p) (isPublic s))
     (or_else (p_requireApproval p) (requireApproval s)).
End RoomSettings.

Module Room.
Record t := mk {
  id : string;
  name : string;
  creator : string;
  participants : JsMap.t Participant.t;
  messages : list ChatMessage.t;
  playbackState : PlaybackState.t;
  settings : RoomSettings.t;
  createdAt : Z;
  (* [syncInterval?: NodeJS.Timeout]: whether the timer is set.  Only
     [WebSocketManager] sets it. *)
  syncInterval : bool
}.

Definition with_participants (ps : JsMap.t Participant.t) (r : t) : t :=
  mk (id r) (name r) (creator r) ps (messages r) (playbackState r)
     (settings r) (createdAt r) (syncInterval r).

Definition with_creator (c : string) (r : t) : t :=
  mk (id r) (name r) c (participants r) (messages r) (playbackState r)
     (settings r) (createdAt r) (syncInterval r).

Definition with_messages (ms : list ChatMessage.t) (r : t) : t :=
  mk (id r) (name r) (creator r) (participants r) ms (playbackState r)
     (settings r) (createdAt r) (syncInterval r).

Definition with_playbackState (s : PlaybackState.t) (r : t) : t :=
  mk (id r) (name r) (creator r) (participants r) (messages r) s
     (settings r) (createdAt r) (syncInterval r).

Definition with_settings (s : RoomSettings.t) (r : t) : t :=
  mk (id r) (name r) (creator r) (participants r) (messages r)
     (playbackState r) s (createdAt r) (syncInterval r).

Definition with_syncInterval (b : bool) (r : t) : t :=
  mk (id r) (name r) (creator r) (participants r) (messages r)
     (playbackState r) (settings r) (createdAt r) b.
End Room.

Definition Rooms := JsMap.t Room.t.

(** ** Socket.IO effects *)

(** The part of [room] sent in [room-state]. *)
Record RoomInfo := mkRoomInfo {
  info_id : string;
  info_name : string;
  info_creator : string;
  info_settings : RoomSettings.t
}.

Inductive Target :=
| SocketEmit (socketId : string)               (* socket.emit(...) *)
| SocketTo (room : string) (socketId : string) (* socket.to(room).emit(...) *)
| IoTo (room : string).                        (* io.to(room).emit(...) *)

Inductive Message :=
| RoomError (message : string)
| UserJoined (user : string) (participants : list Participant.t)
| RoomState (room : RoomInfo) (participants : list Participant.t)
  (messages : list ChatMessage.t) (playbackState : PlaybackState.t)
  (serverTime : Z)
| SyncUpdate (playbackState : PlaybackState.t) (serverTime : Z)
| UserLeft (user : string) (participants : list Participant.t)
| NewMessage (m : ChatMessage.t)
| PlaylistUpdated (playbackState : PlaybackState.t)
| PermissionDenied (message : string)
| PlaybackStateChanged (playbackState : PlaybackState.t) (serverTime : Z)
| KickedFromRoom (message : string)
| AdminTransferred (newAdmin : string) (participants : list Participant.t)
| RoomSettingsUpdated (settings : RoomSettings.t)
| RoomClosed (message : string).

Inductive Effect :=
| Emit (to : Target) (m : Message)
| Join (socketId : string) (room : string)       (* socket.join(room) *)
| SocketsLeave (target : string) (room : string) (* io.to(target).socketsLeave(room) *)
| SetInterval (room : string)                    (* setInterval(broadcastSync, 5000) *)
| ClearInterval (room : string).

(** ** Requests *)

(** The [action] and [payload] of a [playback-control] request.  [seek]
  and [volume] read [payload.currentTime] and [payload.volume] without a
  test, so the number travels with the action; [play] reads
  [payload?.currentTime], which may be missing. *)
Inductive Control :=
| Play (currentTime : option Q)
| Pause
| Seek (currentTime : Q)
| Next
| Previous
| Volume (volume : Q)
| OtherControl (action : string).

(** The [action], [targetUserId] and [payload] of a [user-action] request. *)
Inductive UserAct :=
| KickUser (targetUserId : option string)
| TransferAdmin (targetUserId : option string)
| UpdateSettings (payload : option RoomSettings.patch)
| OtherUserAct (action : string).

(** [if (targetUserId)]: present and not the empty string. *)
Definition truthy_target (t : option string) : option string :=
  match t with
  | Some s => if truthy_string s then Some s else None
  | None => None
  end.

(** ** The [playback-control] switch

    The [switch (action)] statement is the same text in both servers. *)

(** [playlist[i]]; [undefined] outside the array. *)
Definition playlist_at (pl : list Song.t) (i : Z) : option Song.t :=
  if i <? 0 then None else nth_error pl (Z.to_nat i).

(** [playbackStartTime + (currentServerTime - serverStartTime) / 1000] *)
Definition elapsed_position (now start : Z) (p : Q) : Q :=
  (p + inject_Z (now - start) / inject_Z 1000)%Q.

Definition playback_switch (now : Z) (c : Control) (s : PlaybackState.t)
  : PlaybackState.t :=
  let '(PlaybackState.mk song playing ct vol pl idx sst pst lst) := s in
  match c with
  | Play payload =>
      (* payload?.currentTime || room.playbackState.currentTime *)
      let anchor :=
        match payload with
        | Some q => if truthy_Q q then q else ct
        | None => ct
        end in
      PlaybackState.mk song true ct vol pl idx (Some now) (Some anchor) now
  | Pause =>
      let ct' :=
        match sst, pst with
        | Some start, Some p =>
            if truthy_Z start then elapsed_position now start p else ct
        | _, _ => ct
        end in
      PlaybackState.mk song false ct' vol pl idx None None now
  | Seek q =>
      if playing
      then PlaybackState.mk song playing q vol pl idx (Some now) (Some q) now
      else PlaybackState.mk song playing q vol pl idx sst pst now
  | Next =>
      if idx <? Z.of_nat (List.length pl) - 1 then
        let idx' := idx + 1 in
        if playing
        then PlaybackState.mk (playlist_at pl idx') playing 0%Q vol pl idx'
               (Some now) (Some 0%Q) now
        else PlaybackState.mk (playlist_at pl idx') playing 0%Q vol pl idx'
               sst pst now
      else s
  | Previous =>
      if 0 <? idx then
        let idx' := idx - 1 in
        if playing
        then PlaybackState.mk (playlist_at pl idx') playing 0%Q vol pl idx'
               (Some now) (Some 0%Q) now
        else PlaybackState.mk (playlist_at pl idx') playing 0%Q vol pl idx'
               sst pst now
      else s
  | Volume v =>
      PlaybackState.mk song playing ct v pl idx sst pst now
  | OtherControl _ => s
  end.

(** The position sent by [request-sync]. *)
Definition calculatedTime (now : Z) (s : PlaybackState.t) : Q :=
  match PlaybackState.serverStartTime s, PlaybackState.playbackStartTime s with
  | Some start, Some p =>
      if PlaybackState.isPlaying s && truthy_Z start
      then elapsed_position now start p
      else PlaybackState.currentTime s
  | _, _ => PlaybackState.currentTime s
  end.

Definition has_id (userId : string) (p : Participant.t) : bool :=
  String.eqb (Participant.id p) userId.

(** ** The [user-action] switch

    The [switch (action)] statement of the [user-action] handler is the
    same text in both servers.  It runs once the caller's slot [adminUser]
    has been found to hold [isAdmin]. *)

Definition kick_user (roomId : string) (room : Room.t)
    (adminUser : Participant.t) (targetUserId : option string)
    (rooms : Rooms) : Rooms * list Effect :=
  match truthy_target targetUserId with
  | Some targetUserId =>
      let parts := Room.participants room in
      match JsMap.find_key (has_id targetUserId) parts with
      | Some targetSocket =>
          if truthy_string targetSocket then
            match JsMap.get targetSocket parts with
            | Some targetUser =>
                let parts := JsMap.delete targetSocket parts in
                (JsMap.set roomId (Room.with_participants parts room) rooms,
                 [Emit (IoTo targetSocket)
                    (KickedFromRoom
                       ("You were removed from the room by "
                        ++ Participant.name adminUser));
                  SocketsLeave targetSocket roomId;
                  Emit (IoTo roomId)
                    (UserLeft (Participant.name targetUser)
                       (JsMap.values parts))])
            | None => (rooms, []) (* not reached: [find] returned a key *)
            end
          else (rooms, [])
      | None => (rooms, [])
      end
  | None => (rooms, [])
  end.

(** [adminUser] and [targetUser] are the objects stored in the map, so the
    two assignments are two updates of the map, the second reading the
    result of the first (the two may be the same object). *)
Definition transfer_admin (socketId roomId : string) (room : Room.t)
    (adminUser : Participant.t) (targetUserId : option string)
    (rooms : Rooms) : Rooms * list Effect :=
  match truthy_target targetUserId with
  | Some targetUserId =>
      let parts := Room.participants room in
      match JsMap.find_key (has_id targetUserId) parts with
      | Some targetSocket =>
          if truthy_string targetSocket then
            let parts :=
              JsMap.set socketId (Participant.with_isAdmin false adminUser)
                parts in
            match JsMap.get targetSocket parts with
            | Some targetUser =>
                let targetUser := Participant.with_isAdmin true targetUser in
                let parts := JsMap.set targetSocket targetUser parts in
                let room :=
                  Room.with_creator (Participant.name targetUser)
                    (Room.with_participants parts room) in
                (JsMap.set roomId room rooms,
                 [Emit (IoTo roomId)
                    (AdminTransferred (Participant.name targetUser)
                       (JsMap.values parts))])
            | None => (rooms, []) (* not reached: [find] returned a key *)
            end
          else (rooms, [])
      | None => (rooms, [])
      end
  | None => (rooms, [])
  end.

Definition user_switch (socketId roomId : string) (room : Room.t)
    (adminUser : Participant.t) (action : UserAct) (rooms : Rooms)
  : Rooms * list Effect :=
  match action with
  | KickUser targetUserId =>
      kick_user roomId room adminUser targetUserId rooms
  | TransferAdmin targetUserId =>
      transfer_admin socketId roomId room adminUser targetUserId rooms
  | UpdateSettings (Some payload) =>
      let settings := RoomSettings.merge (Room.settings room) payload in
      (JsMap.set roomId (Room.with_settings settings room) rooms,
       [Emit (IoTo roomId) (RoomSettingsUpdated settings)])
  | UpdateSettings None => (rooms, [])
  | OtherUserAct _ => (rooms, [])
  end.

(** ** The stand-alone server

    One function per [socket.on] handler, under the handler's event name.
    [room.description] is never set and is left out; [joinedAt] and
    [createdAt] are kept as the clock reading they render. *)

Module Server.

Definition newRoom (roomId : string) (user : JoinUser.t) (now : Z) : Room.t :=
  Room.mk roomId ("Room " ++ roomId) (JoinUser.name user) JsMap.empty []
    (PlaybackState.mk None false 0%Q 1%Q [] (-1) None None now)
    (RoomSettings.mk false 50 true false)
    now false.

(** "Check if user is already in room (reconnection case)" and "Remove old
    connection if exists". *)
Definition remove_old_connection (socketId : string) (userId : string)
    (parts : JsMap.t Participant.t) : JsMap.t Participant.t :=
  match JsMap.find_key (has_id userId) parts with
  | Some existingSocketId =>
      if truthy_string existingSocketId
         && negb (String.eqb existingSocketId socketId)
      then JsMap.delete existingSocketId parts
      else parts
  | None => parts
  end.

(** The [isAdmin] of [participantData]:
    [room.participants.size === 0 ? true : user.isAdmin || false]. *)
Definition joining_isAdmin (parts : JsMap.t Participant.t)
    (user : JoinUser.t) : bool :=
  if Nat.eqb (JsMap.size parts) 0 then true
  else match JoinUser.isAdmin user with Some b => b | None => false end.

Definition room_info (room : Room.t) : RoomInfo :=
  mkRoomInfo (Room.id room) (Room.name room) (Room.creator room)
    (Room.settings room).

Definition join_room (socketId roomId : string) (user : JoinUser.t)
    (now : Z) (rooms : Rooms) : Rooms * list Effect :=
  if negb (truthy_string roomId) || negb (truthy_string (JoinUser.name user))
  then (rooms, [Emit (SocketEmit socketId) (RoomError "Invalid room data")])
  else
    let '(room, rooms) :=
      match JsMap.get roomId rooms with
      | Some room => (room, rooms)
      | None =>
          let room := newRoom roomId user now in
          (room, JsMap.set roomId room rooms)
      end in
    if Z.of_nat (JsMap.size (Room.participants room))
       >=? RoomSettings.maxParticipants (Room.settings room)
    then (rooms, [Emit (SocketEmit socketId) (RoomError "Room is full")])
    else
      let parts :=
        remove_old_connection socketId (JoinUser.id user)
          (Room.participants room) in
      let participantData :=
        Participant.mk (JoinUser.id user) (JoinUser.name user)
          (joining_isAdmin parts user) now true in
      let creator :=
        if Nat.eqb (JsMap.size parts) 0 then JoinUser.name user
        else Room.creator room in
      let parts := JsMap.set socketId participantData parts in
      let room := Room.with_participants parts (Room.with_creator creator room) in
      let participantsList := JsMap.values parts in
      (JsMap.set roomId room rooms,
       ([Join socketId roomId]
        ++ (if Nat.ltb 1 (JsMap.size parts)
            then [Emit (SocketTo roomId socketId)
                    (UserJoined (JoinUser.name user) participantsList)]
            else [])
        ++ [Emit (SocketEmit socketId)
              (RoomState (room_info room) participantsList (Room.messages room)
                 (Room.playbackState room) now)])%list).

Definition request_sync (socketId roomId : string) (now : Z) (rooms : Rooms)
  : Rooms * list Effect :=
  match JsMap.get roomId rooms with
  | Some room =>
      let s := Room.playbackState room in
      (rooms,
       [Emit (SocketEmit socketId)
          (SyncUpdate (PlaybackState.with_currentTime (calculatedTime now s) s)
             now)])
  | None => (rooms, [])
  end.

(** The [for (const [roomId, room] of rooms.entries())] loop of the
    [disconnect] handler: the first room holding the socket is left, then
    [break]. *)
Fixpoint disconnect_loop (socketId : string) (entries : list (string * Room.t))
    (rooms : Rooms) : Rooms * list Effect :=
  match entries with
  | [] => (rooms, [])
  | (roomId, room) :: rest =>
      match JsMap.get socketId (Room.participants room) with
      | Some user =>
          let parts := JsMap.delete socketId (Room.participants room) in
          let rooms := JsMap.set roomId (Room.with_participants parts room) rooms in
          (if Nat.eqb (JsMap.size parts) 0 then JsMap.delete roomId rooms
           else rooms,
           [Emit (SocketTo roomId socketId)
              (UserLeft (Participant.name user) (JsMap.values parts))])
      | None => disconnect_loop socketId rest rooms
      end
  end.

Definition disconnect (socketId : string) (rooms : Rooms)
  : Rooms * list Effect :=
  disconnect_loop socketId rooms rooms.

Definition send_message (socketId roomId message user rand : string)
    (now : Z) (rooms : Rooms) : Rooms * list Effect :=
  match JsMap.get roomId rooms with
  | Some room =>
      if JsMap.has socketId (Room.participants room) then
        let chatMessage := ChatMessage.mk (now, rand) user message now roomId in
        (JsMap.set roomId
           (Room.with_messages (Room.messages room ++ [chatMessage])%list room) rooms,
         [Emit (IoTo roomId) (NewMessage chatMessage)])
      else (rooms, [])
  | None => (rooms, [])
  end.

Definition add_song (socketId roomId : string) (song : NewSong.t) (now : Z)
    (rooms : Rooms) : Rooms * list Effect :=
  match JsMap.get roomId rooms with
  | Some room =>
      if JsMap.has socketId (Room.participants room) then
        let newSong :=
          Song.mk now (NewSong.title song) (NewSong.artist song)
            (NewSong.duration song) (NewSong.url song) (NewSong.addedBy song)
            now in
        let '(PlaybackState.mk cur playing ct vol pl idx sst pst lst) :=
          Room.playbackState room in
        let pl := (pl ++ [newSong])%list in
        let s :=
          match cur with
          | None =>
              if Nat.eqb (List.length pl) 1
              then PlaybackState.mk (Some newSong) playing ct vol pl 0 sst pst lst
              else PlaybackState.mk cur playing ct vol pl idx sst pst lst
          | Some _ => PlaybackState.mk cur playing ct vol pl idx sst pst lst
          end in
        (JsMap.set roomId (Room.with_playbackState s room) rooms,
         [Emit (IoTo roomId) (PlaylistUpdated s)])
      else (rooms, [])
  | None => (rooms, [])
  end.

Definition playback_control (socketId roomId : string) (action : Control)
    (now : Z) (rooms : Rooms) : Rooms * list Effect :=
  match JsMap.get roomId rooms with
  | Some room =>
      match JsMap.get socketId (Room.participants room) with
      | Some user =>
          if negb (Participant.isAdmin user)
             && negb (RoomSettings.allowGuestControl (Room.settings room))
          then (rooms,
                [Emit (SocketEmit socketId)
                   (PermissionDenied "Only admins can control playback")])
          else
            let s := playback_switch now action (Room.playbackState room) in
            (JsMap.set roomId (Room.with_playbackState s room) rooms,
             [Emit (IoTo roomId) (PlaybackStateChanged s now)])
      | None => (rooms, [])
      end
  | None => (rooms, [])
  end.

Definition user_action (socketId roomId : string) (action : UserAct)
    (rooms : Rooms) : Rooms * list Effect :=
  match JsMap.get roomId rooms with
  | Some room =>
      match JsMap.get socketId (Room.participants room) with
      | Some adminUser =>
          if negb (Participant.isAdmin adminUser)
          then (rooms,
                [Emit (SocketEmit socketId)
                   (PermissionDenied "Only admins can perform this action")])
          else
            user_switch socketId roomId room adminUser action rooms
      | None => (rooms, [])
      end
  | None => (rooms, [])
  end.

Definition close_room (socketId roomId : string) (rooms : Rooms)
  : Rooms * list Effect :=
  match JsMap.get roomId rooms with
  | Some room =>
      match JsMap.get socketId (Room.participants room) with
      | Some user =>
          if negb (Participant.isAdmin user)
          then (rooms,
                [Emit (SocketEmit socketId)
                   (PermissionDenied "Only admins can close the room")])
          else
            (JsMap.delete roomId rooms,
             [Emit (IoTo roomId)
                (RoomClosed ("Room closed by " ++ Participant.name user))])
      | None => (rooms, [])
      end
  | None => (rooms, [])
  end.

(** One event received on the connection [socketId]. *)
Inductive Request :=
| JoinRoom (socketId roomId : string) (user : JoinUser.t)
| RequestSync (socketId roomId : string)
| Disconnect (socketId : string)
| SendMessage (socketId roomId message user rand : string)
| AddSong (socketId roomId : string) (song : NewSong.t)
| PlaybackControl (socketId roomId : string) (action : Control)
| UserAction (socketId roomId : string) (action : UserAct)
| CloseRoom (socketId roomId : string).

(** The server handles one request at a time; [now] is [Date.now()] when
    the handler runs. *)
Definition handle (now : Z) (req : Request) (rooms : Rooms)
  : Rooms * list Effect :=
  match req with
  | JoinRoom s r u => join_room s r u now rooms
  | RequestSync s r => request_sync s r now rooms
  | Disconnect s => disconnect s rooms
  | SendMessage s r m u rand => send_message s r m u rand now rooms
  | AddSong s r song => add_song s r song now rooms
  | PlaybackControl s r a => playback_control s r a now rooms
  | UserAction s r a => user_action s r a rooms
  | CloseRoom s r => close_room s r rooms
  end.

Fixpoint run (reqs : list (Z * Request)) (rooms : Rooms)
  : Rooms * list Effect :=
  match reqs with
  | [] => (rooms, [])
  | (now, req) :: rest =>
      let '(rooms, out) := handle now req rooms in
      let '(rooms, out') := run rest rooms in
      (rooms, (out ++ out')%list)
  end.

End Server.

(** ** [WebSocketManager]

    The handlers of the class that the properties below speak of:
    [request-sync], [playback-control], [user-action] and the timer
    callback [broadcastSync]. *)

Module Manager.

Definition request_sync (socketId roomId : string) (now : Z) (rooms : Rooms)
  : Rooms * list Effect :=
  match JsMap.get roomId rooms with
  | Some room =>
      let s := Room.playbackState room in
      (rooms,
       [Emit (SocketEmit socketId)
          (SyncUpdate (PlaybackState.with_currentTime (calculatedTime now s) s)
             now)])
  | None => (rooms, [])
  end.

(** [user?.isAdmin] *)
Definition opt_isAdmin (user : option Participant.t) : bool :=
  match user with Some u => Participant.isAdmin u | None => false end.

Definition playback_control (socketId roomId : string) (action : Control)
    (now : Z) (rooms : Rooms) : Rooms * list Effect :=
  match JsMap.get roomId rooms with
  | Some room =>
      let user := JsMap.get socketId (Room.participants room) in
      if negb (opt_isAdmin user)
         && negb (RoomSettings.allowGuestControl (Room.settings room))
      then (rooms,
            [Emit (SocketEmit socketId)
               (PermissionDenied "Only admins can control playback")])
      else
        let s := playback_switch now action (Room.playbackState room) in
        let room := Room.with_playbackState s room in
        let '(room, timer) :=
          match action with
          | Play _ =>
              if negb (Room.syncInterval room)
              then (Room.with_syncInterval true room, [SetInterval roomId])
              else (room, [])
          | Pause =>
              if Room.syncInterval room
              then (Room.with_syncInterval false room, [ClearInterval roomId])
              else (room, [])
          | _ => (room, [])
          end in
        (JsMap.set roomId room rooms,
         Emit (IoTo roomId) (PlaybackStateChanged s now) :: timer)
  | None => (rooms, [])
  end.

Definition user_action (socketId roomId : string) (action : UserAct)
    (rooms : Rooms) : Rooms * list Effect :=
  match JsMap.get roomId rooms with
  | Some room =>
      match JsMap.get socketId (Room.participants room) with
      | Some adminUser =>
          if negb (Participant.isAdmin adminUser)
          then (rooms,
                [Emit (SocketEmit socketId)
                   (PermissionDenied "Only admins can perform this action")])
          else user_switch socketId roomId room adminUser action rooms
      | None =>
          (rooms,
           [Emit (SocketEmit socketId)
              (PermissionDenied "Only admins can perform this action")])
      end
  | None => (rooms, [])
  end.

(** The timer callback installed by [play]. *)
Definition broadcastSync (roomId : string) (now : Z) (rooms : Rooms)
  : Rooms * list Effect :=
  match JsMap.get roomId rooms with
  | Some room =>
      let s := Room.playbackState room in
      if negb (PlaybackState.isPlaying s) then (rooms, [])
      else
        let calculatedTime :=
          match PlaybackState.serverStartTime s,
                PlaybackState.playbackStartTime s with
          | Some start, Some p =>
              if truthy_Z start then elapsed_position now start p
              else PlaybackState.currentTime s
          | _, _ => PlaybackState.currentTime s
          end in
        (rooms,
         [Emit (IoTo roomId)
            (SyncUpdate (PlaybackState.with_currentTime calculatedTime s) now)])
  | None => (rooms, [])
  end.

(** [...user]: a missing [isAdmin] stays undefined, which every test of the
    flag reads as false. *)
Definition user_isAdmin (user : JoinUser.t) : bool :=
  match JoinUser.isAdmin user with Some b => b | None => false end.

(** [join-room] of the class: no input check, no search for an old
    connection, and the admin flag is the one the client sends. *)
Definition join_room (socketId roomId : string) (user : JoinUser.t)
    (now : Z) (rooms : Rooms) : Rooms * list Effect :=
  let '(room, rooms) :=
    match JsMap.get roomId rooms with
    | Some room => (room, rooms)
    | None =>
        let room := Server.newRoom roomId user now in
        (room, JsMap.set roomId room rooms)
    end in
  if Z.of_nat (JsMap.size (Room.participants room))
     >=? RoomSettings.maxParticipants (Room.settings room)
  then (rooms, [Emit (SocketEmit socketId) (RoomError "Room is full")])
  else
    let participantData :=
      Participant.mk (JoinUser.id user) (JoinUser.name user)
        (user_isAdmin user) now true in
    let parts := JsMap.set socketId participantData (Room.participants room) in
    let room := Room.with_participants parts room in
    (JsMap.set roomId room rooms,
     [Join socketId roomId;
      Emit (SocketTo roomId socketId)
        (UserJoined (JoinUser.name user) (JsMap.values parts));
      Emit (SocketEmit socketId)
        (RoomState (Server.room_info room) (JsMap.values parts)
           (Room.messages room) (Room.playbackState room) now)]).

(** [send-message] of the class: the sender need not be in the room.  The
    message id is [Date.now().toString()], kept as the reading with an
    empty suffix. *)
Definition send_message (socketId roomId message user : string)
    (now : Z) (rooms : Rooms) : Rooms * list Effect :=
  match JsMap.get roomId rooms with
  | Some room =>
      let chatMessage := ChatMessage.mk (now, "") user message now roomId in
      (JsMap.set roomId
         (Room.with_messages (Room.messages room ++ [chatMessage])%list room)
         rooms,
       [Emit (IoTo roomId) (NewMessage chatMessage)])
  | None => (rooms, [])
  end.

(** [add-song] of the class: the sender need not be in the room. *)
Definition add_song (socketId roomId : string) (song : NewSong.t) (now : Z)
    (rooms : Rooms) : Rooms * list Effect :=
  match JsMap.get roomId rooms with
  | Some room =>
      let newSong :=
        Song.mk now (NewSong.title song) (NewSong.artist song)
          (NewSong.duration song) (NewSong.url song) (NewSong.addedBy song)
          now in
      let '(PlaybackState.mk cur playing ct vol pl idx sst pst lst) :=
        Room.playbackState room in
      let pl := (pl ++ [newSong])%list in
      let s :=
        match cur with
        | None =>
            if Nat.eqb (List.length pl) 1
            then PlaybackState.mk (Some newSong) playing ct vol pl 0 sst pst lst
            else PlaybackState.mk cur playing ct vol pl idx sst pst lst
        | Some _ => PlaybackState.mk cur playing ct vol pl idx sst pst lst
        end in
      (JsMap.set roomId (Room.with_playbackState s room) rooms,
       [Emit (IoTo roomId) (PlaylistUpdated s)])
  | None => (rooms, [])
  end.

Definition close_room (socketId roomId : string) (rooms : Rooms)
  : Rooms * list Effect :=
  match JsMap.get roomId rooms with
  | Some room =>
      match JsMap.get socketId (Room.participants room) with
      | Some user =>
          if negb (Participant.isAdmin user)
          then (rooms,
                [Emit (SocketEmit socketId)
                   (PermissionDenied "Only admins can close the room")])
          else
            (JsMap.delete roomId rooms,
             Emit (IoTo roomId)
               (RoomClosed ("Room closed by " ++ Participant.name user))
             :: (if Room.syncInterval room then [ClearInterval roomId]
                 else []))
      | None =>
          (rooms,
           [Emit (SocketEmit socketId)
              (PermissionDenied "Only admins can close the room")])
      end
  | None => (rooms, [])
  end.

(** The loop of the [disconnect] handler of the class: every room holding
    the socket is left (there is no [break]); a room that becomes empty has
    its timer cleared and is deleted. *)
Fixpoint disconnect_loop (socketId : string) (entries : list (string * Room.t))
    (rooms : Rooms) : Rooms * list Effect :=
  match entries with
  | [] => (rooms, [])
  | (roomId, room) :: rest =>
      match JsMap.get socketId (Room.participants room) with
      | Some user =>
          let parts := JsMap.delete socketId (Room.participants room) in
          let rooms := JsMap.set roomId (Room.with_participants parts room) rooms in
          let left :=
            Emit (SocketTo roomId socketId)
              (UserLeft (Participant.name user) (JsMap.values parts)) in
          let '(rooms, cleared) :=
            if Nat.eqb (JsMap.size parts) 0
            then (JsMap.delete roomId rooms,
                  if Room.syncInterval room then [ClearInterval roomId]
                  else [])
            else (rooms, []) in
          let '(rooms, out) := disconnect_loop socketId rest rooms in
          (rooms, (left :: cleared ++ out)%list)
      | None => disconnect_loop socketId rest rooms
      end
  end.

Definition disconnect (socketId : string) (rooms : Rooms)
  : Rooms * list Effect :=
  disconnect_loop socketId rooms rooms.

(** One event received on the connection [socketId], or one firing of the
    timer of a room. *)
Inductive Request :=
| JoinRoom (socketId roomId : string) (user : JoinUser.t)
| RequestSync (socketId roomId : string)
| Disconnect (socketId : string)
| SendMessage (socketId roomId message user : string)
| AddSong (socketId roomId : string) (song : NewSong.t)
| PlaybackControl (socketId roomId : string) (action : Control)
| UserAction (socketId roomId : string) (action : UserAct)
| CloseRoom (socketId roomId : string)
| TimerFires (roomId : string).

Definition handle (now : Z) (req : Request) (rooms : Rooms)
  : Rooms * list Effect :=
  match req with
  | JoinRoom s r u => join_room s r u now rooms
  | RequestSync s r => request_sync s r now rooms
  | Disconnect s => disconnect s rooms
  | SendMessage s r m u => send_message s r m u now rooms
  | AddSong s r song => add_song s r song now rooms
  | PlaybackControl s r a => playback_control s r a now rooms
  | UserAction s r a => user_action s r a rooms
  | CloseRoom s r => close_room s r rooms
  | TimerFires r => broadcastSync r now rooms
  end.

Fixpoint run (reqs : list (Z * Request)) (rooms : Rooms)
  : Rooms * list Effect :=
  match reqs with
  | [] => (rooms, [])
  | (now, req) :: rest =>
      let '(rooms, out) := handle now req rooms in
      let '(rooms, out') := run rest rooms in
      (rooms, (out ++ out')%list)
  end.

End Manager.

(** ** The client: [useWebSocket]

    The part of the hook's state that the synchronised position reads:
    the last playback state received and the clock offset.  The other
    handlers of the hook (chat, roster, room info) do not touch it. *)

Module Client.

Record t := mk {
  playbackState : PlaybackState.t;
  serverTimeOffset : Z
}.

Definition initial (now : Z) : t :=
  mk (PlaybackState.mk None false 0%Q 1%Q [] (-1) None None now) 0.

(** The [socket.on] handlers for the server's messages; [clientTime] is
    [Date.now()] in the browser when the message arrives. *)
Definition receive (m : Message) (clientTime : Z) (c : t) : t :=
  match m with
  | RoomState _ _ _ s serverTime =>
      (* if (state.serverTime) setServerTimeOffset(...) *)
      mk s (if truthy_Z serverTime then serverTime - clientTime
            else serverTimeOffset c)
  | PlaylistUpdated s => mk s (serverTimeOffset c)
  | PlaybackStateChanged s serverTime => mk s (serverTime - clientTime)
  | SyncUpdate s serverTime => mk s (serverTime - clientTime)
  | _ => c
  end.

Definition getSyncedCurrentTime (clientTime : Z) (c : t) : Q :=
  let s := playbackState c in
  match PlaybackState.serverStartTime s, PlaybackState.playbackStartTime s with
  | Some start, Some p =>
      if negb (PlaybackState.isPlaying s) || negb (truthy_Z start)
      then PlaybackState.currentTime s
      else elapsed_position (clientTime + serverTimeOffset c) start p
  | _, _ => PlaybackState.currentTime s
  end.

End Client.

(** ** The player component: drift correction

    The callbacks of [MusicPlayer] that write its four refs or seek the
    player between two loads of a video: the polling callback [updateTime] and the
    effect that follows [playbackState.isPlaying], which seek the player to
    the synchronised position; [onReady], [handlePlayerStateChange],
    [handleSeek] and the timers they set.  Each is a function of the values
    its closure captured ([Props]), of what the player answers at the call
    ([Probe]) and of the refs, to the refs it leaves and the commands it
    issues.  The effect that loads a video resets the refs and is the start
    of a run, not a step of it. *)

Module Player.

Inductive SyncStatus := Synced | Syncing | OutOfSync | Local.

Record Refs := mkRefs {
  lastSyncCorrection : Z;
  consecutiveSyncCorrections : nat;
  isSeeking : bool;
  playerReady : bool
}.

Record Props := mkProps {
  isConnected : bool;
  isPlaying : bool;         (* playbackState.isPlaying *)
  isDragging : bool;
  syncPaused : bool;
  isYTReady : bool;
  playerPlaying : bool;     (* playerState === YT.PlayerState.PLAYING *)
  isAdmin : bool;
  volume : Q                (* playbackState.volume *)
}.

Record Probe := mkProbe {
  hasPlayer : bool;         (* playerRef.current *)
  playerTime : option Q;    (* getCurrentTime(), if the method is there *)
  hasSeekTo : bool;
  hasPlayVideo : bool;
  hasPauseVideo : bool;
  syncedTime : Q;           (* getSyncedCurrentTime() *)
  now : Z                   (* Date.now() *)
}.

(** The states the embedded player reports. *)
Inductive YTState := Unstarted | Ended | Playing | Paused | Buffering | Cued.

Inductive Command :=
| SetLocalCurrentTime (t : Q)
| SetSyncStatus (s : SyncStatus)
| SetSyncPaused (b : bool)
| SetPlayerState (s : YTState)
| SetApiError (b : bool)
| SetVolume (v : Q)                (* setVolume(v) *)
| SeekTo (t : Q)                   (* seekTo(t, true) *)
| SeekSettlesAfter (ms : Z)        (* setTimeout(() => isSeeking = false, ms) *)
| PlayingSettlesAfter (ms : Z)     (* the timer of a start of play *)
| BufferingSettlesAfter (ms : Z)   (* the timer of a start of buffering *)
| ReadySettlesAfter (ms : Z)       (* the timer of [onReady] *)
| ManualSeekSettlesAfter (ms : Z)  (* the timer of [handleSeek] *)
| RequestNext                      (* onPlaybackControl("next") *)
| RequestSeek (t : Q)              (* onPlaybackControl("seek", {currentTime}) *)
| PlayVideo
| PauseVideo.

(** [x > y] on positions *)
Definition Qgt_bool (x y : Q) : bool := negb (Qle_bool x y).

(** [getCurrentTime() || 0] *)
Definition time_or_zero (t : Q) : Q := if truthy_Q t then t else 0%Q.

Definition after_seek (p : Probe) (r : Refs) : Refs :=
  mkRefs (now p) (S (consecutiveSyncCorrections r)) true (playerReady r).

Definition updateTime (c : Props) (p : Probe) (r : Refs)
  : Refs * list Command :=
  if negb (isDragging c) && hasPlayer p && negb (isSeeking r) then
    match playerTime p with
    | None => (r, [])
    | Some t =>
        let currentTime := time_or_zero t in
        let shown := SetLocalCurrentTime currentTime in
        if isConnected c && isPlaying c && negb (syncPaused c) then
          let timeDifference := Qabs (syncedTime p - currentTime) in
          let timeSinceLastCorrection := now p - lastSyncCorrection r in
          if Qgt_bool timeDifference 5
             && (15000 <? timeSinceLastCorrection)
             && Nat.ltb (consecutiveSyncCorrections r) 1
             && playerPlaying c
          then
            if hasSeekTo p then
              let r' := after_seek p r in
              (r',
               [shown; SetSyncStatus OutOfSync; SeekTo (syncedTime p);
                SeekSettlesAfter 3000]
               ++ (if Nat.leb 1 (consecutiveSyncCorrections r')
                   then [SetSyncPaused true] else []))%list
            else (r, [shown; SetSyncStatus OutOfSync])
          else if Qgt_bool timeDifference 2 && Qle_bool timeDifference 5
          then (r, [shown; SetSyncStatus Syncing])
          else if Qle_bool timeDifference 2
          then
            (if 30000 <? timeSinceLastCorrection
             then mkRefs (lastSyncCorrection r) 0 (isSeeking r) (playerReady r)
             else r,
             [shown; SetSyncStatus Synced])
          else (r, [shown])
        else if negb (isConnected c) then (r, [shown; SetSyncStatus Local])
        else if syncPaused c then (r, [shown; SetSyncStatus Syncing])
        else (r, [shown])
    end
  else (r, []).

(** The effect "Handle play/pause state changes". *)
Definition playPauseEffect (c : Props) (p : Probe) (r : Refs)
  : Refs * list Command :=
  if negb (hasPlayer p) || negb (isYTReady c) || negb (playerReady r)
  then (r, [])
  else if negb (hasPlayVideo p) || negb (hasPauseVideo p)
          || negb (hasSeekTo p)
  then (r, [])
  else if isPlaying c && negb (playerPlaying c) then
    let '(r, seek) :=
      if isConnected c && negb (isSeeking r) && negb (syncPaused c) then
        let timeSinceLastCorrection := now p - lastSyncCorrection r in
        if 5000 <? timeSinceLastCorrection then
          let currentTime :=
            match playerTime p with
            | Some t => time_or_zero t
            | None => 0%Q
            end in
          let timeDifference := Qabs (syncedTime p - currentTime) in
          if Qgt_bool timeDifference 3
             && Nat.ltb (consecutiveSyncCorrections r) 1
          then (after_seek p r, [SeekTo (syncedTime p); SeekSettlesAfter 2000])
          else (r, [])
        else (r, [])
      else (r, []) in
    (r, (seek ++ [PlayVideo])%list)
  else if negb (isPlaying c) && playerPlaying c then (r, [PauseVideo])
  else (r, []).

(** [handlePlayerStateChange]; the callbacks of its two timers are
    [playingSettled] and [bufferingSettled] below. *)
Definition handlePlayerStateChange (newState : YTState) (r : Refs)
  : Refs * list Command :=
  match newState with
  | Playing =>
      (mkRefs (lastSyncCorrection r) (consecutiveSyncCorrections r)
         (isSeeking r) true,
       [SetPlayerState newState; PlayingSettlesAfter 3000])
  | Ended => (r, [SetPlayerState newState; RequestNext])
  | Buffering =>
      (mkRefs (lastSyncCorrection r) (consecutiveSyncCorrections r) true
         (playerReady r),
       [SetPlayerState newState; BufferingSettlesAfter 5000])
  | Paused =>
      (mkRefs (lastSyncCorrection r) (consecutiveSyncCorrections r) false
         (playerReady r),
       [SetPlayerState newState])
  | _ => (r, [SetPlayerState newState])
  end.

(** The timer set when the player starts playing, 3 s later. *)
Definition playingSettled (now : Z) (r : Refs) : Refs :=
  mkRefs now 0 false (playerReady r).

(** The timer set when the player starts buffering, 5 s later. *)
Definition bufferingSettled (r : Refs) : Refs :=
  if playerReady r
  then mkRefs (lastSyncCorrection r) (consecutiveSyncCorrections r) false
         (playerReady r)
  else r.

(** The timer set by either correction: [isSeekingRef.current = false]. *)
Definition seekSettled (r : Refs) : Refs :=
  mkRefs (lastSyncCorrection r) (consecutiveSyncCorrections r) false
    (playerReady r).

(** [onReady] of a newly created player; its timer is [readySettled]. *)
Definition onReady (c : Props) (p : Probe) (r : Refs) : Refs * list Command :=
  let '(r, seek) :=
    if isConnected c then
      if Qgt_bool (syncedTime p) 0 then
        (mkRefs (lastSyncCorrection r) (consecutiveSyncCorrections r) true
           (playerReady r),
         [SeekTo (syncedTime p); ReadySettlesAfter 3000])
      else
        (mkRefs (lastSyncCorrection r) (consecutiveSyncCorrections r)
           (isSeeking r) true, [])
    else
      (mkRefs (lastSyncCorrection r) (consecutiveSyncCorrections r)
         (isSeeking r) true, []) in
  (r,
   ([SetApiError false; SetVolume (volume c * 100)] ++ seek
    ++ (if isPlaying c then [PlayVideo] else []))%list).

(** The timer set by [onReady] when it seeks, 3 s later. *)
Definition readySettled (now : Z) (r : Refs) : Refs :=
  mkRefs now (consecutiveSyncCorrections r) false true.

(** [handleSeek]: the listener moves the seek bar to [newTime]; its timer
    is [manualSeekSettled]. *)
Definition handleSeek (c : Props) (p : Probe) (newTime : Q) (r : Refs)
  : Refs * list Command :=
  if negb (isAdmin c) || negb (hasPlayer p) || negb (playerReady r)
  then (r, [])
  else if hasSeekTo p then
    (mkRefs (lastSyncCorrection r) (consecutiveSyncCorrections r) true
       (playerReady r),
     [SetLocalCurrentTime newTime; SeekTo newTime;
      ManualSeekSettlesAfter 2000; RequestSeek newTime])
  else (r, [SetLocalCurrentTime newTime; RequestSeek newTime]).

(** The timer set by [handleSeek], 2 s later. *)
Definition manualSeekSettled (now : Z) (r : Refs) : Refs * list Command :=
  (mkRefs now 0 false (playerReady r), [SetSyncPaused false]).

(** The timer of the effect on [syncPaused], 30 s after the pause of the
    corrections. *)
Definition cooldownSettled (r : Refs) : Refs * list Command :=
  (mkRefs (lastSyncCorrection r) 0 (isSeeking r) (playerReady r),
   [SetSyncPaused false]).

(** What can happen to the refs between two loads of a video. *)
Inductive Step :=
| Poll (c : Props) (p : Probe)
| PlayPause (c : Props) (p : Probe)
| StateChange (newState : YTState)
| PlayingSettled (now : Z)
| BufferingSettled
| SeekSettled
| Ready (c : Props) (p : Probe)
| ReadySettled (now : Z)
| ManualSeek (c : Props) (p : Probe) (newTime : Q)
| ManualSeekSettled (now : Z)
| CooldownSettled.

Definition step (s : Step) (r : Refs) : Refs * list Command :=
  match s with
  | Poll c p => updateTime c p r
  | PlayPause c p => playPauseEffect c p r
  | StateChange st => handlePlayerStateChange st r
  | PlayingSettled now => (playingSettled now r, [])
  | BufferingSettled => (bufferingSettled r, [])
  | SeekSettled => (seekSettled r, [])
  | Ready c p => onReady c p r
  | ReadySettled now => (readySettled now r, [])
  | ManualSeek c p newTime => handleSeek c p newTime r
  | ManualSeekSettled now => manualSeekSettled now r
  | CooldownSettled => cooldownSettled r
  end.

(** The clock reading a step makes, if it makes one. *)
Definition step_time (s : Step) : option Z :=
  match s with
  | Poll _ p | PlayPause _ p => Some (now p)
  | PlayingSettled t | ReadySettled t | ManualSeekSettled t => Some t
  | _ => None
  end.

(** The clock reading of a drift correction: a poll or a play/pause effect
    that seeks the player.  The seeks of [onReady] and [handleSeek] are not
    corrections. *)
Definition is_seek (c : Command) : bool :=
  match c with SeekTo _ => true | _ => false end.

Definition correction (s : Step) (out : list Command) : option Z :=
  match s with
  | Poll _ p | PlayPause _ p =>
      if existsb is_seek out then Some (now p) else None
  | _ => None
  end.

(** The positions the commands seek to. *)
Fixpoint seeks (out : list Command) : list Q :=
  match out with
  | [] => []
  | SeekTo t :: out' => t :: seeks out'
  | _ :: out' => seeks out'
  end.

(** Steps run one after the other. *)
Fixpoint steps (l : list Step) (r : Refs) : Refs * list Command :=
  match l with
  | [] => (r, [])
  | s :: l' =>
      let '(r, out) := step s r in
      let '(r, out') := steps l' r in
      (r, (out ++ out')%list)
  end.

(** The clock readings of the drift corrections of a run. *)
Fixpoint correction_times (l : list Step) (r : Refs) : list Z :=
  match l with
  | [] => []
  | s :: l' =>
      let '(r', out) := step s r in
      match correction s out with
      | Some t => t :: correction_times l' r'
      | None => correction_times l' r'
      end
  end.


(** The clock never goes back: readings from [t] on, in order. *)
Fixpoint clock_from (t : Z) (l : list Step) : Prop :=
  match l with
  | [] => True
  | s :: l' =>
      match step_time s with
      | Some t' => t <= t' /\ clock_from t' l'
      | None => clock_from t l'
      end
  end.

(** Each time is more than [gap] after the one before, the first more than
    [gap] after [t]. *)
Fixpoint spaced (gap t : Z) (ts : list Z) : Prop :=
  match ts with
  | [] => True
  | t' :: ts' => t + gap < t' /\ spaced gap t' ts'
  end.


End Player.

(** ** Notions used by the properties *)

Definition b2n (b : bool) : nat := if b then 1%nat else 0%nat.

(** Number of participants of a roster that hold [isAdmin]. *)
Fixpoint roster_admins (l : list Participant.t) : nat :=
  match l with
  | [] => 0%nat
  | p :: l' => (b2n (Participant.isAdmin p) + roster_admins l')%nat
  end.

Definition admin_count (parts : JsMap.t Participant.t) : nat :=
  roster_admins (JsMap.values parts).

(** Every room of the table has at most one admin slot. *)
Definition single_admin (rooms : Rooms) : Prop :=
  forall roomId room,
    In (roomId, room) rooms -> (admin_count (Room.participants room) <= 1)%nat.

(** No room of the table is empty. *)
Definition no_empty_room (rooms : Rooms) : Prop :=
  forall roomId room,
    In (roomId, room) rooms -> JsMap.size (Room.participants room) <> 0%nat.

(** The rosters announced by [admin-transferred]. *)
Fixpoint transferred_rosters (out : list Effect) : list (list Participant.t) :=
  match out with
  | [] => []
  | Emit _ (AdminTransferred _ roster) :: out' =>
      roster :: transferred_rosters out'
  | _ :: out' => transferred_rosters out'
  end.

(** Every roster sent to a client: the snapshots of the participants that
    are observed outside the server. *)
Fixpoint rosters (out : list Effect) : list (list Participant.t) :=
  match out with
  | [] => []
  | Emit _ (UserJoined _ roster) :: out'
  | Emit _ (RoomState _ roster _ _ _) :: out'
  | Emit _ (UserLeft _ roster) :: out'
  | Emit _ (AdminTransferred _ roster) :: out' => roster :: rosters out'
  | _ :: out' => rosters out'
  end.

(** A roster that is empty or is the roster of a room of the table. *)
Definition roster_of_state (rooms : Rooms) (roster : list Participant.t)
  : Prop :=
  roster = []
  \/ exists roomId room,
       In (roomId, room) rooms
       /\ roster = JsMap.values (Room.participants room).

(** The position carried by the [sync-update] events of an output. *)
Fixpoint sync_positions (out : list Effect) : list Q :=
  match out with
  | [] => []
  | Emit _ (SyncUpdate s _) :: out' =>
      PlaybackState.currentTime s :: sync_positions out'
  | _ :: out' => sync_positions out'
  end.

Module ServerProps.

(** A join that sends [isAdmin: true] is harmless when, once the slots it
    replaces are gone, no slot of the room holds [isAdmin]. *)
Definition join_keeps_single_admin (socketId roomId : string)
    (user : JoinUser.t) (rooms : Rooms) : bool :=
  match JoinUser.isAdmin user, JsMap.get roomId rooms with
  | Some true, Some room =>
      Nat.eqb
        (admin_count
           (JsMap.delete socketId
              (Server.remove_old_connection socketId (JoinUser.id user)
                 (Room.participants room))))
        0
  | _, _ => true
  end.

Definition request_ok (req : Server.Request) (rooms : Rooms) : bool :=
  match req with
  | Server.JoinRoom s r u => join_keeps_single_admin s r u rooms
  | _ => true
  end.

(** Every join of the trace that claims admin finds no other admin. *)
Fixpoint admin_claims_ok (reqs : list (Z * Server.Request)) (rooms : Rooms)
  : bool :=
  match reqs with
  | [] => true
  | (now, req) :: rest =>
      request_ok req rooms
      && admin_claims_ok rest (fst (Server.handle now req rooms))
  end.

(** Every clock reading of the trace is after the epoch. *)
Definition clocks_positive (reqs : list (Z * Server.Request)) : Prop :=
  Forall (fun r => 0 < fst r) reqs.

Definition playback_of (roomId : string) (rooms : Rooms)
  : option PlaybackState.t :=
  option_map Room.playbackState (JsMap.get roomId rooms).

Definition participants_of (roomId : string) (rooms : Rooms)
  : option (JsMap.t Participant.t) :=
  option_map Room.participants (JsMap.get roomId rooms).

End ServerProps.

(** [next] asked at the last index of the playlist, or [previous] at
    index 0. *)
Definition at_boundary (action : Control) (s : PlaybackState.t) : Prop :=
  (action = Next
   /\ PlaybackState.currentIndex s
      = Z.of_nat (List.length (PlaybackState.playlist s)) - 1)
  \/ (action = Previous /\ PlaybackState.currentIndex s = 0).

(** The caller passes the permission check of [playback-control]. *)
Definition may_control (user : Participant.t) (room : Room.t) : bool :=
  Participant.isAdmin user
  || RoomSettings.allowGuestControl (Room.settings room).

(** A handler that changes nothing and tells nobody. *)
Definition silent (rooms : Rooms) (result : Rooms * list Effect) : Prop :=
  result = (rooms, []).

(** Some event is sent, to anybody. *)
Definition emits (out : list Effect) : Prop :=
  exists to m, In (Emit to m) out.

(** No slot of the room carries the identifier. *)
Definition absent (userId : string) (parts : JsMap.t Participant.t) : Prop :=
  forall k p, In (k, p) parts -> Participant.id p <> userId.

(** Every field of a playback state but [currentTime]. *)
Definition frame (s : PlaybackState.t) :=
  (PlaybackState.currentSong s, PlaybackState.isPlaying s,
   PlaybackState.volume s, PlaybackState.playlist s,
   PlaybackState.currentIndex s, PlaybackState.serverStartTime s,
   PlaybackState.playbackStartTime s, PlaybackState.lastSyncTime s).

(** The playback states carried by the [sync-update] events of an output. *)
Fixpoint sync_states (out : list Effect) : list PlaybackState.t :=
  match out with
  | [] => []
  | Emit _ (SyncUpdate s _) :: out' => s :: sync_states out'
  | _ :: out' => sync_states out'
  end.

(** A stored anchor time is a clock reading after the epoch. *)
Definition anchor_ok (s : PlaybackState.t) : Prop :=
  forall start, PlaybackState.serverStartTime s = Some start -> 0 < start.

(** Every stored anchor time is a clock reading after the epoch. *)
Definition anchors_positive (rooms : Rooms) : Prop :=
  forall roomId room start,
    In (roomId, room) rooms ->
    PlaybackState.serverStartTime (Room.playbackState room) = Some start ->
    0 < start.

(** The stored playback state of a room, if the room exists. *)
Definition stored_playback (roomId : string) (rooms : Rooms)
  : list PlaybackState.t :=
  match JsMap.get roomId rooms with
  | Some room => [Room.playbackState room]
  | None => []
  end.

(** The stored position of a room, if the room exists. *)
Definition stored_position (roomId : string) (rooms : Rooms) : option Q :=
  option_map (fun room => PlaybackState.currentTime (Room.playbackState room))
    (JsMap.get roomId rooms).

(** The keys of a [Map] are distinct. *)
Definition distinct_keys {V : Type} (m : JsMap.t V) : Prop :=
  NoDup (map fst m).

(** [user.isAdmin || false] *)
Definition requested_admin (user : JoinUser.t) : bool :=
  match JoinUser.isAdmin user with Some b => b | None => false end.

(** In every room the participant map has distinct keys. *)
Definition slots_distinct (rooms : Rooms) : Prop :=
  forall roomId room,
    In (roomId, room) rooms -> distinct_keys (Room.participants room).

(** The room is playing from an anchor: [isPlaying], a server anchor time
    that is a real clock reading, and an anchored position. *)
Definition anchored (s : PlaybackState.t) (start : Z) (p : Q) : Prop :=
  PlaybackState.isPlaying s = true
  /\ PlaybackState.serverStartTime s = Some start
  /\ start <> 0
  /\ PlaybackState.playbackStartTime s = Some p.

(** [play] sent without a position, or with position 0. *)
Definition resumes (payload : option Q) : Prop :=
  match payload with
  | Some q => (q == 0)%Q
  | None => True
  end.

(** The current song is the playlist entry at the current index, and the
    index is -1 exactly when the playlist is empty. *)
Definition song_ok (s : PlaybackState.t) : Prop :=
  (PlaybackState.currentIndex s = -1
   /\ PlaybackState.playlist s = []
   /\ PlaybackState.currentSong s = None)
  \/ (0 <= PlaybackState.currentIndex s
                < Z.of_nat (List.length (PlaybackState.playlist s))
      /\ PlaybackState.currentSong s
         = nth_error (PlaybackState.playlist s)
             (Z.to_nat (PlaybackState.currentIndex s))).

(** A server message that carries a playback state and the server time. *)
Definition timed_state (m : Message) (s : PlaybackState.t) (serverTime : Z)
  : Prop :=
  m = PlaybackStateChanged s serverTime
  \/ m = SyncUpdate s serverTime
  \/ (serverTime <> 0
      /\ exists info roster log, m = RoomState info roster log s serverTime).

(** A property of the stored playback state holds in every room. *)
Definition playback_all (Q : PlaybackState.t -> Prop) (rooms : Rooms) : Prop :=
  forall roomId room,
    In (roomId, room) rooms -> Q (Room.playbackState room).

(** The playback state of a new room. *)
Definition initial_playback (now : Z) : PlaybackState.t :=
  PlaybackState.mk None false 0%Q 1%Q [] (-1) None None now.

(** What [add-song] does to the playback state. *)
Definition push_song (newSong : Song.t) (s : PlaybackState.t)
  : PlaybackState.t :=
  let '(PlaybackState.mk cur playing ct vol pl idx sst pst lst) := s in
  let pl := (pl ++ [newSong])%list in
  match cur with
  | None =>
      if Nat.eqb (List.length pl) 1
      then PlaybackState.mk (Some newSong) playing ct vol pl 0 sst pst lst
      else PlaybackState.mk cur playing ct vol pl idx sst pst lst
  | Some _ => PlaybackState.mk cur playing ct vol pl idx sst pst lst
  end.

(** The room is playing exactly when it has an anchor: both anchor fields
    are set while playing and both are null otherwise. *)
Definition anchor_shape (s : PlaybackState.t) : Prop :=
  (PlaybackState.isPlaying s = true
   /\ PlaybackState.serverStartTime s <> None
   /\ PlaybackState.playbackStartTime s <> None)
  \/ (PlaybackState.isPlaying s = false
      /\ PlaybackState.serverStartTime s = None
      /\ PlaybackState.playbackStartTime s = None).

(** The timer of a room runs exactly when the room is playing. *)
Definition timer_ok (room : Room.t) : Prop :=
  Room.syncInterval room = PlaybackState.isPlaying (Room.playbackState room).

(** The timer of every room runs exactly when the room is playing. *)
Definition timer_follows_play (rooms : Rooms) : Prop :=
  forall roomId room,
    In (roomId, room) rooms ->
    Room.syncInterval room = PlaybackState.isPlaying (Room.playbackState room).

(** The slot given to the first participant of a room. *)
Definition first_slot (user : JoinUser.t) (now : Z) : Participant.t :=
  Participant.mk (JoinUser.id user) (JoinUser.name user) true now true.

(** The room as it is after its first participant joined. *)
Definition created_room (socketId roomId : string) (user : JoinUser.t)
    (now : Z) : Room.t :=
  Room.mk roomId ("Room " ++ roomId) (JoinUser.name user)
    [(socketId, first_slot user now)] [] (initial_playback now)
    (RoomSettings.mk false 50 true false) now false.

(** The join request passes the input check. *)
Definition valid_join (roomId : string) (user : JoinUser.t) : Prop :=
  roomId <> "" /\ JoinUser.name user <> "".

(** The connection has no slot in any room of the table. *)
Definition in_no_room (socketId : string) (rooms : Rooms) : Prop :=
  forall roomId room,
    In (roomId, room) rooms ->
    JsMap.get socketId (Room.participants room) = None.

(** The connection has no slot in the room (or the room does not exist). *)
Definition outsider (socketId roomId : string) (rooms : Rooms) : Prop :=
  match JsMap.get roomId rooms with
  | Some room => JsMap.get socketId (Room.participants room) = None
  | None => True
  end.

(** No two slots of the room carry the same participant identifier. *)
Definition ids_distinct (parts : JsMap.t Participant.t) : Prop :=
  NoDup (map Participant.id (JsMap.values parts)).

(** No slot is stored under the empty connection identifier. *)
Definition keys_nonempty (parts : JsMap.t Participant.t) : Prop :=
  forall k p, In (k, p) parts -> k <> "".

(** A well-formed participant map. *)
Definition slot_ok (m : JsMap.t Participant.t) : Prop :=
  distinct_keys m /\ ids_distinct m /\ keys_nonempty m.

(** Every participant map of the table is well formed. *)
Definition slots_ok (rooms : Rooms) : Prop :=
  forall roomId room,
    In (roomId, room) rooms -> slot_ok (Room.participants room).

(** In every room the identifiers of the participants are distinct. *)
Definition one_slot_per_identifier (rooms : Rooms) : Prop :=
  forall roomId room,
    In (roomId, room) rooms -> ids_distinct (Room.participants room).

(** Every join of the trace comes from a connection with a non-empty
    identifier, as the ones Socket.IO gives. *)
Fixpoint sockets_named (reqs : list (Z * Server.Request)) : Prop :=
  match reqs with
  | [] => True
  | (_, Server.JoinRoom socketId _ _) :: rest =>
      socketId <> "" /\ sockets_named rest
  | _ :: rest => sockets_named rest
  end.

(** Nothing, or one command to the timer of a room. *)
Definition timer_only (out : list Effect) : Prop :=
  out = []
  \/ exists room, out = [SetInterval room] \/ out = [ClearInterval room].

(** The song built by [add-song] from the request and the clock. *)
Definition song_of (song : NewSong.t) (now : Z) : Song.t :=
  Song.mk now (NewSong.title song) (NewSong.artist song)
    (NewSong.duration song) (NewSong.url song) (NewSong.addedBy song) now.

(** The chat log and the playlist of [r'] continue those of [r]. *)
Definition extends (r r' : Room.t) : Prop :=
  (exists more, Room.messages r' = (Room.messages r ++ more)%list)
  /\ (exists more,
        PlaybackState.playlist (Room.playbackState r')
        = (PlaybackState.playlist (Room.playbackState r) ++ more)%list).

(** Every room that is in both tables has only grown. *)
Definition only_grows (rooms rooms' : Rooms) : Prop :=
  forall roomId r r',
    JsMap.get roomId rooms = Some r ->
    JsMap.get roomId rooms' = Some r' ->
    extends r r'.

(** ** Sample data *)

Module Sample.

Definition alice : JoinUser.t := JoinUser.mk "user_alice" "Alice" None.
Definition bob : JoinUser.t := JoinUser.mk "user_bob" "Bob" (Some true).
Definition carol : JoinUser.t := JoinUser.mk "user_carol" "Carol" (Some false).

(** Alice, sending [isAdmin: true] as the creator's client does. *)
Definition alice_admin : JoinUser.t :=
  JoinUser.mk "user_alice" "Alice" (Some true).

Definition track : NewSong.t :=
  NewSong.mk "T" (Some "artist") 180%Q "https://example.org/t" "Alice".

(** Alice creates the room, Bob joins it sending [isAdmin: true]. *)
Definition two_admins : list (Z * Server.Request) :=
  [ (1000, Server.JoinRoom "s1" "ABC123" alice);
    (2000, Server.JoinRoom "s2" "ABC123" bob) ].

(** Alice, sending [isAdmin: false] as the room page does. *)
Definition alice_guest : JoinUser.t :=
  JoinUser.mk "user_alice" "Alice" (Some false).

(** Alice creates the room, Carol joins. *)
Definition two_members : list (Z * Server.Request) :=
  [ (1000, Server.JoinRoom "s1" "ABC123" alice);
    (2000, Server.JoinRoom "s2" "ABC123" carol) ].

(** Alice creates the room, Carol joins, Alice reconnects on a new socket
    with [isAdmin: true]. *)
Definition admin_reconnects : list (Z * Server.Request) :=
  [ (1000, Server.JoinRoom "s1" "ABC123" alice);
    (2000, Server.JoinRoom "s2" "ABC123" carol);
    (3000, Server.JoinRoom "s3" "ABC123" alice_admin) ].

(** Alice creates the room, Carol joins, Alice reconnects on a new socket
    without [isAdmin]. *)
Definition plain_reconnect : list (Z * Server.Request) :=
  [ (1000, Server.JoinRoom "s1" "ABC123" alice);
    (2000, Server.JoinRoom "s2" "ABC123" carol);
    (3000, Server.JoinRoom "s3" "ABC123" alice) ].

(** Alice creates the room and adds one track. *)
Definition one_track : list (Z * Server.Request) :=
  [ (1000, Server.JoinRoom "s1" "ABC123" alice);
    (2000, Server.AddSong "s1" "ABC123" track) ].

(** Alice plays from the start and pauses 42 seconds later. *)
Definition paused_at_42 : list (Z * Server.Request) :=
  [ (1000, Server.JoinRoom "s1" "ABC123" alice);
    (2000, Server.PlaybackControl "s1" "ABC123" (Play None));
    (44000, Server.PlaybackControl "s1" "ABC123" Pause) ].

(** Alice creates the room and removes herself from it. *)
Definition self_kick : list (Z * Server.Request) :=
  [ (1000, Server.JoinRoom "s1" "ABC123" alice);
    (1500, Server.UserAction "s1" "ABC123" (KickUser (Some "user_alice"))) ].

(** The end-to-end scenario: A joins, B joins, A plays from 0 and adds a
    track. *)
Definition scenario : list (Z * Server.Request) :=
  [ (1000, Server.JoinRoom "s1" "ABC123" alice);
    (2000, Server.JoinRoom "s2" "ABC123" carol);
    (3000, Server.PlaybackControl "s1" "ABC123" (Play (Some 0%Q)));
    (3500, Server.AddSong "s1" "ABC123" track) ].

(** A connected, playing listener whose player is playing. *)
Definition listening : Player.Props :=
  Player.mkProps true true false false true true false 1%Q.

(** The player is at [t] seconds, the room at [synced], the clock at [now]. *)
Definition probe (t synced : Q) (now : Z) : Player.Probe :=
  Player.mkProbe true (Some t) true true true synced now.

Definition fresh_refs : Player.Refs := Player.mkRefs 0 0 false true.

(** The player is 6 s behind at 20 s and is corrected; it restarts playing
    and its timer fires at 24 s; at 40 s it is 6 s behind again. *)
Definition drifting : list Player.Step :=
  [ Player.Poll listening (probe 10%Q 16%Q 20000);
    Player.SeekSettled;
    Player.PlayingSettled 24000;
    Player.Poll listening (probe 30%Q 36%Q 40000) ].


End Sample.

(** * Properties *)

(** ** Facts about [JsMap] *)

Module JsMapFacts.

Section Facts.
Context {V : Type}.
Implicit Types (m : JsMap.t V) (k : string) (v : V).

Lemma get_set_same k v m : JsMap.get k (JsMap.set k v m) = Some v.
Proof.
  induction m as [|[k' v'] m IH]; simpl.
  - now rewrite String.eqb_refl.
  - destruct (String.eqb k' k) eqn:E; simpl.
    + now rewrite String.eqb_refl.
    + now rewrite E.
Qed.

Lemma set_get_id k v m : JsMap.get k m = Some v -> JsMap.set k v m = m.
Proof.
  induction m as [|[k' v'] m IH]; simpl; [discriminate|].
  destruct (String.eqb k' k) eqn:E; intros H.
  - apply String.eqb_eq in E. congruence.
  - f_equal. auto.
Qed.

Lemma delete_set_same k v m :
  JsMap.delete k (JsMap.set k v m) = JsMap.delete k m.
Proof.
  induction m as [|[k' v'] m IH]; simpl.
  - now rewrite String.eqb_refl.
  - destruct (String.eqb k' k) eqn:E; simpl.
    + now rewrite String.eqb_refl.
    + rewrite E. now f_equal.
Qed.

Lemma get_In k v m : JsMap.get k m = Some v -> In (k, v) m.
Proof.
  induction m as [|[k' v'] m IH]; simpl; [discriminate|].
  destruct (String.eqb k' k) eqn:E; intros H.
  - apply String.eqb_eq in E. left. congruence.
  - right. auto.
Qed.

Lemma In_set e k v m : In e (JsMap.set k v m) -> e = (k, v) \/ In e m.
Proof.
  induction m as [|[k' v'] m IH]; simpl.
  - intros [H|[]]; auto.
  - destruct (String.eqb k' k); simpl; intros [H|H]; auto.
    destruct (IH H); auto.
Qed.

Lemma In_delete e k m : In e (JsMap.delete k m) -> In e m.
Proof.
  induction m as [|[k' v'] m IH]; simpl; auto.
  destruct (String.eqb k' k); simpl; intros H; auto.
  destruct H; auto.
Qed.

Lemma size_delete_le k m : (JsMap.size (JsMap.delete k m) <= JsMap.size m)%nat.
Proof.
  unfold JsMap.size.
  induction m as [|[k' v'] m IH]; simpl; auto.
  destruct (String.eqb k' k); simpl; lia.
Qed.

Lemma size_delete_get k v m :
  JsMap.get k m = Some v -> S (JsMap.size (JsMap.delete k m)) = JsMap.size m.
Proof.
  unfold JsMap.size.
  induction m as [|[k' v'] m IH]; simpl; [discriminate|].
  destruct (String.eqb k' k); simpl; intros H; auto.
Qed.

Lemma size_set k v m :
  JsMap.size (JsMap.set k v m) = S (JsMap.size (JsMap.delete k m)).
Proof.
  unfold JsMap.size.
  induction m as [|[k' v'] m IH]; simpl; auto.
  destruct (String.eqb k' k); simpl; auto.
Qed.

Lemma find_key_get f m k :
  JsMap.find_key f m = Some k -> exists v, JsMap.get k m = Some v.
Proof.
  induction m as [|[k' v'] m IH]; simpl; [discriminate|].
  destruct (f v').
  - intros H. injection H as ->. rewrite String.eqb_refl. eauto.
  - intros H. destruct (String.eqb k' k); eauto.
Qed.

Lemma find_key_none f m :
  JsMap.find_key f m = None -> forall k v, In (k, v) m -> f v = false.
Proof.
  induction m as [|[k' v'] m IH]; simpl; [contradiction|].
  destruct (f v') eqn:E; [discriminate|].
  intros H k v [Hin|Hin]; [congruence|eauto].
Qed.

Lemma find_key_some f m k :
  JsMap.find_key f m = Some k -> exists v, In (k, v) m /\ f v = true.
Proof.
  induction m as [|[k' v'] m IH]; simpl; [discriminate|].
  destruct (f v') eqn:E.
  - intros H. injection H as ->. eauto.
  - intros H. destruct (IH H) as (v & Hin & Hf). eauto.
Qed.

End Facts.

End JsMapFacts.

(** ** Counting admins *)

Section AdminCount.
Implicit Types (m : JsMap.t Participant.t) (p : Participant.t).

Lemma admin_count_set k p m :
  admin_count (JsMap.set k p m)
  = (b2n (Participant.isAdmin p) + admin_count (JsMap.delete k m))%nat.
Proof.
  unfold admin_count.
  induction m as [|[k' p'] m IH]; simpl; auto.
  destruct (String.eqb k' k); simpl; auto.
  rewrite IH. lia.
Qed.

Lemma admin_count_get k p m :
  JsMap.get k m = Some p ->
  admin_count m
  = (b2n (Participant.isAdmin p) + admin_count (JsMap.delete k m))%nat.
Proof.
  unfold admin_count.
  induction m as [|[k' p'] m IH]; simpl; [discriminate|].
  destruct (String.eqb k' k); simpl; intros H.
  - congruence.
  - rewrite (IH H). lia.
Qed.

Lemma admin_count_delete_le k m :
  (admin_count (JsMap.delete k m) <= admin_count m)%nat.
Proof.
  unfold admin_count.
  induction m as [|[k' p'] m IH]; simpl; auto.
  destruct (String.eqb k' k); simpl; lia.
Qed.

Lemma admin_count_remove_old socketId userId m :
  (admin_count (Server.remove_old_connection socketId userId m)
   <= admin_count m)%nat.
Proof.
  unfold Server.remove_old_connection.
  destruct (JsMap.find_key _ m); auto.
  destruct (_ && _); auto using admin_count_delete_le.
Qed.

Lemma admin_count_empty m : JsMap.size m = 0%nat -> admin_count m = 0%nat.
Proof. destruct m; simpl; [reflexivity|discriminate]. Qed.

End AdminCount.

(** ** The admin slot of a room (stand-alone server) *)

Section SingleAdmin.
Import JsMapFacts.

Lemma single_admin_set roomId room rooms :
  single_admin rooms ->
  (admin_count (Room.participants room) <= 1)%nat ->
  single_admin (JsMap.set roomId room rooms).
Proof.
  intros H Hr id r Hin.
  apply In_set in Hin as [E|Hin]; [|eauto].
  injection E as -> ->. exact Hr.
Qed.

Lemma single_admin_delete roomId rooms :
  single_admin rooms -> single_admin (JsMap.delete roomId rooms).
Proof. intros H id r Hin. apply In_delete in Hin. eauto. Qed.

Lemma single_admin_get roomId room rooms :
  single_admin rooms -> JsMap.get roomId rooms = Some room ->
  (admin_count (Room.participants room) <= 1)%nat.
Proof. intros H Hg. apply get_In in Hg. eauto. Qed.

Lemma joining_slot_count socketId user parts :
  (admin_count parts <= 1)%nat ->
  (JoinUser.isAdmin user = Some true ->
   admin_count (JsMap.delete socketId parts) = 0%nat) ->
  (b2n (Server.joining_isAdmin parts user)
   + admin_count (JsMap.delete socketId parts) <= 1)%nat.
Proof.
  intros Hle Hguard.
  pose proof (admin_count_delete_le socketId parts) as H2.
  unfold Server.joining_isAdmin.
  destruct (Nat.eqb (JsMap.size parts) 0) eqn:E.
  - apply Nat.eqb_eq in E. destruct parts; [|discriminate].
    unfold admin_count. simpl. lia.
  - destruct (JoinUser.isAdmin user) as [[|]|]; simpl; try lia.
    rewrite Hguard by reflexivity. lia.
Qed.

Lemma join_room_single_admin socketId roomId user now rooms :
  single_admin rooms ->
  ServerProps.join_keeps_single_admin socketId roomId user rooms = true ->
  single_admin (fst (Server.join_room socketId roomId user now rooms)).
Proof.
  intros Inv Hok. unfold Server.join_room.
  destruct (_ || _); [exact Inv|].
  unfold ServerProps.join_keeps_single_admin in Hok.
  destruct (JsMap.get roomId rooms) as [room|] eqn:Hget.
  - destruct (_ >=? _); [exact Inv|]. simpl.
    apply single_admin_set; [exact Inv|]. simpl.
    rewrite admin_count_set.
    apply joining_slot_count.
    + pose proof (admin_count_remove_old socketId (JoinUser.id user)
                    (Room.participants room)).
      pose proof (single_admin_get _ _ _ Inv Hget). lia.
    + intros E. rewrite E in Hok. now apply Nat.eqb_eq in Hok.
  - assert (Inv1 : single_admin
                     (JsMap.set roomId (Server.newRoom roomId user now) rooms)).
    { apply single_admin_set; [exact Inv|]. unfold admin_count. simpl. lia. }
    destruct (_ >=? _); [exact Inv1|]. simpl.
    apply single_admin_set; [exact Inv1|]. unfold admin_count. simpl. lia.
Qed.

Lemma single_admin_update roomId room room' rooms :
  single_admin rooms ->
  JsMap.get roomId rooms = Some room ->
  Room.participants room' = Room.participants room ->
  single_admin (JsMap.set roomId room' rooms).
Proof.
  intros Inv Hget E. apply single_admin_set; [exact Inv|].
  rewrite E. eapply single_admin_get; eauto.
Qed.

Lemma disconnect_loop_single_admin socketId entries rooms :
  single_admin rooms ->
  (forall e, In e entries -> In e rooms) ->
  single_admin (fst (Server.disconnect_loop socketId entries rooms)).
Proof.
  intros Inv.
  induction entries as [|[roomId room] rest IH]; simpl; intros Hsub; [exact Inv|].
  destruct (JsMap.get socketId (Room.participants room)) as [user|].
  - assert (Inv1 : single_admin
      (JsMap.set roomId
         (Room.with_participants
            (JsMap.delete socketId (Room.participants room)) room) rooms)).
    { apply single_admin_set; [exact Inv|]. simpl.
      pose proof (admin_count_delete_le socketId (Room.participants room)).
      pose proof (Inv roomId room (Hsub _ (or_introl eq_refl))). lia. }
    simpl. destruct (Nat.eqb _ 0); auto using single_admin_delete.
  - apply IH. intros e He. apply Hsub. now right.
Qed.

Lemma kick_user_single_admin roomId room adminUser target rooms :
  single_admin rooms ->
  JsMap.get roomId rooms = Some room ->
  single_admin (fst (kick_user roomId room adminUser target rooms)).
Proof.
  intros Inv Hget. unfold kick_user.
  destruct (truthy_target target); [|exact Inv].
  destruct (JsMap.find_key _ _) as [targetSocket|]; [|exact Inv].
  destruct (truthy_string targetSocket); [|exact Inv].
  destruct (JsMap.get targetSocket _); [|exact Inv].
  simpl. apply single_admin_set; [exact Inv|]. simpl.
  pose proof (admin_count_delete_le targetSocket (Room.participants room)).
  pose proof (single_admin_get _ _ _ Inv Hget). lia.
Qed.

(** After the two assignments of a transfer exactly one slot is admin. *)
Lemma transfer_slots socketId targetSocket adminUser targetUser parts :
  (admin_count parts <= 1)%nat ->
  JsMap.get socketId parts = Some adminUser ->
  Participant.isAdmin adminUser = true ->
  let parts1 :=
    JsMap.set socketId (Participant.with_isAdmin false adminUser) parts in
  admin_count
    (JsMap.set targetSocket (Participant.with_isAdmin true targetUser) parts1)
  = 1%nat.
Proof.
  intros Hle Hget Hadm parts1.
  rewrite admin_count_set. simpl.
  pose proof (admin_count_delete_le targetSocket parts1) as H1.
  assert (H2 : admin_count parts1 = 0%nat).
  { subst parts1. rewrite admin_count_set. simpl.
    rewrite (admin_count_get _ _ _ Hget), Hadm in Hle. simpl in Hle. lia. }
  lia.
Qed.

Lemma transfer_admin_single_admin socketId roomId room adminUser target rooms :
  single_admin rooms ->
  JsMap.get roomId rooms = Some room ->
  JsMap.get socketId (Room.participants room) = Some adminUser ->
  Participant.isAdmin adminUser = true ->
  single_admin
    (fst (transfer_admin socketId roomId room adminUser target rooms))
  /\ (forall roster,
        In roster
          (transferred_rosters
             (snd (transfer_admin socketId roomId room adminUser target rooms)))
        -> roster_admins roster = 1%nat).
Proof.
  intros Inv Hget Hslot Hadm. unfold transfer_admin.
  destruct (truthy_target target); [|split; [exact Inv|contradiction]].
  destruct (JsMap.find_key _ _) as [targetSocket|];
    [|split; [exact Inv|contradiction]].
  destruct (truthy_string targetSocket); [|split; [exact Inv|contradiction]].
  destruct (JsMap.get targetSocket _) as [targetUser|];
    [|split; [exact Inv|contradiction]].
  pose proof (transfer_slots socketId targetSocket adminUser targetUser
                (Room.participants room)
                (single_admin_get _ _ _ Inv Hget) Hslot Hadm) as H1.
  simpl in H1. simpl. split.
  - apply single_admin_set; [exact Inv|]. simpl. rewrite H1. lia.
  - intros roster [<-|[]]. exact H1.
Qed.

Lemma user_switch_single_admin socketId roomId room adminUser action rooms :
  single_admin rooms ->
  JsMap.get roomId rooms = Some room ->
  JsMap.get socketId (Room.participants room) = Some adminUser ->
  Participant.isAdmin adminUser = true ->
  single_admin (fst (user_switch socketId roomId room adminUser action rooms)).
Proof.
  intros Inv Hget Hslot Hadm.
  destruct action as [t|t|[p|]|a]; simpl; auto.
  - now apply kick_user_single_admin.
  - now apply transfer_admin_single_admin.
  - eapply single_admin_update; eauto.
Qed.

Lemma handle_single_admin now req rooms :
  single_admin rooms ->
  ServerProps.request_ok req rooms = true ->
  single_admin (fst (Server.handle now req rooms)).
Proof.
  intros Inv Hok. destruct req; simpl.
  - now apply join_room_single_admin.
  - unfold Server.request_sync.
    destruct (JsMap.get roomId rooms); exact Inv.
  - apply disconnect_loop_single_admin; auto.
  - unfold Server.send_message.
    destruct (JsMap.get roomId rooms) as [room|] eqn:Hget; [|exact Inv].
    destruct (JsMap.has _ _); [|exact Inv].
    simpl. eapply single_admin_update; eauto.
  - unfold Server.add_song.
    destruct (JsMap.get roomId rooms) as [room|] eqn:Hget; [|exact Inv].
    destruct (JsMap.has _ _); [|exact Inv].
    destruct (Room.playbackState room).
    simpl. eapply single_admin_update; eauto.
  - unfold Server.playback_control.
    destruct (JsMap.get roomId rooms) as [room|] eqn:Hget; [|exact Inv].
    destruct (JsMap.get socketId _); [|exact Inv].
    destruct (_ && _); [exact Inv|].
    simpl. eapply single_admin_update; eauto.
  - unfold Server.user_action.
    destruct (JsMap.get roomId rooms) as [room|] eqn:Hget; [|exact Inv].
    destruct (JsMap.get socketId _) as [adminUser|] eqn:Hslot; [|exact Inv].
    destruct (Participant.isAdmin adminUser) eqn:Hadm; simpl; [|exact Inv].
    now apply user_switch_single_admin.
  - unfold Server.close_room.
    destruct (JsMap.get roomId rooms) as [room|]; [|exact Inv].
    destruct (JsMap.get socketId _) as [user|]; [|exact Inv].
    destruct (negb _); [exact Inv|].
    simpl. now apply single_admin_delete.
Qed.

Lemma run_fst now req rest rooms :
  fst (Server.run ((now, req) :: rest) rooms)
  = fst (Server.run rest (fst (Server.handle now req rooms))).
Proof.
  simpl. destruct (Server.handle now req rooms) as [rooms1 out].
  simpl. now destruct (Server.run rest rooms1).
Qed.

Lemma run_single_admin reqs : forall rooms,
  single_admin rooms ->
  ServerProps.admin_claims_ok reqs rooms = true ->
  single_admin (fst (Server.run reqs rooms)).
Proof.
  induction reqs as [|[now req] rest IH]; intros rooms Inv Hok; [exact Inv|].
  rewrite run_fst. simpl in Hok. apply andb_true_iff in Hok as [H1 H2].
  apply IH; [|exact H2]. now apply handle_single_admin.
Qed.

End SingleAdmin.

(** *** Rosters sent to clients are rosters of the state reached *)

Section Rosters.
Import JsMapFacts.

Lemma rosters_app out1 out2 :
  rosters (out1 ++ out2) = (rosters out1 ++ rosters out2)%list.
Proof.
  induction out1 as [|e out1 IH]; simpl; [reflexivity|].
  destruct e as [to m| | | |]; try exact IH.
  destruct m; simpl; now rewrite ?IH.
Qed.

Lemma roster_of_set roomId room rooms roster :
  roster = JsMap.values (Room.participants room) ->
  roster_of_state (JsMap.set roomId room rooms) roster.
Proof.
  intros ->. right. exists roomId, room. split; [|reflexivity].
  apply get_In, get_set_same.
Qed.

Lemma join_room_rosters socketId roomId user now rooms roster :
  In roster (rosters (snd (Server.join_room socketId roomId user now rooms))) ->
  roster_of_state (fst (Server.join_room socketId roomId user now rooms))
    roster.
Proof.
  unfold Server.join_room.
  destruct (_ || _); [intros []|].
  destruct (JsMap.get roomId rooms) as [room|].
  - destruct (_ >=? _); [intros []|]. simpl.
    destruct (Nat.ltb 1 _); simpl.
    + intros [<-|[<-|[]]]; apply roster_of_set; reflexivity.
    + intros [<-|[]]; apply roster_of_set; reflexivity.
  - destruct (_ >=? _); [intros []|]. simpl.
    intros [<-|[]]; apply roster_of_set; reflexivity.
Qed.

Lemma disconnect_loop_rosters socketId entries rooms roster :
  In roster (rosters (snd (Server.disconnect_loop socketId entries rooms))) ->
  roster_of_state (fst (Server.disconnect_loop socketId entries rooms)) roster.
Proof.
  induction entries as [|[roomId room] rest IH]; simpl; [intros []|].
  destruct (JsMap.get socketId (Room.participants room)) as [user|];
    [|exact IH].
  simpl. intros [<-|[]].
  destruct (Nat.eqb _ 0) eqn:E.
  - left. apply Nat.eqb_eq in E.
    now destruct (JsMap.delete socketId (Room.participants room)).
  - apply roster_of_set; reflexivity.
Qed.

Lemma user_switch_rosters socketId roomId room adminUser action rooms roster :
  In roster
    (rosters (snd (user_switch socketId roomId room adminUser action rooms))) ->
  roster_of_state
    (fst (user_switch socketId roomId room adminUser action rooms)) roster.
Proof.
  destruct action as [t|t|[p|]|a]; simpl; try (intros []; fail).
  - unfold kick_user.
    destruct (truthy_target t); [|intros []].
    destruct (JsMap.find_key _ _) as [k|]; [|intros []].
    destruct (truthy_string k); [|intros []].
    destruct (JsMap.get k _); [|intros []].
    simpl. intros [<-|[]].
    apply roster_of_set; reflexivity.
  - unfold transfer_admin.
    destruct (truthy_target t); [|intros []].
    destruct (JsMap.find_key _ _) as [k|]; [|intros []].
    destruct (truthy_string k); [|intros []].
    destruct (JsMap.get k _); [|intros []].
    simpl. intros [<-|[]].
    apply roster_of_set; reflexivity.
Qed.

Lemma handle_rosters now req rooms roster :
  In roster (rosters (snd (Server.handle now req rooms))) ->
  roster_of_state (fst (Server.handle now req rooms)) roster.
Proof.
  destruct req; simpl.
  - apply join_room_rosters.
  - unfold Server.request_sync.
    destruct (JsMap.get roomId rooms); intros [].
  - apply disconnect_loop_rosters.
  - unfold Server.send_message.
    destruct (JsMap.get roomId rooms); [|intros []].
    destruct (JsMap.has _ _); intros [].
  - unfold Server.add_song.
    destruct (JsMap.get roomId rooms) as [room|]; [|intros []].
    destruct (JsMap.has _ _); [|intros []].
    destruct (Room.playbackState room). intros [].
  - unfold Server.playback_control.
    destruct (JsMap.get roomId rooms); [|intros []].
    destruct (JsMap.get socketId _); [|intros []].
    destruct (_ && _); intros [].
  - unfold Server.user_action.
    destruct (JsMap.get roomId rooms); [|intros []].
    destruct (JsMap.get socketId _); [|intros []].
    destruct (negb _); [intros []|].
    apply user_switch_rosters.
  - unfold Server.close_room.
    destruct (JsMap.get roomId rooms); [|intros []].
    destruct (JsMap.get socketId _); [|intros []].
    destruct (negb _); intros [].
Qed.

Lemma run_snd now req rest rooms :
  snd (Server.run ((now, req) :: rest) rooms)
  = (snd (Server.handle now req rooms)
     ++ snd (Server.run rest (fst (Server.handle now req rooms))))%list.
Proof.
  simpl. destruct (Server.handle now req rooms) as [rooms1 out].
  simpl. now destruct (Server.run rest rooms1).
Qed.

Lemma run_rosters_single_admin reqs : forall rooms roster,
  single_admin rooms ->
  ServerProps.admin_claims_ok reqs rooms = true ->
  In roster (rosters (snd (Server.run reqs rooms))) ->
  (roster_admins roster <= 1)%nat.
Proof.
  induction reqs as [|[now req] rest IH]; intros rooms roster Inv Hok;
    [intros []|].
  simpl in Hok. apply andb_true_iff in Hok as [H1 H2].
  pose proof (handle_single_admin now req rooms Inv H1) as Inv1.
  rewrite run_snd, rosters_app, in_app_iff. intros [Hin|Hin].
  - apply handle_rosters in Hin as [->|(id & r & Hr & ->)]; [simpl; lia|].
    exact (Inv1 _ _ Hr).
  - eapply IH; eauto.
Qed.

End Rosters.

(** C1, as amended.  In the stand-alone server, from the empty room table
    and along any sequence of requests (join, disconnect, kick, transfer
    and all the others) in which a join sends [isAdmin: true] only when no
    slot other than those it replaces holds admin: every room of the state
    reached has at most one admin slot; every roster sent to a client
    along the way has at most one admin; and a transfer-admin handled next
    announces a roster with exactly one admin, so the two writes of the
    transfer are never observed apart. *)
Theorem single_admin_reachable (reqs : list (Z * Server.Request)) :
  ServerProps.admin_claims_ok reqs [] = true ->
  single_admin (fst (Server.run reqs []))
  /\ (forall roster,
        In roster (rosters (snd (Server.run reqs []))) ->
        (roster_admins roster <= 1)%nat)
  /\ (forall socketId roomId target roster,
        In roster
          (transferred_rosters
             (snd (Server.user_action socketId roomId (TransferAdmin target)
                     (fst (Server.run reqs [])))))
        -> roster_admins roster = 1%nat).
Proof.
  intros Hok.
  assert (Inv0 : single_admin []) by (intros ? ? []).
  assert (Inv : single_admin (fst (Server.run reqs [])))
    by (now apply run_single_admin).
  split; [exact Inv|]. split.
  - intros roster. now apply run_rosters_single_admin.
  - intros socketId roomId target roster. unfold Server.user_action.
    destruct (JsMap.get roomId _) as [room|] eqn:Hget; [|contradiction].
    destruct (JsMap.get socketId _) as [adminUser|] eqn:Hslot;
      [|contradiction].
    destruct (Participant.isAdmin adminUser) eqn:Hadm; simpl; [|contradiction].
    now apply transfer_admin_single_admin.
Qed.

Lemma single_admin_reachable_witness :
  single_admin (fst (Server.run Sample.admin_reconnects []))
  /\ (forall roster,
        In roster (rosters (snd (Server.run Sample.admin_reconnects []))) ->
        (roster_admins roster <= 1)%nat)
  /\ (forall socketId roomId target roster,
        In roster
          (transferred_rosters
             (snd (Server.user_action socketId roomId (TransferAdmin target)
                     (fst (Server.run Sample.admin_reconnects [])))))
        -> roster_admins roster = 1%nat).
Proof.
  apply (single_admin_reachable Sample.admin_reconnects).
  vm_compute. reflexivity.
Defined.

(** C1 as stated fails: a second participant who joins with
    [isAdmin: true] is given admin next to the first one. *)
Lemma two_admins_after_join :
  ~ single_admin (fst (Server.run Sample.two_admins [])).
Proof.
  intros H.
  assert (Hin : exists room,
             In ("ABC123", room) (fst (Server.run Sample.two_admins []))
             /\ admin_count (Room.participants room) = 2%nat).
  { eexists. split; [vm_compute; left; reflexivity|reflexivity]. }
  destruct Hin as (room & Hin & Hc).
  specialize (H _ _ Hin). lia.
Qed.

(** ** Playback control at the ends of the playlist *)

Lemma with_playbackState_same room :
  Room.with_playbackState (Room.playbackState room) room = room.
Proof. now destruct room. Qed.

Lemma playback_switch_boundary now action s :
  at_boundary action s -> playback_switch now action s = s.
Proof.
  destruct s as [song playing ct vol pl idx sst pst lst].
  intros [[-> E]|[-> E]]; simpl in *.
  - replace (idx <? Z.of_nat (List.length pl) - 1) with false; [reflexivity|].
    symmetry. apply Z.ltb_ge. lia.
  - subst idx. reflexivity.
Qed.

(** C2, as amended.  In both servers, [next] at the last playlist index
    and [previous] at index 0, sent by a participant allowed to control
    playback, leave the whole room table unchanged; the handler still
    broadcasts [playback-state-changed] to the room, carrying the unchanged
    playback state and the server time, and does nothing else. *)
Theorem boundary_step_keeps_state_and_broadcasts
    (socketId roomId : string) (action : Control) (now : Z) (rooms : Rooms)
    (room : Room.t) (user : Participant.t) :
  JsMap.get roomId rooms = Some room ->
  JsMap.get socketId (Room.participants room) = Some user ->
  may_control user room = true ->
  at_boundary action (Room.playbackState room) ->
  Server.playback_control socketId roomId action now rooms
  = (rooms,
     [Emit (IoTo roomId) (PlaybackStateChanged (Room.playbackState room) now)])
  /\ Manager.playback_control socketId roomId action now rooms
     = (rooms,
        [Emit (IoTo roomId)
           (PlaybackStateChanged (Room.playbackState room) now)]).
Proof.
  intros Hget Hslot Hmay Hb.
  unfold may_control in Hmay. apply orb_true_iff in Hmay.
  assert (Hden : negb (Participant.isAdmin user)
                 && negb (RoomSettings.allowGuestControl (Room.settings room))
                 = false).
  { destruct Hmay as [-> | ->]; simpl; auto using andb_false_r. }
  unfold Server.playback_control, Manager.playback_control.
  rewrite Hget, Hslot. simpl. rewrite Hden.
  rewrite (playback_switch_boundary now action _ Hb).
  rewrite with_playbackState_same.
  rewrite (JsMapFacts.set_get_id _ _ _ Hget).
  split; [reflexivity|].
  destruct Hb as [[-> _]|[-> _]];
    now rewrite (JsMapFacts.set_get_id _ _ _ Hget).
Qed.

Lemma boundary_step_keeps_state_and_broadcasts_witness :
  let rooms := fst (Server.run Sample.one_track []) in
  exists s,
    ServerProps.playback_of "ABC123" rooms = Some s
    /\ Server.playback_control "s1" "ABC123" Next 9000 rooms
       = (rooms, [Emit (IoTo "ABC123") (PlaybackStateChanged s 9000)])
    /\ Manager.playback_control "s1" "ABC123" Previous 9000 rooms
       = (rooms, [Emit (IoTo "ABC123") (PlaybackStateChanged s 9000)]).
Proof.
  intros rooms.
  destruct (JsMap.get "ABC123" rooms) as [room|] eqn:Hget;
    [|vm_compute in Hget; discriminate].
  destruct (JsMap.get "s1" (Room.participants room)) as [user|] eqn:Hslot;
    [|vm_compute in Hget; injection Hget as <-; vm_compute in Hslot;
      discriminate].
  exists (Room.playbackState room).
  assert (Hmay : may_control user room = true).
  { vm_compute in Hget. injection Hget as <-.
    vm_compute in Hslot. injection Hslot as <-. reflexivity. }
  assert (Hn : at_boundary Next (Room.playbackState room)).
  { vm_compute in Hget. injection Hget as <-. left. split; reflexivity. }
  assert (Hp : at_boundary Previous (Room.playbackState room)).
  { vm_compute in Hget. injection Hget as <-. right. split; reflexivity. }
  split; [unfold ServerProps.playback_of; now rewrite Hget|].
  split.
  - exact (proj1 (boundary_step_keeps_state_and_broadcasts
                    "s1" "ABC123" Next 9000 rooms room user
                    Hget Hslot Hmay Hn)).
  - exact (proj2 (boundary_step_keeps_state_and_broadcasts
                    "s1" "ABC123" Previous 9000 rooms room user
                    Hget Hslot Hmay Hp)).
Defined.

(** C2 as stated fails: [next] at the last index is broadcast. *)
Lemma next_at_last_index_is_broadcast :
  let rooms := fst (Server.run Sample.one_track []) in
  (exists room user,
      JsMap.get "ABC123" rooms = Some room
      /\ JsMap.get "s1" (Room.participants room) = Some user
      /\ may_control user room = true
      /\ at_boundary Next (Room.playbackState room))
  /\ ~ silent rooms (Server.playback_control "s1" "ABC123" Next 9000 rooms)
  /\ ~ silent rooms (Manager.playback_control "s1" "ABC123" Next 9000 rooms).
Proof.
  split; [|split].
  - do 2 eexists. split; [vm_compute; reflexivity|].
    split; [vm_compute; reflexivity|].
    split; [reflexivity|]. left. split; reflexivity.
  - unfold silent. vm_compute. discriminate.
  - unfold silent. vm_compute. discriminate.
Qed.

(** ** Rejections *)

(** C7.  In both servers a [playback-control] request from a participant
    whose slot has [isAdmin = false], in a room whose
    [settings.allowGuestControl] is false, leaves the whole room table
    unchanged, and its only effect is one [permission-denied] event sent by
    [socket.emit], that is to the requesting connection alone. *)
Theorem guest_control_denied
    (socketId roomId : string) (action : Control) (now : Z) (rooms : Rooms)
    (room : Room.t) (user : Participant.t) :
  JsMap.get roomId rooms = Some room ->
  JsMap.get socketId (Room.participants room) = Some user ->
  Participant.isAdmin user = false ->
  RoomSettings.allowGuestControl (Room.settings room) = false ->
  Server.playback_control socketId roomId action now rooms
  = (rooms,
     [Emit (SocketEmit socketId)
        (PermissionDenied "Only admins can control playback")])
  /\ Manager.playback_control socketId roomId action now rooms
     = (rooms,
        [Emit (SocketEmit socketId)
           (PermissionDenied "Only admins can control playback")]).
Proof.
  intros Hget Hslot Hadm Hguest.
  unfold Server.playback_control, Manager.playback_control.
  rewrite Hget, Hslot. simpl. rewrite Hadm, Hguest. simpl. auto.
Qed.

Lemma guest_control_denied_witness :
  let rooms := fst (Server.run Sample.plain_reconnect []) in
  Server.playback_control "s2" "ABC123" (Seek 12%Q) 5000 rooms
  = (rooms,
     [Emit (SocketEmit "s2")
        (PermissionDenied "Only admins can control playback")])
  /\ Manager.playback_control "s2" "ABC123" (Seek 12%Q) 5000 rooms
     = (rooms,
        [Emit (SocketEmit "s2")
           (PermissionDenied "Only admins can control playback")]).
Proof.
  intros rooms.
  refine (guest_control_denied "s2" "ABC123" (Seek 12%Q) 5000 rooms _ _
            _ _ _ _).
  - vm_compute. reflexivity.
  - vm_compute. reflexivity.
  - reflexivity.
  - reflexivity.
Defined.

Lemma absent_find_key userId parts :
  absent userId parts -> JsMap.find_key (has_id userId) parts = None.
Proof.
  intros Habs.
  destruct (JsMap.find_key (has_id userId) parts) as [k|] eqn:E; [|reflexivity].
  apply JsMapFacts.find_key_some in E as (p & Hin & Hid).
  unfold has_id in Hid. apply String.eqb_eq in Hid.
  now destruct (Habs _ _ Hin).
Qed.

(** C9, as amended.  In both servers a kick or a transfer-admin sent by
    the admin and naming an identifier that no slot of the room carries is
    ignored in silence: the room table is unchanged and no event is sent,
    neither to the caller nor to anybody else. *)
Theorem vanished_target_ignored
    (socketId roomId targetUserId : string) (rooms : Rooms)
    (room : Room.t) (adminUser : Participant.t) :
  JsMap.get roomId rooms = Some room ->
  JsMap.get socketId (Room.participants room) = Some adminUser ->
  Participant.isAdmin adminUser = true ->
  absent targetUserId (Room.participants room) ->
  silent rooms
    (Server.user_action socketId roomId (KickUser (Some targetUserId)) rooms)
  /\ silent rooms
       (Server.user_action socketId roomId
          (TransferAdmin (Some targetUserId)) rooms)
  /\ silent rooms
       (Manager.user_action socketId roomId
          (KickUser (Some targetUserId)) rooms)
  /\ silent rooms
       (Manager.user_action socketId roomId
          (TransferAdmin (Some targetUserId)) rooms).
Proof.
  intros Hget Hslot Hadm Habs.
  apply absent_find_key in Habs.
  unfold silent, Server.user_action, Manager.user_action.
  rewrite Hget, Hslot, Hadm. simpl.
  unfold kick_user, transfer_admin.
  destruct (truthy_target (Some targetUserId)) as [t|] eqn:Ht; [|auto].
  simpl in Ht. destruct (truthy_string targetUserId); [|discriminate].
  injection Ht as <-. rewrite Habs. auto.
Qed.

Lemma vanished_target_ignored_witness :
  let rooms := fst (Server.run Sample.admin_reconnects []) in
  silent rooms
    (Server.user_action "s3" "ABC123" (KickUser (Some "user_bob")) rooms)
  /\ silent rooms
       (Server.user_action "s3" "ABC123"
          (TransferAdmin (Some "user_bob")) rooms)
  /\ silent rooms
       (Manager.user_action "s3" "ABC123" (KickUser (Some "user_bob")) rooms)
  /\ silent rooms
       (Manager.user_action "s3" "ABC123"
          (TransferAdmin (Some "user_bob")) rooms).
Proof.
  intros rooms.
  refine (vanished_target_ignored "s3" "ABC123" "user_bob" rooms _ _ _ _ _ _).
  - vm_compute. reflexivity.
  - vm_compute. reflexivity.
  - reflexivity.
  - intros k p Hin. vm_compute in Hin.
    destruct Hin as [E|[E|[]]]; injection E as _ <-; discriminate.
Defined.

(** C9 as stated fails: nothing at all is sent when the admin names a
    participant who is not in the room. *)
Lemma vanished_target_not_reported :
  let rooms := fst (Server.run Sample.admin_reconnects []) in
  (exists room adminUser,
      JsMap.get "ABC123" rooms = Some room
      /\ JsMap.get "s3" (Room.participants room) = Some adminUser
      /\ Participant.isAdmin adminUser = true
      /\ JsMap.find_key (has_id "user_bob") (Room.participants room) = None)
  /\ ~ emits (snd (Server.user_action "s3" "ABC123"
                     (KickUser (Some "user_bob")) rooms))
  /\ ~ emits (snd (Server.user_action "s3" "ABC123"
                     (TransferAdmin (Some "user_bob")) rooms))
  /\ ~ emits (snd (Manager.user_action "s3" "ABC123"
                     (KickUser (Some "user_bob")) rooms))
  /\ ~ emits (snd (Manager.user_action "s3" "ABC123"
                     (TransferAdmin (Some "user_bob")) rooms)).
Proof.
  split.
  - do 2 eexists. repeat split; vm_compute; reflexivity.
  - repeat split; intros (to & m & Hin); vm_compute in Hin; exact Hin.
Qed.

(** ** Play and pause *)

Lemma truthy_Q_false q : truthy_Q q = false <-> (q == 0)%Q.
Proof.
  unfold truthy_Q, Qeq. simpl. rewrite negb_false_iff, Z.eqb_eq. lia.
Qed.

(** What [play] stores, case by case. *)
Lemma playback_switch_play now payload s :
  let s' := playback_switch now (Play payload) s in
  PlaybackState.isPlaying s' = true
  /\ PlaybackState.serverStartTime s' = Some now
  /\ PlaybackState.playbackStartTime s'
     = Some match payload with
            | Some q => if truthy_Q q then q else PlaybackState.currentTime s
            | None => PlaybackState.currentTime s
            end.
Proof. destruct s. simpl. auto. Qed.

(** A payload position equal to zero is taken for a missing one. *)
Lemma playback_switch_play_zero now q s :
  (q == 0)%Q ->
  PlaybackState.playbackStartTime (playback_switch now (Play (Some q)) s)
  = Some (PlaybackState.currentTime s).
Proof.
  intros Hq. apply truthy_Q_false in Hq.
  destruct s. simpl. now rewrite Hq.
Qed.

(** C3: the code at the failing input.  The room was paused at 42 seconds;
    [play] with [payload.currentTime = 0] sets [isPlaying] and anchors the
    server time at the call time, but anchors the position at the stored 42
    seconds and not at the 0 of the payload, in both servers. *)
Theorem play_from_zero_anchors_stored_position :
  let rooms := fst (Server.run Sample.paused_at_42 []) in
  let zero := Play (Some 0%Q) in
  (exists s,
      ServerProps.playback_of "ABC123" rooms = Some s
      /\ (PlaybackState.currentTime s == 42)%Q)
  /\ (exists s q,
        ServerProps.playback_of "ABC123"
          (fst (Server.playback_control "s1" "ABC123" zero 60000 rooms))
        = Some s
        /\ PlaybackState.isPlaying s = true
        /\ PlaybackState.serverStartTime s = Some 60000
        /\ PlaybackState.playbackStartTime s = Some q
        /\ (q == 42)%Q /\ ~ (q == 0)%Q)
  /\ (exists s q,
        ServerProps.playback_of "ABC123"
          (fst (Manager.playback_control "s1" "ABC123" zero 60000 rooms))
        = Some s
        /\ PlaybackState.isPlaying s = true
        /\ PlaybackState.serverStartTime s = Some 60000
        /\ PlaybackState.playbackStartTime s = Some q
        /\ (q == 42)%Q /\ ~ (q == 0)%Q).
Proof.
  intros rooms zero. split; [|split].
  - eexists. split; [vm_compute; reflexivity|]. vm_compute. reflexivity.
  - do 2 eexists. split; [vm_compute; reflexivity|].
    repeat split; try reflexivity. vm_compute. discriminate.
  - do 2 eexists. split; [vm_compute; reflexivity|].
    repeat split; try reflexivity. vm_compute. discriminate.
Qed.

Lemma pause_twice_position t1 t2 s :
  PlaybackState.currentTime
    (playback_switch t2 Pause (playback_switch t1 Pause s))
  = PlaybackState.currentTime (playback_switch t1 Pause s).
Proof. now destruct s. Qed.

Lemma stored_position_set roomId room rooms :
  stored_position roomId (JsMap.set roomId room rooms)
  = Some (PlaybackState.currentTime (Room.playbackState room)).
Proof.
  unfold stored_position. now rewrite JsMapFacts.get_set_same.
Qed.

Lemma server_control_result socketId roomId action now rooms :
  let after := fst (Server.playback_control socketId roomId action now rooms) in
  match JsMap.get roomId rooms with
  | Some room =>
      match JsMap.get socketId (Room.participants room) with
      | Some user =>
          if may_control user room
          then after
               = JsMap.set roomId
                   (Room.with_playbackState
                      (playback_switch now action (Room.playbackState room))
                      room) rooms
          else after = rooms
      | None => after = rooms
      end
  | None => after = rooms
  end.
Proof.
  unfold Server.playback_control, may_control.
  destruct (JsMap.get roomId rooms) as [room|]; [|reflexivity].
  destruct (JsMap.get socketId _) as [user|]; [|reflexivity].
  destruct (Participant.isAdmin user), (RoomSettings.allowGuestControl _);
    reflexivity.
Qed.

Lemma manager_control_result socketId roomId action now rooms :
  let after := fst (Manager.playback_control socketId roomId action now rooms) in
  match JsMap.get roomId rooms with
  | Some room =>
      if Manager.opt_isAdmin (JsMap.get socketId (Room.participants room))
         || RoomSettings.allowGuestControl (Room.settings room)
      then exists timer,
          after
          = JsMap.set roomId
              (Room.with_syncInterval timer
                 (Room.with_playbackState
                    (playback_switch now action (Room.playbackState room))
                    room)) rooms
      else after = rooms
  | None => after = rooms
  end.
Proof.
  unfold Manager.playback_control.
  destruct (JsMap.get roomId rooms) as [room|]; [|reflexivity].
  destruct (Manager.opt_isAdmin _), (RoomSettings.allowGuestControl _);
    simpl; try reflexivity.
  all: destruct action; simpl;
    try (exists (Room.syncInterval room); now destruct room).
  all: destruct (Room.syncInterval room) eqn:E; simpl;
    try (exists true; reflexivity); try (exists false; reflexivity);
    try (exists (Room.syncInterval room); destruct room; simpl in *;
         now subst).
Qed.

Lemma server_pause_twice socketId roomId t1 t2 rooms :
  let once := fst (Server.playback_control socketId roomId Pause t1 rooms) in
  let twice := fst (Server.playback_control socketId roomId Pause t2 once) in
  stored_position roomId twice = stored_position roomId once.
Proof.
  intros once twice. subst twice once.
  pose proof (server_control_result socketId roomId Pause t1 rooms) as H1.
  pose proof (server_control_result socketId roomId Pause t2 rooms) as H2.
  simpl in H1, H2.
  destruct (JsMap.get roomId rooms) as [room|] eqn:Hget;
    [|now rewrite H1, H2].
  destruct (JsMap.get socketId _) as [user|] eqn:Hslot;
    [|now rewrite H1, H2].
  destruct (may_control user room) eqn:Hmay; [|now rewrite H1, H2].
  rewrite H1. clear H2.
  pose proof (server_control_result socketId roomId Pause t2
                (JsMap.set roomId
                   (Room.with_playbackState
                      (playback_switch t1 Pause (Room.playbackState room))
                      room) rooms)) as H2.
  simpl in H2. rewrite JsMapFacts.get_set_same in H2. simpl in H2.
  rewrite Hslot in H2.
  change (may_control user (Room.with_playbackState _ room))
    with (may_control user room) in H2.
  rewrite Hmay in H2. rewrite H2.
  rewrite !stored_position_set. simpl. f_equal. apply pause_twice_position.
Qed.

Lemma manager_pause_twice socketId roomId t1 t2 rooms :
  let once := fst (Manager.playback_control socketId roomId Pause t1 rooms) in
  let twice := fst (Manager.playback_control socketId roomId Pause t2 once) in
  stored_position roomId twice = stored_position roomId once.
Proof.
  intros once twice. subst twice once.
  pose proof (manager_control_result socketId roomId Pause t1 rooms) as H1.
  pose proof (manager_control_result socketId roomId Pause t2 rooms) as H2.
  simpl in H1, H2.
  destruct (JsMap.get roomId rooms) as [room|] eqn:Hget;
    [|now rewrite H1, H2].
  destruct (_ || _) eqn:Hmay; [|now rewrite H1, H2].
  destruct H1 as [timer H1]. rewrite H1. clear H2.
  pose proof (manager_control_result socketId roomId Pause t2
                (JsMap.set roomId
                   (Room.with_syncInterval timer
                      (Room.with_playbackState
                         (playback_switch t1 Pause (Room.playbackState room))
                         room)) rooms)) as H2.
  simpl in H2. rewrite JsMapFacts.get_set_same in H2. simpl in H2.
  rewrite Hmay in H2. destruct H2 as [timer2 H2]. rewrite H2.
  rewrite !stored_position_set. simpl. f_equal. apply pause_twice_position.
Qed.

(** C6.  In both servers, for every room table, requester and pair of
    clock readings, the position stored for the room after two [pause]
    requests in a row is the position stored after the first: the second
    [pause] finds [serverStartTime] null and leaves [currentTime] alone. *)
Theorem pause_twice_same_position
    (socketId roomId : string) (t1 t2 : Z) (rooms : Rooms) :
  (let once := fst (Server.playback_control socketId roomId Pause t1 rooms) in
   let twice := fst (Server.playback_control socketId roomId Pause t2 once) in
   stored_position roomId twice = stored_position roomId once)
  /\ (let once :=
        fst (Manager.playback_control socketId roomId Pause t1 rooms) in
      let twice :=
        fst (Manager.playback_control socketId roomId Pause t2 once) in
      stored_position roomId twice = stored_position roomId once)
  /\ forall s,
       PlaybackState.serverStartTime (playback_switch t1 Pause s) = None
       /\ PlaybackState.currentTime
            (playback_switch t2 Pause (playback_switch t1 Pause s))
          = PlaybackState.currentTime (playback_switch t1 Pause s).
Proof.
  split; [apply server_pause_twice|].
  split; [apply manager_pause_twice|].
  intros s. split; [now destruct s|apply pause_twice_position].
Qed.

(** ** Synchronisation messages *)

(** C10.  [request-sync] (both servers) and the periodic [broadcastSync]
    return the room table they were given, so every stored field of every
    playback state is the same before and after; what they send is
    [sync-update] events only, one for the room if it exists (for
    [broadcastSync]: if it exists and is playing), and the playback state
    sent agrees with the stored one on every field but [currentTime]. *)
Theorem sync_is_read_only
    (socketId roomId : string) (now : Z) (rooms : Rooms) :
  let stored := stored_playback roomId rooms in
  let asked := Server.request_sync socketId roomId now rooms in
  let asked' := Manager.request_sync socketId roomId now rooms in
  let ticked := Manager.broadcastSync roomId now rooms in
  (fst asked = rooms
   /\ map frame (sync_states (snd asked)) = map frame stored
   /\ List.length (snd asked) = List.length stored)
  /\ (fst asked' = rooms
      /\ map frame (sync_states (snd asked')) = map frame stored
      /\ List.length (snd asked') = List.length stored)
  /\ (fst ticked = rooms
      /\ map frame (sync_states (snd ticked))
         = map frame (filter PlaybackState.isPlaying stored)
      /\ List.length (snd ticked)
         = List.length (filter PlaybackState.isPlaying stored)).
Proof.
  unfold stored_playback, Server.request_sync, Manager.request_sync,
    Manager.broadcastSync.
  destruct (JsMap.get roomId rooms) as [room|]; simpl; [|auto 10].
  destruct (PlaybackState.isPlaying (Room.playbackState room)); simpl; auto 10.
Qed.

(** The position sent by [request-sync]. *)
Lemma calculatedTime_playing now s start p :
  PlaybackState.isPlaying s = true ->
  PlaybackState.serverStartTime s = Some start ->
  start <> 0 ->
  PlaybackState.playbackStartTime s = Some p ->
  calculatedTime now s = (p + inject_Z (now - start) / inject_Z 1000)%Q.
Proof.
  intros Hp Hs Hz Hq. unfold calculatedTime, truthy_Z.
  rewrite Hp, Hs, Hq.
  apply Z.eqb_neq in Hz. now rewrite Hz.
Qed.

Lemma calculatedTime_paused now s :
  PlaybackState.isPlaying s = false ->
  calculatedTime now s = PlaybackState.currentTime s.
Proof.
  intros Hp. unfold calculatedTime. rewrite Hp.
  destruct (PlaybackState.serverStartTime s),
    (PlaybackState.playbackStartTime s); reflexivity.
Qed.

Lemma thirty_seconds start p :
  (p == 0)%Q ->
  (p + inject_Z (start + 30000 - start) / inject_Z 1000 == 30)%Q.
Proof.
  intros ->. replace (start + 30000 - start) with 30000 by lia. reflexivity.
Qed.

(** ** Anchor times are clock readings *)

Section Anchors.
Import JsMapFacts.

Lemma anchors_get roomId room rooms :
  anchors_positive rooms -> JsMap.get roomId rooms = Some room ->
  anchor_ok (Room.playbackState room).
Proof. intros H Hg start. apply get_In in Hg. eauto. Qed.

Lemma anchors_set roomId room rooms :
  anchors_positive rooms -> anchor_ok (Room.playbackState room) ->
  anchors_positive (JsMap.set roomId room rooms).
Proof.
  intros H Hr id r start Hin.
  apply In_set in Hin as [E|Hin]; [|eauto].
  injection E as -> ->. apply Hr.
Qed.

Lemma anchors_delete roomId rooms :
  anchors_positive rooms -> anchors_positive (JsMap.delete roomId rooms).
Proof. intros H id r start Hin. apply In_delete in Hin. eauto. Qed.

Lemma playback_switch_anchor now action s :
  0 < now -> anchor_ok s -> anchor_ok (playback_switch now action s).
Proof.
  intros Hnow Hs start.
  destruct s as [song playing ct vol pl idx sst pst lst].
  unfold anchor_ok in Hs. simpl in Hs.
  destruct action; simpl;
    repeat match goal with
           | |- context [if ?b then _ else _] => destruct b; simpl
           end;
    intros E; try discriminate; try (injection E as <-; exact Hnow); auto.
Qed.

Lemma add_song_anchor socketId roomId song now rooms :
  anchors_positive rooms ->
  anchors_positive (fst (Server.add_song socketId roomId song now rooms)).
Proof.
  intros Inv. unfold Server.add_song.
  destruct (JsMap.get roomId rooms) as [room|] eqn:Hget; [|exact Inv].
  destruct (JsMap.has _ _); [|exact Inv].
  pose proof (anchors_get _ _ _ Inv Hget) as Hr.
  destruct (Room.playbackState room) as [cur playing ct vol pl idx sst pst lst].
  simpl. apply anchors_set; [exact Inv|].
  destruct cur; [exact Hr|]. destruct (Nat.eqb _ 1); exact Hr.
Qed.

Lemma disconnect_loop_anchor socketId entries rooms :
  anchors_positive rooms ->
  (forall e, In e entries -> In e rooms) ->
  anchors_positive (fst (Server.disconnect_loop socketId entries rooms)).
Proof.
  intros Inv.
  induction entries as [|[roomId room] rest IH]; simpl; intros Hsub; [exact Inv|].
  destruct (JsMap.get socketId (Room.participants room)) as [user|].
  - assert (Inv1 : anchors_positive
      (JsMap.set roomId
         (Room.with_participants
            (JsMap.delete socketId (Room.participants room)) room) rooms)).
    { apply anchors_set; [exact Inv|]. simpl. intros start.
      apply (Inv roomId room start). apply Hsub. now left. }
    simpl. destruct (Nat.eqb _ 0); auto using anchors_delete.
  - apply IH. intros e He. apply Hsub. now right.
Qed.

Lemma user_switch_anchor socketId roomId room adminUser action rooms :
  anchors_positive rooms ->
  JsMap.get roomId rooms = Some room ->
  anchors_positive
    (fst (user_switch socketId roomId room adminUser action rooms)).
Proof.
  intros Inv Hget.
  pose proof (anchors_get _ _ _ Inv Hget) as Hr.
  destruct action as [t|t|[p|]|a]; simpl; auto.
  - unfold kick_user.
    destruct (truthy_target t); [|exact Inv].
    destruct (JsMap.find_key _ _) as [k|]; [|exact Inv].
    destruct (truthy_string k); [|exact Inv].
    destruct (JsMap.get k _); [|exact Inv].
    simpl. now apply anchors_set.
  - unfold transfer_admin.
    destruct (truthy_target t); [|exact Inv].
    destruct (JsMap.find_key _ _) as [k|]; [|exact Inv].
    destruct (truthy_string k); [|exact Inv].
    destruct (JsMap.get k _); [|exact Inv].
    simpl. now apply anchors_set.
  - now apply anchors_set.
Qed.

Lemma handle_anchor now req rooms :
  0 < now -> anchors_positive rooms ->
  anchors_positive (fst (Server.handle now req rooms)).
Proof.
  intros Hnow Inv. destruct req; simpl.
  - unfold Server.join_room.
    destruct (_ || _); [exact Inv|].
    destruct (JsMap.get roomId rooms) as [room|] eqn:Hget.
    + destruct (_ >=? _); [exact Inv|]. simpl.
      apply anchors_set; [exact Inv|]. simpl.
      eapply anchors_get; eauto.
    + assert (Inv1 : anchors_positive
                (JsMap.set roomId (Server.newRoom roomId user now) rooms)).
      { apply anchors_set; [exact Inv|]. intros start. discriminate. }
      destruct (_ >=? _); [exact Inv1|]. simpl.
      apply anchors_set; [exact Inv1|]. intros start. discriminate.
  - unfold Server.request_sync.
    destruct (JsMap.get roomId rooms); exact Inv.
  - apply disconnect_loop_anchor; auto.
  - unfold Server.send_message.
    destruct (JsMap.get roomId rooms) as [room|] eqn:Hget; [|exact Inv].
    destruct (JsMap.has _ _); [|exact Inv].
    simpl. apply anchors_set; [exact Inv|]. simpl.
    eapply anchors_get; eauto.
  - now apply add_song_anchor.
  - unfold Server.playback_control.
    destruct (JsMap.get roomId rooms) as [room|] eqn:Hget; [|exact Inv].
    destruct (JsMap.get socketId _); [|exact Inv].
    destruct (_ && _); [exact Inv|].
    simpl. apply anchors_set; [exact Inv|]. simpl.
    apply playback_switch_anchor; [exact Hnow|].
    eapply anchors_get; eauto.
  - unfold Server.user_action.
    destruct (JsMap.get roomId rooms) as [room|] eqn:Hget; [|exact Inv].
    destruct (JsMap.get socketId _) as [adminUser|]; [|exact Inv].
    destruct (negb _); [exact Inv|].
    now apply user_switch_anchor.
  - unfold Server.close_room.
    destruct (JsMap.get roomId rooms) as [room|]; [|exact Inv].
    destruct (JsMap.get socketId _) as [user|]; [|exact Inv].
    destruct (negb _); [exact Inv|].
    simpl. now apply anchors_delete.
Qed.

Lemma run_anchor reqs : forall rooms,
  ServerProps.clocks_positive reqs -> anchors_positive rooms ->
  anchors_positive (fst (Server.run reqs rooms)).
Proof.
  induction reqs as [|[now req] rest IH]; intros rooms Hclk Inv; [exact Inv|].
  rewrite run_fst. inversion Hclk as [|? ? Hnow Hrest]; subst.
  apply IH; [exact Hrest|]. now apply handle_anchor.
Qed.

End Anchors.

(** ** The position sent on request *)

(** C8.  In every state the stand-alone server reaches from the empty
    room table through requests handled at clock readings after the epoch:
    while the room is playing, with [serverStartTime] and
    [playbackStartTime] set, [request-sync] sends the requesting
    connection one [sync-update] whose [currentTime] is
    [playbackStartTime + (now - serverStartTime) / 1000], which is 30 when
    the anchored position is 0 and 30000 milliseconds have passed; while
    the room is not playing it sends the stored [currentTime]. *)
Theorem request_sync_position
    (reqs : list (Z * Server.Request)) (socketId roomId : string) (now : Z)
    (room : Room.t) :
  ServerProps.clocks_positive reqs ->
  JsMap.get roomId (fst (Server.run reqs [])) = Some room ->
  let s := Room.playbackState room in
  let out :=
    snd (Server.request_sync socketId roomId now (fst (Server.run reqs []))) in
  (forall start p,
      PlaybackState.isPlaying s = true ->
      PlaybackState.serverStartTime s = Some start ->
      PlaybackState.playbackStartTime s = Some p ->
      let position := (p + inject_Z (now - start) / inject_Z 1000)%Q in
      out = [Emit (SocketEmit socketId)
               (SyncUpdate (PlaybackState.with_currentTime position s) now)]
      /\ sync_positions out = [position]
      /\ ((p == 0)%Q -> now = start + 30000 -> (position == 30)%Q))
  /\ (PlaybackState.isPlaying s = false ->
      out = [Emit (SocketEmit socketId)
               (SyncUpdate
                  (PlaybackState.with_currentTime
                     (PlaybackState.currentTime s) s) now)]
      /\ sync_positions out = [PlaybackState.currentTime s]).
Proof.
  intros Hclk Hget s out.
  assert (Inv : anchors_positive (fst (Server.run reqs []))).
  { apply run_anchor; [exact Hclk|]. intros ? ? ? []. }
  subst out. unfold Server.request_sync. rewrite Hget. simpl. fold s.
  split.
  - intros start p Hplay Hstart Hp.
    assert (Hpos : 0 < start).
    { apply (Inv roomId room start); [|exact Hstart].
      now apply JsMapFacts.get_In. }
    rewrite (calculatedTime_playing now s start p Hplay Hstart) by (auto; lia).
    split; [reflexivity|]. split; [reflexivity|].
    intros Hz ->. now apply thirty_seconds.
  - intros Hpaused. now rewrite (calculatedTime_paused now s Hpaused).
Qed.

Lemma request_sync_position_witness :
  let rooms := fst (Server.run Sample.scenario []) in
  exists q,
    sync_positions (snd (Server.request_sync "s2" "ABC123" 33000 rooms)) = [q]
    /\ (q == 30)%Q.
Proof.
  intros rooms.
  assert (Hclk : ServerProps.clocks_positive Sample.scenario)
    by (repeat (constructor; [reflexivity|]); constructor).
  destruct (JsMap.get "ABC123" rooms) as [room|] eqn:Hget;
    [|vm_compute in Hget; discriminate].
  pose proof (request_sync_position Sample.scenario "s2" "ABC123" 33000 room
                Hclk Hget) as H.
  vm_compute in Hget. injection Hget as <-.
  destruct H as [H _]. specialize (H 3000 0%Q eq_refl eq_refl eq_refl).
  destruct H as (_ & Hq & H30).
  eexists. split; [exact Hq|]. apply H30; reflexivity.
Defined.

(** ** Leaving a room *)

Section Leaving.
Import JsMapFacts.

Lemma disconnect_loop_no_empty socketId entries rooms :
  no_empty_room rooms ->
  no_empty_room (fst (Server.disconnect_loop socketId entries rooms)).
Proof.
  intros Inv.
  induction entries as [|[roomId room] rest IH]; simpl; [exact Inv|].
  destruct (JsMap.get socketId (Room.participants room)) as [user|];
    [|exact IH].
  simpl. destruct (Nat.eqb _ 0) eqn:E.
  - rewrite delete_set_same. intros id r Hin.
    apply In_delete in Hin. eauto.
  - intros id r Hin. apply In_set in Hin as [Heq|Hin]; [|eauto].
    injection Heq as -> ->. simpl. now apply Nat.eqb_neq in E.
Qed.

(** The disconnect path deletes the room it empties: a table without
    empty rooms stays so. *)
Lemma disconnect_no_empty socketId rooms :
  no_empty_room rooms -> no_empty_room (fst (Server.disconnect socketId rooms)).
Proof. apply disconnect_loop_no_empty. Qed.

End Leaving.

(** C4: the code at the failing input.  Alice creates room ABC123 and, as
    its admin, kicks her own identifier: the kick removes the last slot and
    leaves the room in the table with no participant.  The room is not a
    fresh one for the next joiner: Carol, joining later, finds the room
    created at time 1000. *)
Theorem self_kick_leaves_empty_room :
  let rooms := fst (Server.run Sample.self_kick []) in
  (exists room,
      JsMap.get "ABC123" rooms = Some room
      /\ JsMap.size (Room.participants room) = 0%nat)
  /\ ~ no_empty_room rooms
  /\ (exists room,
        JsMap.get "ABC123"
          (fst (Server.join_room "s2" "ABC123" Sample.carol 9000 rooms))
        = Some room
        /\ Room.createdAt room = 1000).
Proof.
  intros rooms. split; [|split].
  - eexists. split; [vm_compute; reflexivity|reflexivity].
  - intros H.
    assert (Hin : exists room,
               In ("ABC123", room) rooms
               /\ JsMap.size (Room.participants room) = 0%nat).
    { eexists. split; [vm_compute; left; reflexivity|reflexivity]. }
    destruct Hin as (room & Hin & Hsize). now apply (H _ _ Hin).
  - eexists. split; [vm_compute; reflexivity|reflexivity].
Qed.

(** ** Joining again under the same identifier *)

Section Reconnect.
Import JsMapFacts.
Context {V : Type}.
Implicit Types (m : JsMap.t V) (k : string) (v : V).

Lemma get_set_other k k' v m :
  k <> k' -> JsMap.get k (JsMap.set k' v m) = JsMap.get k m.
Proof.
  intros Hne.
  induction m as [|[k0 v0] m IH]; simpl.
  - destruct (String.eqb k' k) eqn:E; [|reflexivity].
    apply String.eqb_eq in E. congruence.
  - destruct (String.eqb k0 k') eqn:E0; simpl.
    + apply String.eqb_eq in E0. subst k0.
      destruct (String.eqb k' k) eqn:E; [|reflexivity].
      apply String.eqb_eq in E. congruence.
    + now rewrite IH.
Qed.

Lemma get_notin k m : ~ In k (map fst m) -> JsMap.get k m = None.
Proof.
  induction m as [|[k0 v0] m IH]; simpl; [reflexivity|].
  intros Hn. destruct (String.eqb k0 k) eqn:E.
  - apply String.eqb_eq in E. tauto.
  - apply IH. tauto.
Qed.

Lemma get_delete_same k m :
  distinct_keys m -> JsMap.get k (JsMap.delete k m) = None.
Proof.
  unfold distinct_keys.
  induction m as [|[k0 v0] m IH]; simpl; [reflexivity|].
  intros Hnd. inversion Hnd as [|? ? Hn Hnd']; subst.
  destruct (String.eqb k0 k) eqn:E.
  - apply String.eqb_eq in E. subst k0. now apply get_notin.
  - simpl. rewrite E. auto.
Qed.

End Reconnect.

Lemma remove_old_connection_found socketId userId parts existing :
  JsMap.find_key (has_id userId) parts = Some existing ->
  existing <> "" ->
  Server.remove_old_connection socketId userId parts
  = if String.eqb existing socketId then parts
    else JsMap.delete existing parts.
Proof.
  intros Hf Hne. unfold Server.remove_old_connection, truthy_string.
  rewrite Hf. apply String.eqb_neq in Hne. rewrite Hne. simpl.
  now destruct (String.eqb existing socketId).
Qed.

(** C5, as amended.  When a join that passes the input and capacity checks
    carries an identifier that a slot of the room already has, that slot
    (if it belongs to another connection) is deleted and one slot for the
    joining connection is stored, so the participant count does not
    increase.  The admin flag of the new slot is not taken from the prior
    slot: it is [true] when the prior slot belonged to another connection
    and was the only slot of the room; in every other case (other
    participants are present, or the join arrives on the connection that
    holds the prior slot, which is then overwritten and not deleted) it is
    the [isAdmin] sent with the join ([false] when none is sent). *)
Theorem reconnect_replaces_slot
    (socketId roomId : string) (user : JoinUser.t) (now : Z) (rooms : Rooms)
    (room : Room.t) (existing : string) :
  truthy_string roomId = true ->
  truthy_string (JoinUser.name user) = true ->
  JsMap.get roomId rooms = Some room ->
  distinct_keys (Room.participants room) ->
  Z.of_nat (JsMap.size (Room.participants room))
  < RoomSettings.maxParticipants (Room.settings room) ->
  JsMap.find_key (has_id (JoinUser.id user)) (Room.participants room)
  = Some existing ->
  existing <> "" ->
  exists room' slot,
    JsMap.get roomId (fst (Server.join_room socketId roomId user now rooms))
    = Some room'
    /\ JsMap.get socketId (Room.participants room') = Some slot
    /\ Participant.id slot = JoinUser.id user
    /\ (existing <> socketId ->
        JsMap.get existing (Room.participants room') = None)
    /\ (JsMap.size (Room.participants room')
        <= JsMap.size (Room.participants room))%nat
    /\ Participant.isAdmin slot
       = if negb (String.eqb existing socketId)
            && Nat.eqb (JsMap.size (Room.participants room)) 1
         then true
         else requested_admin user.
Proof.
  intros Hroom Hname Hget Hnd Hcap Hfind Hne.
  unfold Server.join_room. rewrite Hroom, Hname, Hget. simpl.
  replace (_ >=? _) with false
    by (symmetry; rewrite Z.geb_leb; apply Z.leb_gt; lia).
  simpl. rewrite JsMapFacts.get_set_same.
  rewrite (remove_old_connection_found _ _ _ _ Hfind Hne).
  destruct (JsMapFacts.find_key_get _ _ _ Hfind) as [prior Hprior].
  pose proof (JsMapFacts.size_delete_get _ _ _ Hprior) as Hsize.
  do 2 eexists. split; [reflexivity|]. simpl.
  rewrite JsMapFacts.get_set_same.
  split; [reflexivity|]. split; [reflexivity|].
  destruct (String.eqb existing socketId) eqn:E; simpl.
  - apply String.eqb_eq in E. subst existing.
    split; [congruence|]. split.
    + rewrite JsMapFacts.size_set. lia.
    + unfold Server.joining_isAdmin, requested_admin.
      destruct (Nat.eqb _ 0) eqn:E0; [|reflexivity].
      apply Nat.eqb_eq in E0. lia.
  - split; [|split].
    + intros _. apply String.eqb_neq in E.
      rewrite get_set_other by exact E. now apply get_delete_same.
    + rewrite JsMapFacts.size_set.
      pose proof (JsMapFacts.size_delete_le socketId
                    (JsMap.delete existing (Room.participants room))).
      lia.
    + unfold Server.joining_isAdmin, requested_admin.
      replace (Nat.eqb (JsMap.size (Room.participants room)) 1)
        with (Nat.eqb
                (JsMap.size (JsMap.delete existing (Room.participants room)))
                0); [reflexivity|].
      rewrite <- Hsize. reflexivity.
Qed.

Lemma reconnect_replaces_slot_witness :
  let rooms := fst (Server.run Sample.two_members []) in
  exists room' slot,
    JsMap.get "ABC123"
      (fst (Server.join_room "s3" "ABC123" Sample.alice_guest 3000 rooms))
    = Some room'
    /\ JsMap.get "s3" (Room.participants room') = Some slot
    /\ Participant.id slot = "user_alice"
    /\ JsMap.get "s1" (Room.participants room') = None
    /\ (JsMap.size (Room.participants room') <= 2)%nat
    /\ Participant.isAdmin slot = false.
Proof.
  intros rooms.
  destruct (JsMap.get "ABC123" rooms) as [room|] eqn:Hget;
    [|vm_compute in Hget; discriminate].
  assert (Hroom : room = match JsMap.get "ABC123" rooms with
                         | Some r => r | None => room end)
    by now rewrite Hget.
  assert (Hnd : distinct_keys (Room.participants room)).
  { rewrite Hroom. vm_compute. repeat constructor; simpl; intuition discriminate. }
  assert (Hcap : Z.of_nat (JsMap.size (Room.participants room))
                 < RoomSettings.maxParticipants (Room.settings room)).
  { rewrite Hroom. vm_compute. reflexivity. }
  assert (Hfind : JsMap.find_key (has_id (JoinUser.id Sample.alice_guest))
                    (Room.participants room) = Some "s1").
  { rewrite Hroom. vm_compute. reflexivity. }
  assert (Hne : "s1" <> "") by discriminate.
  destruct (reconnect_replaces_slot "s3" "ABC123" Sample.alice_guest 3000
              rooms room "s1" eq_refl eq_refl Hget Hnd Hcap Hfind Hne)
    as (room' & slot & H1 & H2 & H3 & H4 & H5 & H6).
  exists room', slot.
  split; [exact H1|]. split; [exact H2|]. split; [exact H3|].
  split; [apply H4; discriminate|].
  split; [rewrite Hroom in H5; exact H5|].
  rewrite Hroom in H6. exact H6.
Defined.

(** C5 as stated fails: the admin who joins again from a new connection
    with [isAdmin: false], as the room page sends it, gets a slot without
    admin, although the slot it replaces had it. *)
Lemma reconnect_drops_admin_flag :
  let before := fst (Server.run Sample.two_members []) in
  let after :=
    fst (Server.join_room "s3" "ABC123" Sample.alice_guest 3000 before) in
  (exists parts prior,
      ServerProps.participants_of "ABC123" before = Some parts
      /\ JsMap.find_key (has_id "user_alice") parts = Some "s1"
      /\ JsMap.get "s1" parts = Some prior
      /\ Participant.isAdmin prior = true)
  /\ (exists parts slot,
        ServerProps.participants_of "ABC123" after = Some parts
        /\ JsMap.get "s3" parts = Some slot
        /\ Participant.id slot = "user_alice"
        /\ Participant.isAdmin slot = false).
Proof.
  split.
  - do 2 eexists. split; [vm_compute; reflexivity|].
    split; [reflexivity|]. split; reflexivity.
  - do 2 eexists. split; [vm_compute; reflexivity|].
    split; [reflexivity|]. split; reflexivity.
Qed.

(** The other case of the amended text: a lone admin who joins again on
    the connection that already holds the slot, with [isAdmin: false],
    overwrites that slot and is no admin any more. *)
Lemma rejoin_on_same_connection_uses_sent_flag :
  let before := fst (Server.run [(1000, Server.JoinRoom "s1" "ABC123"
                                         Sample.alice)] []) in
  let after :=
    fst (Server.join_room "s1" "ABC123" Sample.alice_guest 3000 before) in
  (exists parts prior,
      ServerProps.participants_of "ABC123" before = Some parts
      /\ JsMap.size parts = 1%nat
      /\ JsMap.get "s1" parts = Some prior
      /\ Participant.isAdmin prior = true)
  /\ (exists parts slot,
        ServerProps.participants_of "ABC123" after = Some parts
        /\ JsMap.size parts = 1%nat
        /\ JsMap.get "s1" parts = Some slot
        /\ Participant.isAdmin slot = false).
Proof.
  split.
  - do 2 eexists. split; [vm_compute; reflexivity|].
    split; [reflexivity|]. split; reflexivity.
  - do 2 eexists. split; [vm_compute; reflexivity|].
    split; [reflexivity|]. split; reflexivity.
Qed.

(** ** The participant maps of reachable states are maps *)

Section DistinctKeys.
Import JsMapFacts.

Lemma keys_set {V} k (v : V) m k' :
  In k' (map fst (JsMap.set k v m)) -> k' = k \/ In k' (map fst m).
Proof.
  induction m as [|[k0 v0] m IH]; simpl.
  - intros [H|[]]; auto.
  - destruct (String.eqb k0 k) eqn:E; simpl.
    + apply String.eqb_eq in E. subst k0. tauto.
    + intros [H|H]; auto. destruct (IH H); auto.
Qed.

Lemma keys_delete {V} k (m : JsMap.t V) k' :
  In k' (map fst (JsMap.delete k m)) -> In k' (map fst m).
Proof.
  induction m as [|[k0 v0] m IH]; simpl; auto.
  destruct (String.eqb k0 k); simpl; tauto.
Qed.

Lemma distinct_keys_set {V} k (v : V) m :
  distinct_keys m -> distinct_keys (JsMap.set k v m).
Proof.
  unfold distinct_keys.
  induction m as [|[k0 v0] m IH]; simpl; intros Hnd.
  - repeat constructor. intros [].
  - inversion Hnd as [|? ? Hn Hnd']; subst.
    destruct (String.eqb k0 k) eqn:E; simpl.
    + apply String.eqb_eq in E. subst k0. now constructor.
    + constructor; [|auto]. intros Hin.
      apply keys_set in Hin as [->|Hin]; [|contradiction].
      now rewrite String.eqb_refl in E.
Qed.

Lemma distinct_keys_delete {V} k (m : JsMap.t V) :
  distinct_keys m -> distinct_keys (JsMap.delete k m).
Proof.
  unfold distinct_keys.
  induction m as [|[k0 v0] m IH]; simpl; intros Hnd; [constructor|].
  inversion Hnd as [|? ? Hn Hnd']; subst.
  destruct (String.eqb k0 k); simpl; [exact Hnd'|].
  constructor; [|auto]. intros Hin. apply keys_delete in Hin. contradiction.
Qed.

Lemma distinct_keys_remove_old socketId userId parts :
  distinct_keys parts ->
  distinct_keys (Server.remove_old_connection socketId userId parts).
Proof.
  intros H. unfold Server.remove_old_connection.
  destruct (JsMap.find_key _ parts); [|exact H].
  destruct (_ && _); auto using distinct_keys_delete.
Qed.

Lemma slots_get roomId room rooms :
  slots_distinct rooms -> JsMap.get roomId rooms = Some room ->
  distinct_keys (Room.participants room).
Proof. intros H Hg. apply get_In in Hg. eauto. Qed.

Lemma slots_set roomId room rooms :
  slots_distinct rooms -> distinct_keys (Room.participants room) ->
  slots_distinct (JsMap.set roomId room rooms).
Proof.
  intros H Hr id r Hin.
  apply In_set in Hin as [E|Hin]; [|eauto].
  injection E as -> ->. exact Hr.
Qed.

Lemma slots_delete roomId rooms :
  slots_distinct rooms -> slots_distinct (JsMap.delete roomId rooms).
Proof. intros H id r Hin. apply In_delete in Hin. eauto. Qed.

Lemma disconnect_loop_slots socketId entries rooms :
  slots_distinct rooms ->
  (forall e, In e entries -> In e rooms) ->
  slots_distinct (fst (Server.disconnect_loop socketId entries rooms)).
Proof.
  intros Inv.
  induction entries as [|[roomId room] rest IH]; simpl; intros Hsub; [exact Inv|].
  destruct (JsMap.get socketId (Room.participants room)) as [user|].
  - assert (Inv1 : slots_distinct
      (JsMap.set roomId
         (Room.with_participants
            (JsMap.delete socketId (Room.participants room)) room) rooms)).
    { apply slots_set; [exact Inv|]. simpl. apply distinct_keys_delete.
      apply (Inv roomId room). apply Hsub. now left. }
    simpl. destruct (Nat.eqb _ 0); auto using slots_delete.
  - apply IH. intros e He. apply Hsub. now right.
Qed.

Lemma user_switch_slots socketId roomId room adminUser action rooms :
  slots_distinct rooms ->
  JsMap.get roomId rooms = Some room ->
  slots_distinct
    (fst (user_switch socketId roomId room adminUser action rooms)).
Proof.
  intros Inv Hget.
  pose proof (slots_get _ _ _ Inv Hget) as Hr.
  destruct action as [t|t|[p|]|a]; simpl; auto.
  - unfold kick_user.
    destruct (truthy_target t); [|exact Inv].
    destruct (JsMap.find_key _ _) as [k|]; [|exact Inv].
    destruct (truthy_string k); [|exact Inv].
    destruct (JsMap.get k _); [|exact Inv].
    simpl. apply slots_set; [exact Inv|]. simpl.
    now apply distinct_keys_delete.
  - unfold transfer_admin.
    destruct (truthy_target t); [|exact Inv].
    destruct (JsMap.find_key _ _) as [k|]; [|exact Inv].
    destruct (truthy_string k); [|exact Inv].
    destruct (JsMap.get k _); [|exact Inv].
    simpl. apply slots_set; [exact Inv|]. simpl.
    now do 2 apply distinct_keys_set.
  - now apply slots_set.
Qed.

Lemma handle_slots now req rooms :
  slots_distinct rooms -> slots_distinct (fst (Server.handle now req rooms)).
Proof.
  intros Inv. destruct req; simpl.
  - unfold Server.join_room.
    destruct (_ || _); [exact Inv|].
    destruct (JsMap.get roomId rooms) as [room|] eqn:Hget.
    + destruct (_ >=? _); [exact Inv|]. simpl.
      apply slots_set; [exact Inv|]. simpl.
      apply distinct_keys_set, distinct_keys_remove_old.
      eapply slots_get; eauto.
    + assert (Inv1 : slots_distinct
                (JsMap.set roomId (Server.newRoom roomId user now) rooms)).
      { apply slots_set; [exact Inv|]. constructor. }
      destruct (_ >=? _); [exact Inv1|]. simpl.
      apply slots_set; [exact Inv1|]. simpl.
      repeat constructor. intros [].
  - unfold Server.request_sync.
    destruct (JsMap.get roomId rooms); exact Inv.
  - apply disconnect_loop_slots; auto.
  - unfold Server.send_message.
    destruct (JsMap.get roomId rooms) as [room|] eqn:Hget; [|exact Inv].
    destruct (JsMap.has _ _); [|exact Inv].
    simpl. apply slots_set; [exact Inv|]. simpl. eapply slots_get; eauto.
  - unfold Server.add_song.
    destruct (JsMap.get roomId rooms) as [room|] eqn:Hget; [|exact Inv].
    destruct (JsMap.has _ _); [|exact Inv].
    destruct (Room.playbackState room).
    simpl. apply slots_set; [exact Inv|]. simpl. eapply slots_get; eauto.
  - unfold Server.playback_control.
    destruct (JsMap.get roomId rooms) as [room|] eqn:Hget; [|exact Inv].
    destruct (JsMap.get socketId _); [|exact Inv].
    destruct (_ && _); [exact Inv|].
    simpl. apply slots_set; [exact Inv|]. simpl. eapply slots_get; eauto.
  - unfold Server.user_action.
    destruct (JsMap.get roomId rooms) as [room|] eqn:Hget; [|exact Inv].
    destruct (JsMap.get socketId _) as [adminUser|]; [|exact Inv].
    destruct (negb _); [exact Inv|].
    now apply user_switch_slots.
  - unfold Server.close_room.
    destruct (JsMap.get roomId rooms) as [room|]; [|exact Inv].
    destruct (JsMap.get socketId _) as [user|]; [|exact Inv].
    destruct (negb _); [exact Inv|].
    simpl. now apply slots_delete.
Qed.

(** Every participant map the server builds has distinct keys. *)
Lemma run_slots reqs : forall rooms,
  slots_distinct rooms -> slots_distinct (fst (Server.run reqs rooms)).
Proof.
  induction reqs as [|[now req] rest IH]; intros rooms Inv; [exact Inv|].
  rewrite run_fst. apply IH. now apply handle_slots.
Qed.

End DistinctKeys.

(** * Further properties *)

(** ** The playback clock *)

Lemma seconds_cancel (t d : Z) :
  inject_Z (t + d - t) = inject_Z d.
Proof. f_equal. lia. Qed.

Lemma truthy_Z_true z : z <> 0 -> truthy_Z z = true.
Proof. intros H. unfold truthy_Z. apply Z.eqb_neq in H. now rewrite H. Qed.

Lemma calculatedTime_anchored now s start p :
  anchored s start p ->
  calculatedTime now s = elapsed_position now start p.
Proof.
  intros (Hp & Hs & Hz & Hq). unfold calculatedTime.
  now rewrite Hp, Hs, Hq, (truthy_Z_true _ Hz).
Qed.

(** X1.  Pausing a playing room and resuming it (a [play] that carries no
    position, or position 0) does not move the position: [d] milliseconds
    after the [play], the position sent on request is the position the
    room had at the pause plus [d / 1000], however long the pause. *)
Theorem pause_then_play_is_continuous
    (s : PlaybackState.t) (start : Z) (p : Q) (payload : option Q)
    (t1 t2 d : Z) :
  anchored s start p ->
  resumes payload ->
  t2 <> 0 ->
  let s' := playback_switch t2 (Play payload) (playback_switch t1 Pause s) in
  (calculatedTime (t2 + d) s'
   == calculatedTime t1 s + inject_Z d / inject_Z 1000)%Q.
Proof.
  intros Ha Hr Ht2 s'.
  rewrite (calculatedTime_anchored t1 s start p Ha).
  destruct Ha as (Hp & Hs & Hz & Hq).
  assert (Hs' : s' = playback_switch t2 (Play None) (playback_switch t1 Pause s)).
  { subst s'. destruct payload as [q|]; [|reflexivity].
    simpl in Hr. apply truthy_Q_false in Hr.
    destruct s; simpl. now rewrite Hr. }
  rewrite Hs'. clear Hs' s'.
  destruct s as [song playing ct vol pl idx sst pst lst]. simpl in *.
  subst sst pst. rewrite (truthy_Z_true _ Hz).
  unfold calculatedTime. simpl. rewrite (truthy_Z_true _ Ht2).
  unfold elapsed_position at 1. now rewrite seconds_cancel.
Qed.

Lemma pause_then_play_is_continuous_witness :
  let s := PlaybackState.mk None true 0%Q 1%Q [] (-1) (Some 2000) (Some 10%Q)
             2000 in
  let s' := playback_switch 90000 (Play None) (playback_switch 44000 Pause s) in
  (calculatedTime (90000 + 5000) s'
   == calculatedTime 44000 s + inject_Z 5000 / inject_Z 1000)%Q.
Proof.
  intros s.
  apply (pause_then_play_is_continuous s 2000 10%Q None 44000 90000 5000).
  - repeat split; try reflexivity; discriminate.
  - exact I.
  - discriminate.
Defined.

(** X2.  A seek puts the room at the position asked for: [d] milliseconds
    after a [seek] to [q], the position sent on request is [q + d / 1000]
    in a playing room and [q] in a room that is not playing. *)
Theorem seek_sets_position
    (s : PlaybackState.t) (q : Q) (t d : Z) :
  t <> 0 ->
  (calculatedTime (t + d) (playback_switch t (Seek q) s)
   == if PlaybackState.isPlaying s
      then q + inject_Z d / inject_Z 1000
      else q)%Q.
Proof.
  intros Ht.
  destruct s as [song playing ct vol pl idx sst pst lst].
  destruct playing; simpl.
  - unfold calculatedTime. simpl. rewrite (truthy_Z_true _ Ht).
    unfold elapsed_position. now rewrite seconds_cancel.
  - unfold calculatedTime. simpl.
    destruct sst, pst; reflexivity.
Qed.

Lemma seek_sets_position_witness :
  let s := PlaybackState.mk None true 0%Q 1%Q [] (-1) (Some 2000) (Some 10%Q)
             2000 in
  (calculatedTime (7000 + 3000) (playback_switch 7000 (Seek 60%Q) s)
   == 60 + inject_Z 3000 / inject_Z 1000)%Q.
Proof.
  intros s. apply (seek_sets_position s 60%Q 7000 3000). discriminate.
Defined.

Lemma playlist_at_nth pl i :
  0 <= i -> playlist_at pl i = nth_error pl (Z.to_nat i).
Proof.
  intros H. unfold playlist_at.
  replace (i <? 0) with false; [reflexivity|].
  symmetry. apply Z.ltb_ge. exact H.
Qed.

(** X3.  Away from the end of the playlist, [previous] undoes [next]: the
    room is back on the same index and the same song, with the same
    playlist and play state; only the position is not restored, it is 0. *)
Theorem previous_undoes_next (s : PlaybackState.t) (t1 t2 : Z) :
  song_ok s ->
  0 <= PlaybackState.currentIndex s
       < Z.of_nat (List.length (PlaybackState.playlist s)) - 1 ->
  let s' := playback_switch t2 Previous (playback_switch t1 Next s) in
  PlaybackState.currentIndex s' = PlaybackState.currentIndex s
  /\ PlaybackState.currentSong s' = PlaybackState.currentSong s
  /\ PlaybackState.playlist s' = PlaybackState.playlist s
  /\ PlaybackState.isPlaying s' = PlaybackState.isPlaying s
  /\ PlaybackState.currentTime s' = 0%Q.
Proof.
  intros Hok Hidx.
  destruct s as [song playing ct vol pl idx sst pst lst]. simpl in *.
  destruct Hok as [(Hneg & _)|(_ & Hsong)]; [simpl in Hneg; lia|].
  simpl in Hsong.
  replace (idx <? Z.of_nat (List.length pl) - 1) with true
    by (symmetry; apply Z.ltb_lt; lia).
  assert (Hback : idx + 1 - 1 = idx) by lia.
  destruct playing; simpl;
    (replace (0 <? idx + 1) with true by (symmetry; apply Z.ltb_lt; lia));
    simpl; rewrite Hback, playlist_at_nth by lia; auto.
Qed.

Lemma previous_undoes_next_witness :
  let a := Song.mk 1 "A" None 180%Q "u1" "Alice" 1 in
  let b := Song.mk 2 "B" None 200%Q "u2" "Alice" 2 in
  let s := PlaybackState.mk (Some a) false 12%Q 1%Q [a; b] 0 None None 5 in
  let s' := playback_switch 9000 Previous (playback_switch 8000 Next s) in
  PlaybackState.currentIndex s' = 0
  /\ PlaybackState.currentSong s' = Some a
  /\ PlaybackState.playlist s' = [a; b]
  /\ PlaybackState.isPlaying s' = false
  /\ PlaybackState.currentTime s' = 0%Q.
Proof.
  intros a b s.
  apply (previous_undoes_next s 8000 9000).
  - right. split; [simpl; lia|reflexivity].
  - simpl. lia.
Defined.

(** ** The client's clock *)

Lemma offset_cancels (clientTime d serverTime : Z) :
  clientTime + d + (serverTime - clientTime) = serverTime + d.
Proof. lia. Qed.

Lemma client_after_timed_state s serverTime clientTime d :
  Client.getSyncedCurrentTime (clientTime + d)
    (Client.mk s (serverTime - clientTime))
  = calculatedTime (serverTime + d) s.
Proof.
  unfold Client.getSyncedCurrentTime, calculatedTime. simpl.
  destruct (PlaybackState.serverStartTime s) as [start|]; [|reflexivity].
  destruct (PlaybackState.playbackStartTime s) as [p|]; [|reflexivity].
  rewrite offset_cancels.
  destruct (PlaybackState.isPlaying s), (truthy_Z start); reflexivity.
Qed.

(** X4.  Whatever the browser's clock shows, [d] milliseconds after a
    [playback-state-changed], a [sync-update] or a [room-state] (with a
    server time other than 0) arrived, [getSyncedCurrentTime] returns the
    position the server itself computes [d] milliseconds after it sent the
    message. *)
Theorem client_position_matches_server
    (m : Message) (s : PlaybackState.t) (serverTime clientTime d : Z)
    (c : Client.t) :
  timed_state m s serverTime ->
  Client.getSyncedCurrentTime (clientTime + d) (Client.receive m clientTime c)
  = calculatedTime (serverTime + d) s.
Proof.
  intros [->|[->|(Hz & info & roster & log & ->)]]; simpl.
  - now apply client_after_timed_state.
  - now apply client_after_timed_state.
  - rewrite (truthy_Z_true _ Hz). now apply client_after_timed_state.
Qed.

Lemma client_position_matches_server_witness :
  let s := PlaybackState.mk None true 0%Q 1%Q [] (-1) (Some 2000) (Some 10%Q)
             2000 in
  Client.getSyncedCurrentTime (777000 + 4000)
    (Client.receive (SyncUpdate s 50000) 777000 (Client.initial 1))
  = calculatedTime (50000 + 4000) s.
Proof.
  intros s.
  apply (client_position_matches_server (SyncUpdate s 50000) s 50000 777000
           4000 (Client.initial 1)).
  right. left. reflexivity.
Defined.

(** X5.  From the server to the listener: when a participant allowed to
    control playback sends [play] at server time [t], the stand-alone
    server broadcasts one [playback-state-changed]; a client that receives
    it, at whatever local time, shows [d] milliseconds later the anchored
    position plus [d / 1000]. *)
Theorem play_reaches_client
    (socketId roomId : string) (payload : option Q) (t : Z) (rooms : Rooms)
    (room : Room.t) (user : Participant.t) (clientTime d : Z) (c : Client.t) :
  JsMap.get roomId rooms = Some room ->
  JsMap.get socketId (Room.participants room) = Some user ->
  may_control user room = true ->
  t <> 0 ->
  exists s anchor,
    snd (Server.playback_control socketId roomId (Play payload) t rooms)
    = [Emit (IoTo roomId) (PlaybackStateChanged s t)]
    /\ PlaybackState.playbackStartTime s = Some anchor
    /\ (Client.getSyncedCurrentTime (clientTime + d)
          (Client.receive (PlaybackStateChanged s t) clientTime c)
        == anchor + inject_Z d / inject_Z 1000)%Q.
Proof.
  intros Hget Hslot Hmay Ht.
  unfold may_control in Hmay. apply orb_true_iff in Hmay.
  assert (Hden : negb (Participant.isAdmin user)
                 && negb (RoomSettings.allowGuestControl (Room.settings room))
                 = false).
  { destruct Hmay as [-> | ->]; simpl; auto using andb_false_r. }
  unfold Server.playback_control. rewrite Hget, Hslot, Hden. simpl.
  destruct (playback_switch_play t payload (Room.playbackState room))
    as (Hp & Hs & Hq).
  do 2 eexists. split; [reflexivity|]. split; [exact Hq|].
  simpl. rewrite client_after_timed_state.
  rewrite (calculatedTime_anchored (t + d) _ t _) by (repeat split; eauto).
  unfold elapsed_position. now rewrite seconds_cancel.
Qed.

Lemma play_reaches_client_witness :
  let rooms := fst (Server.run Sample.paused_at_42 []) in
  exists s anchor,
    snd (Server.playback_control "s1" "ABC123" (Play (Some 7%Q)) 60000 rooms)
    = [Emit (IoTo "ABC123") (PlaybackStateChanged s 60000)]
    /\ PlaybackState.playbackStartTime s = Some anchor
    /\ (Client.getSyncedCurrentTime (5 + 3000)
          (Client.receive (PlaybackStateChanged s 60000) 5 (Client.initial 1))
        == anchor + inject_Z 3000 / inject_Z 1000)%Q.
Proof.
  intros rooms.
  destruct (JsMap.get "ABC123" rooms) as [room|] eqn:Hget;
    [|vm_compute in Hget; discriminate].
  destruct (JsMap.get "s1" (Room.participants room)) as [user|] eqn:Hslot;
    [|vm_compute in Hget; injection Hget as <-; vm_compute in Hslot;
      discriminate].
  refine (play_reaches_client "s1" "ABC123" (Some 7%Q) 60000 rooms room user
            5 3000 (Client.initial 1) Hget Hslot _ _).
  - vm_compute in Hget. injection Hget as <-.
    vm_compute in Hslot. injection Hslot as <-. reflexivity.
  - discriminate.
Defined.

(** ** Invariants of the stored playback state *)

Lemma manager_disconnect_loop_fst socketId roomId room rest rooms :
  fst (Manager.disconnect_loop socketId ((roomId, room) :: rest) rooms)
  = match JsMap.get socketId (Room.participants room) with
    | Some _ =>
        let parts := JsMap.delete socketId (Room.participants room) in
        let rooms1 :=
          JsMap.set roomId (Room.with_participants parts room) rooms in
        fst (Manager.disconnect_loop socketId rest
               (if Nat.eqb (JsMap.size parts) 0
                then JsMap.delete roomId rooms1 else rooms1))
    | None => fst (Manager.disconnect_loop socketId rest rooms)
    end.
Proof.
  simpl. destruct (JsMap.get socketId _); [|reflexivity].
  destruct (Nat.eqb _ 0); simpl;
    now destruct (Manager.disconnect_loop socketId rest _).
Qed.

Lemma manager_run_fst now req rest rooms :
  fst (Manager.run ((now, req) :: rest) rooms)
  = fst (Manager.run rest (fst (Manager.handle now req rooms))).
Proof.
  simpl. destruct (Manager.handle now req rooms) as [rooms1 out].
  simpl. now destruct (Manager.run rest rooms1).
Qed.

Lemma server_add_song_push socketId roomId song now rooms room :
  JsMap.get roomId rooms = Some room ->
  JsMap.has socketId (Room.participants room) = true ->
  fst (Server.add_song socketId roomId song now rooms)
  = JsMap.set roomId
      (Room.with_playbackState
         (push_song
            (Song.mk now (NewSong.title song) (NewSong.artist song)
               (NewSong.duration song) (NewSong.url song)
               (NewSong.addedBy song) now)
            (Room.playbackState room)) room) rooms.
Proof.
  intros Hget Hhas. unfold Server.add_song. rewrite Hget, Hhas.
  now destruct (Room.playbackState room).
Qed.

Lemma manager_add_song_push socketId roomId song now rooms room :
  JsMap.get roomId rooms = Some room ->
  fst (Manager.add_song socketId roomId song now rooms)
  = JsMap.set roomId
      (Room.with_playbackState
         (push_song
            (Song.mk now (NewSong.title song) (NewSong.artist song)
               (NewSong.duration song) (NewSong.url song)
               (NewSong.addedBy song) now)
            (Room.playbackState room)) room) rooms.
Proof.
  intros Hget. unfold Manager.add_song. rewrite Hget.
  now destruct (Room.playbackState room).
Qed.

Section PlaybackInvariant.
Import JsMapFacts.

Variable Q : PlaybackState.t -> Prop.
Hypothesis Q_init : forall now, Q (initial_playback now).
Hypothesis Q_switch : forall now a s, Q s -> Q (playback_switch now a s).
Hypothesis Q_push : forall song s, Q s -> Q (push_song song s).

Lemma playback_all_get roomId room rooms :
  playback_all Q rooms -> JsMap.get roomId rooms = Some room ->
  Q (Room.playbackState room).
Proof. intros H Hg. apply get_In in Hg. eauto. Qed.

Lemma playback_all_set roomId room rooms :
  playback_all Q rooms -> Q (Room.playbackState room) ->
  playback_all Q (JsMap.set roomId room rooms).
Proof.
  intros H Hr id r Hin.
  apply In_set in Hin as [E|Hin]; [|eauto].
  injection E as -> ->. exact Hr.
Qed.

Lemma playback_all_delete roomId rooms :
  playback_all Q rooms -> playback_all Q (JsMap.delete roomId rooms).
Proof. intros H id r Hin. apply In_delete in Hin. eauto. Qed.

Lemma user_switch_playback_all socketId roomId room adminUser action rooms :
  playback_all Q rooms ->
  JsMap.get roomId rooms = Some room ->
  playback_all Q
    (fst (user_switch socketId roomId room adminUser action rooms)).
Proof.
  intros Inv Hget.
  pose proof (playback_all_get _ _ _ Inv Hget) as Hr.
  destruct action as [t|t|[p|]|a]; simpl; auto.
  - unfold kick_user.
    destruct (truthy_target t); [|exact Inv].
    destruct (JsMap.find_key _ _) as [k|]; [|exact Inv].
    destruct (truthy_string k); [|exact Inv].
    destruct (JsMap.get k _); [|exact Inv].
    simpl. now apply playback_all_set.
  - unfold transfer_admin.
    destruct (truthy_target t); [|exact Inv].
    destruct (JsMap.find_key _ _) as [k|]; [|exact Inv].
    destruct (truthy_string k); [|exact Inv].
    destruct (JsMap.get k _); [|exact Inv].
    simpl. now apply playback_all_set.
  - now apply playback_all_set.
Qed.

Lemma server_disconnect_loop_playback_all socketId entries rooms :
  playback_all Q rooms ->
  (forall e, In e entries -> Q (Room.playbackState (snd e))) ->
  playback_all Q (fst (Server.disconnect_loop socketId entries rooms)).
Proof.
  intros Inv.
  induction entries as [|[roomId room] rest IH]; simpl; intros Hsub; [exact Inv|].
  destruct (JsMap.get socketId (Room.participants room)) as [user|].
  - assert (Inv1 : playback_all Q
      (JsMap.set roomId
         (Room.with_participants
            (JsMap.delete socketId (Room.participants room)) room) rooms)).
    { apply playback_all_set; [exact Inv|]. simpl.
      apply (Hsub (roomId, room)). now left. }
    simpl. destruct (Nat.eqb _ 0); auto using playback_all_delete.
  - apply IH. intros e He. apply Hsub. now right.
Qed.

Lemma manager_disconnect_loop_playback_all socketId entries : forall rooms,
  playback_all Q rooms ->
  (forall e, In e entries -> Q (Room.playbackState (snd e))) ->
  playback_all Q (fst (Manager.disconnect_loop socketId entries rooms)).
Proof.
  induction entries as [|[roomId room] rest IH]; intros rooms Inv Hsub;
    [exact Inv|].
  rewrite manager_disconnect_loop_fst.
  assert (Hrest : forall e, In e rest -> Q (Room.playbackState (snd e)))
    by (intros e He; apply Hsub; now right).
  destruct (JsMap.get socketId (Room.participants room)) as [user|];
    [|now apply IH].
  cbv zeta. apply IH; [|exact Hrest].
  assert (Inv1 : playback_all Q
      (JsMap.set roomId
         (Room.with_participants
            (JsMap.delete socketId (Room.participants room)) room) rooms)).
  { apply playback_all_set; [exact Inv|]. simpl.
    apply (Hsub (roomId, room)). now left. }
  destruct (Nat.eqb _ 0); auto using playback_all_delete.
Qed.

Lemma playback_all_entries rooms :
  playback_all Q rooms ->
  forall e, In e rooms -> Q (Room.playbackState (snd e)).
Proof. intros H [id r] Hin. exact (H id r Hin). Qed.

Lemma server_handle_playback_all now req rooms :
  playback_all Q rooms -> playback_all Q (fst (Server.handle now req rooms)).
Proof.
  intros Inv. destruct req; simpl.
  - unfold Server.join_room.
    destruct (_ || _); [exact Inv|].
    destruct (JsMap.get roomId rooms) as [room|] eqn:Hget.
    + destruct (_ >=? _); [exact Inv|]. simpl.
      apply playback_all_set; [exact Inv|]. simpl.
      eapply playback_all_get; eauto.
    + assert (Inv1 : playback_all Q
                (JsMap.set roomId (Server.newRoom roomId user now) rooms)).
      { apply playback_all_set; [exact Inv|]. apply Q_init. }
      destruct (_ >=? _); [exact Inv1|]. simpl.
      apply playback_all_set; [exact Inv1|]. apply Q_init.
  - unfold Server.request_sync.
    destruct (JsMap.get roomId rooms); exact Inv.
  - apply server_disconnect_loop_playback_all;
      [exact Inv|now apply playback_all_entries].
  - unfold Server.send_message.
    destruct (JsMap.get roomId rooms) as [room|] eqn:Hget; [|exact Inv].
    destruct (JsMap.has _ _); [|exact Inv].
    simpl. apply playback_all_set; [exact Inv|]. simpl.
    eapply playback_all_get; eauto.
  - destruct (JsMap.get roomId rooms) as [room|] eqn:Hget;
      [|unfold Server.add_song; rewrite Hget; exact Inv].
    destruct (JsMap.has socketId (Room.participants room)) eqn:Hhas;
      [|unfold Server.add_song; rewrite Hget, Hhas; exact Inv].
    rewrite (server_add_song_push _ _ _ _ _ _ Hget Hhas).
    apply playback_all_set; [exact Inv|]. simpl.
    apply Q_push. eapply playback_all_get; eauto.
  - unfold Server.playback_control.
    destruct (JsMap.get roomId rooms) as [room|] eqn:Hget; [|exact Inv].
    destruct (JsMap.get socketId _); [|exact Inv].
    destruct (_ && _); [exact Inv|].
    simpl. apply playback_all_set; [exact Inv|]. simpl.
    apply Q_switch. eapply playback_all_get; eauto.
  - unfold Server.user_action.
    destruct (JsMap.get roomId rooms) as [room|] eqn:Hget; [|exact Inv].
    destruct (JsMap.get socketId _) as [adminUser|]; [|exact Inv].
    destruct (negb _); [exact Inv|].
    now apply user_switch_playback_all.
  - unfold Server.close_room.
    destruct (JsMap.get roomId rooms) as [room|]; [|exact Inv].
    destruct (JsMap.get socketId _) as [user|]; [|exact Inv].
    destruct (negb _); [exact Inv|].
    simpl. now apply playback_all_delete.
Qed.

Lemma manager_handle_playback_all now req rooms :
  playback_all Q rooms -> playback_all Q (fst (Manager.handle now req rooms)).
Proof.
  intros Inv. destruct req; simpl.
  - unfold Manager.join_room.
    destruct (JsMap.get roomId rooms) as [room|] eqn:Hget.
    + destruct (_ >=? _); [exact Inv|]. simpl.
      apply playback_all_set; [exact Inv|]. simpl.
      eapply playback_all_get; eauto.
    + assert (Inv1 : playback_all Q
                (JsMap.set roomId (Server.newRoom roomId user now) rooms)).
      { apply playback_all_set; [exact Inv|]. apply Q_init. }
      destruct (_ >=? _); [exact Inv1|]. simpl.
      apply playback_all_set; [exact Inv1|]. apply Q_init.
  - unfold Manager.request_sync.
    destruct (JsMap.get roomId rooms); exact Inv.
  - apply manager_disconnect_loop_playback_all;
      [exact Inv|now apply playback_all_entries].
  - unfold Manager.send_message.
    destruct (JsMap.get roomId rooms) as [room|] eqn:Hget; [|exact Inv].
    simpl. apply playback_all_set; [exact Inv|]. simpl.
    eapply playback_all_get; eauto.
  - destruct (JsMap.get roomId rooms) as [room|] eqn:Hget;
      [|unfold Manager.add_song; rewrite Hget; exact Inv].
    rewrite (manager_add_song_push _ _ _ _ _ _ Hget).
    apply playback_all_set; [exact Inv|]. simpl.
    apply Q_push. eapply playback_all_get; eauto.
  - pose proof (manager_control_result socketId roomId action now rooms) as H.
    simpl in H.
    destruct (JsMap.get roomId rooms) as [room|] eqn:Hget;
      [|now rewrite H].
    destruct (_ || _); [|now rewrite H].
    destruct H as [timer ->].
    apply playback_all_set; [exact Inv|]. simpl.
    apply Q_switch. eapply playback_all_get; eauto.
  - unfold Manager.user_action.
    destruct (JsMap.get roomId rooms) as [room|] eqn:Hget; [|exact Inv].
    destruct (JsMap.get socketId _) as [adminUser|]; [|exact Inv].
    destruct (negb _); [exact Inv|].
    now apply user_switch_playback_all.
  - unfold Manager.close_room.
    destruct (JsMap.get roomId rooms) as [room|]; [|exact Inv].
    destruct (JsMap.get socketId _) as [user|]; [|exact Inv].
    destruct (negb _); [exact Inv|].
    simpl. now apply playback_all_delete.
  - unfold Manager.broadcastSync.
    destruct (JsMap.get roomId rooms) as [room|]; [|exact Inv].
    destruct (negb _); exact Inv.
Qed.

Lemma server_run_playback_all reqs : forall rooms,
  playback_all Q rooms -> playback_all Q (fst (Server.run reqs rooms)).
Proof.
  induction reqs as [|[now req] rest IH]; intros rooms Inv; [exact Inv|].
  rewrite run_fst. apply IH. now apply server_handle_playback_all.
Qed.

Lemma manager_run_playback_all reqs : forall rooms,
  playback_all Q rooms -> playback_all Q (fst (Manager.run reqs rooms)).
Proof.
  induction reqs as [|[now req] rest IH]; intros rooms Inv; [exact Inv|].
  rewrite manager_run_fst. apply IH. now apply manager_handle_playback_all.
Qed.

End PlaybackInvariant.

Lemma song_ok_switch now a s : song_ok s -> song_ok (playback_switch now a s).
Proof.
  destruct s as [song playing ct vol pl idx sst pst lst].
  unfold song_ok. simpl. intros Hok.
  destruct a; simpl; try exact Hok; try (destruct playing; exact Hok).
  - destruct (idx <? Z.of_nat (List.length pl) - 1) eqn:E; [|exact Hok].
    apply Z.ltb_lt in E.
    destruct Hok as [(-> & -> & _)|(Hidx & _)]; [simpl in E; lia|].
    right. destruct playing; simpl;
      (split; [lia|now rewrite playlist_at_nth by lia]).
  - destruct (0 <? idx) eqn:E; [|exact Hok].
    apply Z.ltb_lt in E.
    destruct Hok as [(-> & _)|(Hidx & _)]; [lia|].
    right. destruct playing; simpl;
      (split; [lia|now rewrite playlist_at_nth by lia]).
Qed.

Lemma song_ok_push song s : song_ok s -> song_ok (push_song song s).
Proof.
  destruct s as [cur playing ct vol pl idx sst pst lst].
  unfold song_ok. simpl. intros Hok.
  destruct cur as [c|].
  - destruct Hok as [(_ & _ & Hnone)|(Hidx & Hsong)]; [discriminate|].
    right. simpl. rewrite length_app. simpl. split; [lia|].
    rewrite nth_error_app1 by lia. exact Hsong.
  - destruct Hok as [(-> & -> & _)|(Hidx & Hsong)].
    + simpl. right. simpl. split; [lia|reflexivity].
    + symmetry in Hsong. apply nth_error_None in Hsong. lia.
Qed.

(** X6.  In every state either server reaches from the empty room table,
    whatever the requests, the current song of every room is the playlist
    entry at the current index: the index is -1 with no current song
    exactly while the playlist is empty, and is otherwise a valid position
    of the playlist. *)
Theorem current_song_is_playlist_entry
    (reqs : list (Z * Server.Request)) (reqs' : list (Z * Manager.Request)) :
  playback_all song_ok (fst (Server.run reqs []))
  /\ playback_all song_ok (fst (Manager.run reqs' [])).
Proof.
  assert (Hinit : forall now, song_ok (initial_playback now))
    by (intros now; left; auto).
  split.
  - apply (server_run_playback_all song_ok Hinit song_ok_switch song_ok_push).
    intros ? ? [].
  - apply (manager_run_playback_all song_ok Hinit song_ok_switch song_ok_push).
    intros ? ? [].
Qed.

Lemma anchor_shape_switch now a s :
  anchor_shape s -> anchor_shape (playback_switch now a s).
Proof.
  destruct s as [song playing ct vol pl idx sst pst lst].
  unfold anchor_shape. simpl. intros Hok.
  destruct a; simpl; try exact Hok.
  - left. repeat split; discriminate.
  - right. auto.
  - destruct playing; simpl; [left; repeat split; discriminate|exact Hok].
  - destruct (idx <? _); [|exact Hok].
    destruct playing; simpl; [left; repeat split; discriminate|exact Hok].
  - destruct (0 <? idx); [|exact Hok].
    destruct playing; simpl; [left; repeat split; discriminate|exact Hok].
Qed.

Lemma anchor_shape_push song s :
  anchor_shape s -> anchor_shape (push_song song s).
Proof.
  destruct s as [cur playing ct vol pl idx sst pst lst].
  unfold anchor_shape. simpl. intros Hok.
  destruct cur; [exact Hok|]. destruct (Nat.eqb _ 1); exact Hok.
Qed.

(** X7.  In every state either server reaches from the empty room table,
    every room is playing exactly when it has an anchor: while [isPlaying]
    holds both [serverStartTime] and [playbackStartTime] are set, and while
    it does not both are null. *)
Theorem playing_iff_anchored
    (reqs : list (Z * Server.Request)) (reqs' : list (Z * Manager.Request)) :
  playback_all anchor_shape (fst (Server.run reqs []))
  /\ playback_all anchor_shape (fst (Manager.run reqs' [])).
Proof.
  assert (Hinit : forall now, anchor_shape (initial_playback now))
    by (intros now; right; auto).
  split.
  - apply (server_run_playback_all anchor_shape Hinit anchor_shape_switch
             anchor_shape_push).
    intros ? ? [].
  - apply (manager_run_playback_all anchor_shape Hinit anchor_shape_switch
             anchor_shape_push).
    intros ? ? [].
Qed.

(** ** The timer of [WebSocketManager] *)

Section Timer.
Import JsMapFacts.

Lemma timer_get roomId room rooms :
  timer_follows_play rooms -> JsMap.get roomId rooms = Some room ->
  timer_ok room.
Proof. intros H Hg. apply get_In in Hg. exact (H _ _ Hg). Qed.

Lemma timer_set roomId room rooms :
  timer_follows_play rooms -> timer_ok room ->
  timer_follows_play (JsMap.set roomId room rooms).
Proof.
  intros H Hr id r Hin.
  apply In_set in Hin as [E|Hin]; [|eauto].
  injection E as -> ->. exact Hr.
Qed.

Lemma timer_delete roomId rooms :
  timer_follows_play rooms -> timer_follows_play (JsMap.delete roomId rooms).
Proof. intros H id r Hin. apply In_delete in Hin. eauto. Qed.

Lemma push_song_isPlaying song s :
  PlaybackState.isPlaying (push_song song s) = PlaybackState.isPlaying s.
Proof.
  destruct s as [cur playing ct vol pl idx sst pst lst]. simpl.
  destruct cur; [reflexivity|]. now destruct (Nat.eqb _ 1).
Qed.

Lemma manager_disconnect_loop_timer socketId entries : forall rooms,
  timer_follows_play rooms ->
  (forall e, In e entries -> timer_ok (snd e)) ->
  timer_follows_play (fst (Manager.disconnect_loop socketId entries rooms)).
Proof.
  induction entries as [|[roomId room] rest IH]; intros rooms Inv Hsub;
    [exact Inv|].
  rewrite manager_disconnect_loop_fst.
  assert (Hrest : forall e, In e rest -> timer_ok (snd e))
    by (intros e He; apply Hsub; now right).
  destruct (JsMap.get socketId (Room.participants room)) as [user|];
    [|now apply IH].
  cbv zeta. apply IH; [|exact Hrest].
  assert (Inv1 : timer_follows_play
      (JsMap.set roomId
         (Room.with_participants
            (JsMap.delete socketId (Room.participants room)) room) rooms)).
  { apply timer_set; [exact Inv|]. apply (Hsub (roomId, room)). now left. }
  destruct (Nat.eqb _ 0); auto using timer_delete.
Qed.

Lemma manager_control_timer socketId roomId action now rooms :
  timer_follows_play rooms ->
  timer_follows_play
    (fst (Manager.playback_control socketId roomId action now rooms)).
Proof.
  intros Inv. unfold Manager.playback_control.
  destruct (JsMap.get roomId rooms) as [room|] eqn:Hget; [|exact Inv].
  destruct (_ && _); [exact Inv|].
  pose proof (timer_get _ _ _ Inv Hget) as Hr. unfold timer_ok in Hr.
  destruct room as [id name creator parts log s settings created timer].
  destruct s as [song playing ct vol pl idx sst pst lst].
  simpl in Hr. subst timer.
  destruct action, playing; simpl;
    repeat match goal with
           | |- context [if ?b then _ else _] => destruct b; simpl
           end;
    apply timer_set; try exact Inv; reflexivity.
Qed.

Lemma manager_handle_timer now req rooms :
  timer_follows_play rooms ->
  timer_follows_play (fst (Manager.handle now req rooms)).
Proof.
  intros Inv. destruct req; simpl.
  - unfold Manager.join_room.
    destruct (JsMap.get roomId rooms) as [room|] eqn:Hget.
    + destruct (_ >=? _); [exact Inv|]. simpl.
      apply timer_set; [exact Inv|].
      exact (timer_get _ _ _ Inv Hget).
    + assert (Inv1 : timer_follows_play
                (JsMap.set roomId (Server.newRoom roomId user now) rooms))
        by (apply timer_set; [exact Inv|reflexivity]).
      destruct (_ >=? _); [exact Inv1|]. simpl.
      apply timer_set; [exact Inv1|reflexivity].
  - unfold Manager.request_sync.
    destruct (JsMap.get roomId rooms); exact Inv.
  - apply manager_disconnect_loop_timer; [exact Inv|].
    intros [id r] Hin. exact (Inv id r Hin).
  - unfold Manager.send_message.
    destruct (JsMap.get roomId rooms) as [room|] eqn:Hget; [|exact Inv].
    simpl. apply timer_set; [exact Inv|].
    exact (timer_get _ _ _ Inv Hget).
  - destruct (JsMap.get roomId rooms) as [room|] eqn:Hget;
      [|unfold Manager.add_song; rewrite Hget; exact Inv].
    rewrite (manager_add_song_push _ _ _ _ _ _ Hget).
    apply timer_set; [exact Inv|]. unfold timer_ok. simpl.
    rewrite push_song_isPlaying. exact (timer_get _ _ _ Inv Hget).
  - now apply manager_control_timer.
  - unfold Manager.user_action.
    destruct (JsMap.get roomId rooms) as [room|] eqn:Hget; [|exact Inv].
    pose proof (timer_get _ _ _ Inv Hget) as Hr.
    destruct (JsMap.get socketId _) as [adminUser|]; [|exact Inv].
    destruct (negb _); [exact Inv|].
    destruct action as [t|t|[p|]|a]; simpl; auto.
    + unfold kick_user.
      destruct (truthy_target t); [|exact Inv].
      destruct (JsMap.find_key _ _) as [k|]; [|exact Inv].
      destruct (truthy_string k); [|exact Inv].
      destruct (JsMap.get k _); [|exact Inv].
      simpl. now apply timer_set.
    + unfold transfer_admin.
      destruct (truthy_target t); [|exact Inv].
      destruct (JsMap.find_key _ _) as [k|]; [|exact Inv].
      destruct (truthy_string k); [|exact Inv].
      destruct (JsMap.get k _); [|exact Inv].
      simpl. now apply timer_set.
    + now apply timer_set.
  - unfold Manager.close_room.
    destruct (JsMap.get roomId rooms) as [room|]; [|exact Inv].
    destruct (JsMap.get socketId _) as [user|]; [|exact Inv].
    destruct (negb _); [exact Inv|].
    simpl. now apply timer_delete.
  - unfold Manager.broadcastSync.
    destruct (JsMap.get roomId rooms) as [room|]; [|exact Inv].
    destruct (negb _); exact Inv.
Qed.

Lemma manager_run_timer reqs : forall rooms,
  timer_follows_play rooms ->
  timer_follows_play (fst (Manager.run reqs rooms)).
Proof.
  induction reqs as [|[now req] rest IH]; intros rooms Inv; [exact Inv|].
  rewrite manager_run_fst. apply IH. now apply manager_handle_timer.
Qed.

End Timer.

(** X8.  In every state [WebSocketManager] reaches from the empty room
    table, the periodic sync timer of a room is installed exactly while the
    room is playing; so a timer that fires finds its room playing and
    broadcasts one [sync-update] to the room. *)
Theorem timer_runs_while_playing (reqs : list (Z * Manager.Request)) :
  timer_follows_play (fst (Manager.run reqs []))
  /\ forall roomId room now,
       JsMap.get roomId (fst (Manager.run reqs [])) = Some room ->
       Room.syncInterval room = true ->
       exists s,
         Manager.broadcastSync roomId now (fst (Manager.run reqs []))
         = (fst (Manager.run reqs []), [Emit (IoTo roomId) (SyncUpdate s now)]).
Proof.
  assert (Inv : timer_follows_play (fst (Manager.run reqs [])))
    by (apply manager_run_timer; intros ? ? []).
  split; [exact Inv|].
  intros roomId room now Hget Htimer.
  pose proof (Inv _ _ (JsMapFacts.get_In _ _ _ Hget)) as Hr.
  unfold Manager.broadcastSync. rewrite Hget. cbv zeta.
  rewrite <- Hr, Htimer. simpl. eauto.
Qed.

(** ** The life of a room (stand-alone server) *)

Section TableEnd.
Context {V : Type}.
Implicit Types (m : JsMap.t V) (k : string) (v : V).

Lemma set_absent k v m :
  JsMap.get k m = None -> JsMap.set k v m = (m ++ [(k, v)])%list.
Proof.
  induction m as [|[k0 v0] m IH]; simpl; [reflexivity|].
  destruct (String.eqb k0 k); [discriminate|].
  intros H. now rewrite IH.
Qed.

Lemma set_last k v v' m :
  JsMap.get k m = None ->
  JsMap.set k v' (m ++ [(k, v)])%list = (m ++ [(k, v')])%list.
Proof.
  induction m as [|[k0 v0] m IH]; simpl.
  - now rewrite String.eqb_refl.
  - destruct (String.eqb k0 k); [discriminate|].
    intros H. now rewrite IH.
Qed.

Lemma delete_last k v m :
  JsMap.get k m = None -> JsMap.delete k (m ++ [(k, v)])%list = m.
Proof.
  induction m as [|[k0 v0] m IH]; simpl.
  - now rewrite String.eqb_refl.
  - destruct (String.eqb k0 k); [discriminate|].
    intros H. now rewrite IH.
Qed.

Lemma get_last k v m :
  JsMap.get k m = None -> JsMap.get k (m ++ [(k, v)])%list = Some v.
Proof.
  induction m as [|[k0 v0] m IH]; simpl.
  - now rewrite String.eqb_refl.
  - destruct (String.eqb k0 k); [discriminate|]. exact IH.
Qed.

End TableEnd.

Lemma truthy_string_true s : s <> "" -> truthy_string s = true.
Proof.
  intros H. unfold truthy_string. apply String.eqb_neq in H. now rewrite H.
Qed.

Lemma join_new_room socketId roomId user now rooms :
  valid_join roomId user ->
  JsMap.get roomId rooms = None ->
  Server.join_room socketId roomId user now rooms
  = ((rooms ++ [(roomId, created_room socketId roomId user now)])%list,
     [Join socketId roomId;
      Emit (SocketEmit socketId)
        (RoomState
           (mkRoomInfo roomId ("Room " ++ roomId) (JoinUser.name user)
              (RoomSettings.mk false 50 true false))
           [first_slot user now] [] (initial_playback now) now)]).
Proof.
  intros [Hr Hn] Hget. unfold Server.join_room.
  rewrite (truthy_string_true _ Hr), (truthy_string_true _ Hn), Hget. simpl.
  rewrite (set_absent _ _ _ Hget), (set_last _ _ _ _ Hget). reflexivity.
Qed.

(** X9.  A valid join to a room identifier that is not in the table
    creates the room at the end of the table with the joiner as its only
    participant, as admin whatever [isAdmin] the request carried, and as
    creator, with an empty chat log and playlist and the default settings;
    the joiner receives the room snapshot and nobody else is told. *)
Theorem first_join_creates_room
    (socketId roomId : string) (user : JoinUser.t) (now : Z) (rooms : Rooms) :
  valid_join roomId user ->
  JsMap.get roomId rooms = None ->
  Server.join_room socketId roomId user now rooms
  = ((rooms ++ [(roomId, created_room socketId roomId user now)])%list,
     [Join socketId roomId;
      Emit (SocketEmit socketId)
        (RoomState
           (mkRoomInfo roomId ("Room " ++ roomId) (JoinUser.name user)
              (RoomSettings.mk false 50 true false))
           [first_slot user now] [] (initial_playback now) now)]).
Proof. apply join_new_room. Qed.

Lemma first_join_creates_room_witness :
  Server.join_room "s9" "ZZZ999" Sample.carol 7000
    (fst (Server.run Sample.two_members []))
  = ((fst (Server.run Sample.two_members [])
      ++ [("ZZZ999", created_room "s9" "ZZZ999" Sample.carol 7000)])%list,
     [Join "s9" "ZZZ999";
      Emit (SocketEmit "s9")
        (RoomState
           (mkRoomInfo "ZZZ999" "Room ZZZ999" "Carol"
              (RoomSettings.mk false 50 true false))
           [first_slot Sample.carol 7000] [] (initial_playback 7000) 7000)]).
Proof.
  apply (first_join_creates_room "s9" "ZZZ999" Sample.carol 7000).
  - split; discriminate.
  - reflexivity.
Defined.

Lemma server_disconnect_loop_skip socketId table : forall before rest,
  in_no_room socketId before ->
  Server.disconnect_loop socketId (before ++ rest)%list table
  = Server.disconnect_loop socketId rest table.
Proof.
  induction before as [|[roomId room] before IH]; intros rest Hout;
    [reflexivity|].
  simpl. rewrite (Hout roomId room) by now left.
  apply IH. intros id r Hin. apply (Hout id r). now right.
Qed.

(** X10.  Leaving right after creating a room puts the table back as it
    was: when a connection that has no slot in any room creates a room by
    joining and then disconnects, the room is deleted and the table is the
    one from before the join; the only event is a [user-left] with an empty
    roster. *)
Theorem join_then_disconnect_restores_table
    (socketId roomId : string) (user : JoinUser.t) (now : Z) (rooms : Rooms) :
  valid_join roomId user ->
  JsMap.get roomId rooms = None ->
  in_no_room socketId rooms ->
  Server.disconnect socketId
    (fst (Server.join_room socketId roomId user now rooms))
  = (rooms, [Emit (SocketTo roomId socketId) (UserLeft (JoinUser.name user) [])]).
Proof.
  intros Hvalid Hget Hout.
  rewrite (join_new_room _ _ _ _ _ Hvalid Hget). simpl.
  unfold Server.disconnect.
  rewrite (server_disconnect_loop_skip _ _ _ _ Hout). simpl.
  rewrite String.eqb_refl. simpl.
  rewrite JsMapFacts.delete_set_same, (delete_last _ _ _ Hget). reflexivity.
Qed.

Lemma join_then_disconnect_restores_table_witness :
  let rooms := fst (Server.run Sample.two_members []) in
  Server.disconnect "s9"
    (fst (Server.join_room "s9" "ZZZ999" Sample.carol 7000 rooms))
  = (rooms, [Emit (SocketTo "ZZZ999" "s9") (UserLeft "Carol" [])]).
Proof.
  intros rooms.
  apply (join_then_disconnect_restores_table "s9" "ZZZ999" Sample.carol 7000).
  - split; discriminate.
  - reflexivity.
  - intros id r Hin. vm_compute in Hin.
    destruct Hin as [E|[]]. injection E as _ <-. reflexivity.
Defined.

(** X11.  Closing a room removes it for good: after the admin's
    [close-room] the identifier is not in the table any more, everybody in
    the room is sent one [room-closed], and a later valid join under the
    same identifier starts a new room (empty chat log and playlist) with
    the joiner as admin. *)
Theorem close_then_join_starts_fresh
    (socketId roomId : string) (rooms : Rooms) (room : Room.t)
    (user : Participant.t) (socketId' : string) (user' : JoinUser.t)
    (now : Z) :
  distinct_keys rooms ->
  JsMap.get roomId rooms = Some room ->
  JsMap.get socketId (Room.participants room) = Some user ->
  Participant.isAdmin user = true ->
  valid_join roomId user' ->
  let closed := Server.close_room socketId roomId rooms in
  snd closed
  = [Emit (IoTo roomId)
       (RoomClosed ("Room closed by " ++ Participant.name user))]
  /\ JsMap.get roomId (fst closed) = None
  /\ fst (Server.join_room socketId' roomId user' now (fst closed))
     = (fst closed ++ [(roomId, created_room socketId' roomId user' now)])%list.
Proof.
  intros Hnd Hget Hslot Hadm Hvalid closed. subst closed.
  unfold Server.close_room. rewrite Hget, Hslot, Hadm. simpl.
  pose proof (get_delete_same roomId rooms Hnd) as Hgone.
  split; [reflexivity|]. split; [exact Hgone|].
  now rewrite (join_new_room _ _ _ _ _ Hvalid Hgone).
Qed.

Lemma close_then_join_starts_fresh_witness :
  let rooms := fst (Server.run Sample.scenario []) in
  let closed := Server.close_room "s1" "ABC123" rooms in
  snd closed = [Emit (IoTo "ABC123") (RoomClosed "Room closed by Alice")]
  /\ JsMap.get "ABC123" (fst closed) = None
  /\ fst (Server.join_room "s2" "ABC123" Sample.carol 9000 (fst closed))
     = (fst closed ++ [("ABC123", created_room "s2" "ABC123" Sample.carol 9000)])%list.
Proof.
  intros rooms.
  destruct (JsMap.get "ABC123" rooms) as [room|] eqn:Hget;
    [|vm_compute in Hget; discriminate].
  destruct (JsMap.get "s1" (Room.participants room)) as [user|] eqn:Hslot;
    [|vm_compute in Hget; injection Hget as <-; vm_compute in Hslot;
      discriminate].
  assert (Hname : Participant.name user = "Alice"
                  /\ Participant.isAdmin user = true).
  { vm_compute in Hget. injection Hget as <-.
    vm_compute in Hslot. injection Hslot as <-. split; reflexivity. }
  destruct Hname as [Hname Hadm].
  assert (Hnd : distinct_keys rooms).
  { vm_compute. repeat constructor. intros []. }
  assert (Hvalid : valid_join "ABC123" Sample.carol) by (split; discriminate).
  pose proof (close_then_join_starts_fresh "s1" "ABC123" rooms room user "s2"
                Sample.carol 9000 Hnd Hget Hslot Hadm Hvalid) as H.
  rewrite Hname in H. exact H.
Defined.

Lemma full_room_rejects socketId roomId user now rooms room :
  valid_join roomId user ->
  JsMap.get roomId rooms = Some room ->
  RoomSettings.maxParticipants (Room.settings room)
  <= Z.of_nat (JsMap.size (Room.participants room)) ->
  Server.join_room socketId roomId user now rooms
  = (rooms, [Emit (SocketEmit socketId) (RoomError "Room is full")]).
Proof.
  intros [Hr Hn] Hget Hfull. unfold Server.join_room.
  rewrite (truthy_string_true _ Hr), (truthy_string_true _ Hn), Hget. simpl.
  replace (_ >=? _) with true; [reflexivity|].
  symmetry. rewrite Z.geb_leb. now apply Z.leb_le.
Qed.

(** X12.  Lowering [maxParticipants] to or below the number of
    participants evicts nobody and only closes the door: after the admin's
    [update-settings] the participants of the room are the same, and a
    valid join to the room handled in that state, by whatever connection
    and participant (a re-join of a present participant included), is
    answered with "Room is full" and changes nothing. *)
Theorem lowered_capacity_only_gates_joins
    (socketId roomId : string) (patch : RoomSettings.patch) (cap : Z)
    (rooms : Rooms) (room : Room.t) (adminUser : Participant.t)
    (socketId' : string) (user' : JoinUser.t) (now : Z) :
  JsMap.get roomId rooms = Some room ->
  JsMap.get socketId (Room.participants room) = Some adminUser ->
  Participant.isAdmin adminUser = true ->
  RoomSettings.p_maxParticipants patch = Some cap ->
  cap <= Z.of_nat (JsMap.size (Room.participants room)) ->
  valid_join roomId user' ->
  let rooms' :=
    fst (Server.user_action socketId roomId (UpdateSettings (Some patch))
           rooms) in
  ServerProps.participants_of roomId rooms' = Some (Room.participants room)
  /\ Server.join_room socketId' roomId user' now rooms'
     = (rooms', [Emit (SocketEmit socketId') (RoomError "Room is full")]).
Proof.
  intros Hget Hslot Hadm Hcap Hle Hvalid rooms'. subst rooms'.
  unfold Server.user_action. rewrite Hget, Hslot, Hadm. simpl.
  split.
  - unfold ServerProps.participants_of.
    now rewrite JsMapFacts.get_set_same.
  - eapply full_room_rejects; [exact Hvalid|apply JsMapFacts.get_set_same|].
    simpl. rewrite Hcap. exact Hle.
Qed.

Lemma lowered_capacity_only_gates_joins_witness :
  let rooms := fst (Server.run Sample.two_members []) in
  let patch := RoomSettings.mk_patch None (Some 1) None None in
  let rooms' :=
    fst (Server.user_action "s1" "ABC123" (UpdateSettings (Some patch))
           rooms) in
  JsMap.size
    (RoomSettings.or_else (ServerProps.participants_of "ABC123" rooms') [])
  = 2%nat
  /\ Server.join_room "s3" "ABC123" Sample.bob 5000 rooms'
     = (rooms', [Emit (SocketEmit "s3") (RoomError "Room is full")]).
Proof.
  intros rooms patch.
  destruct (JsMap.get "ABC123" rooms) as [room|] eqn:Hget;
    [|vm_compute in Hget; discriminate].
  destruct (JsMap.get "s1" (Room.participants room)) as [user|] eqn:Hslot;
    [|vm_compute in Hget; injection Hget as <-; vm_compute in Hslot;
      discriminate].
  assert (Hfacts : Participant.isAdmin user = true
                   /\ JsMap.size (Room.participants room) = 2%nat).
  { vm_compute in Hget. injection Hget as <-.
    vm_compute in Hslot. injection Hslot as <-. split; reflexivity. }
  destruct Hfacts as [Hadm Hsize].
  assert (Hle : 1 <= Z.of_nat (JsMap.size (Room.participants room)))
    by (rewrite Hsize; discriminate).
  assert (Hvalid : valid_join "ABC123" Sample.bob) by (split; discriminate).
  destruct (lowered_capacity_only_gates_joins "s1" "ABC123" patch 1 rooms room
              user "s3" Sample.bob 5000 Hget Hslot Hadm eq_refl Hle Hvalid)
    as [H1 H2].
  split; [|exact H2].
  rewrite H1. exact Hsize.
Defined.

(** ** Who may do what *)

(** X13.  The stand-alone server ignores a connection that has no slot in
    the room it names: its [send-message], [add-song], [playback-control],
    [user-action] and [close-room] requests change nothing and send
    nothing, to the caller or to anyone. *)
Theorem outsider_requests_are_ignored
    (socketId roomId message user rand : string) (song : NewSong.t)
    (control : Control) (act : UserAct) (now : Z) (rooms : Rooms) :
  outsider socketId roomId rooms ->
  silent rooms (Server.send_message socketId roomId message user rand now rooms)
  /\ silent rooms (Server.add_song socketId roomId song now rooms)
  /\ silent rooms (Server.playback_control socketId roomId control now rooms)
  /\ silent rooms (Server.user_action socketId roomId act rooms)
  /\ silent rooms (Server.close_room socketId roomId rooms).
Proof.
  unfold outsider, silent, Server.send_message, Server.add_song,
    Server.playback_control, Server.user_action, Server.close_room,
    JsMap.has.
  destruct (JsMap.get roomId rooms) as [room|]; [|auto 10].
  intros ->. auto 10.
Qed.

Lemma outsider_requests_are_ignored_witness :
  let rooms := fst (Server.run Sample.two_members []) in
  silent rooms
    (Server.send_message "s7" "ABC123" "hello" "Mallory" "r4nd" 5000 rooms)
  /\ silent rooms (Server.add_song "s7" "ABC123" Sample.track 5000 rooms)
  /\ silent rooms (Server.playback_control "s7" "ABC123" Pause 5000 rooms)
  /\ silent rooms
       (Server.user_action "s7" "ABC123" (KickUser (Some "user_alice")) rooms)
  /\ silent rooms (Server.close_room "s7" "ABC123" rooms).
Proof.
  intros rooms.
  apply (outsider_requests_are_ignored "s7" "ABC123" "hello" "Mallory" "r4nd"
           Sample.track Pause (KickUser (Some "user_alice")) 5000 rooms).
  reflexivity.
Defined.

(** X14.  Room management is the admin's: from a participant whose slot
    has [isAdmin = false], every [user-action] (kick, transfer,
    settings, anything) and [close-room] leaves the table unchanged, in
    both servers, and the only effect is one [permission-denied] to the
    caller. *)
Theorem management_needs_admin
    (socketId roomId : string) (act : UserAct) (rooms : Rooms)
    (room : Room.t) (user : Participant.t) :
  JsMap.get roomId rooms = Some room ->
  JsMap.get socketId (Room.participants room) = Some user ->
  Participant.isAdmin user = false ->
  let denied msg := (rooms, [Emit (SocketEmit socketId) (PermissionDenied msg)]) in
  Server.user_action socketId roomId act rooms
  = denied "Only admins can perform this action"
  /\ Manager.user_action socketId roomId act rooms
     = denied "Only admins can perform this action"
  /\ Server.close_room socketId roomId rooms
     = denied "Only admins can close the room"
  /\ Manager.close_room socketId roomId rooms
     = denied "Only admins can close the room".
Proof.
  intros Hget Hslot Hadm denied. subst denied.
  unfold Server.user_action, Manager.user_action, Server.close_room,
    Manager.close_room.
  rewrite Hget, Hslot, Hadm. simpl. auto.
Qed.

Lemma management_needs_admin_witness :
  let rooms := fst (Server.run Sample.two_members []) in
  let act := TransferAdmin (Some "user_carol") in
  let denied msg := (rooms, [Emit (SocketEmit "s2") (PermissionDenied msg)]) in
  Server.user_action "s2" "ABC123" act rooms
  = denied "Only admins can perform this action"
  /\ Manager.user_action "s2" "ABC123" act rooms
     = denied "Only admins can perform this action"
  /\ Server.close_room "s2" "ABC123" rooms
     = denied "Only admins can close the room"
  /\ Manager.close_room "s2" "ABC123" rooms
     = denied "Only admins can close the room".
Proof.
  intros rooms act.
  refine (management_needs_admin "s2" "ABC123" act rooms _ _ _ _ _).
  - vm_compute. reflexivity.
  - vm_compute. reflexivity.
  - reflexivity.
Defined.

(** X15.  Guest control takes effect at once: after the admin switches
    [allowGuestControl] on, a [playback-control] from any participant of
    the room, admin or not, is applied to the playback state and broadcast
    to the room. *)
Theorem guest_control_can_be_granted
    (socketId roomId : string) (patch : RoomSettings.patch) (rooms : Rooms)
    (room : Room.t) (adminUser : Participant.t)
    (guestSocket : string) (guest : Participant.t)
    (control : Control) (now : Z) :
  JsMap.get roomId rooms = Some room ->
  JsMap.get socketId (Room.participants room) = Some adminUser ->
  Participant.isAdmin adminUser = true ->
  RoomSettings.p_allowGuestControl patch = Some true ->
  JsMap.get guestSocket (Room.participants room) = Some guest ->
  let rooms' :=
    fst (Server.user_action socketId roomId (UpdateSettings (Some patch))
           rooms) in
  let s := playback_switch now control (Room.playbackState room) in
  ServerProps.playback_of roomId
    (fst (Server.playback_control guestSocket roomId control now rooms'))
  = Some s
  /\ snd (Server.playback_control guestSocket roomId control now rooms')
     = [Emit (IoTo roomId) (PlaybackStateChanged s now)].
Proof.
  intros Hget Hslot Hadm Hpatch Hguest rooms' s. subst rooms' s.
  unfold Server.user_action. rewrite Hget, Hslot, Hadm. simpl.
  unfold Server.playback_control. rewrite JsMapFacts.get_set_same. simpl.
  rewrite Hguest, Hpatch. simpl. rewrite andb_false_r. simpl.
  unfold ServerProps.playback_of. rewrite JsMapFacts.get_set_same.
  split; reflexivity.
Qed.

Lemma guest_control_can_be_granted_witness :
  let rooms := fst (Server.run Sample.two_members []) in
  let patch := RoomSettings.mk_patch (Some true) None None None in
  let rooms' :=
    fst (Server.user_action "s1" "ABC123" (UpdateSettings (Some patch))
           rooms) in
  exists s,
    ServerProps.playback_of "ABC123"
      (fst (Server.playback_control "s2" "ABC123" (Play None) 6000 rooms'))
    = Some s
    /\ PlaybackState.isPlaying s = true
    /\ snd (Server.playback_control "s2" "ABC123" (Play None) 6000 rooms')
       = [Emit (IoTo "ABC123") (PlaybackStateChanged s 6000)].
Proof.
  intros rooms patch.
  destruct (JsMap.get "ABC123" rooms) as [room|] eqn:Hget;
    [|vm_compute in Hget; discriminate].
  destruct (JsMap.get "s1" (Room.participants room)) as [user|] eqn:Hslot;
    [|vm_compute in Hget; injection Hget as <-; vm_compute in Hslot;
      discriminate].
  destruct (JsMap.get "s2" (Room.participants room)) as [guest|] eqn:Hguest;
    [|vm_compute in Hget; injection Hget as <-; vm_compute in Hguest;
      discriminate].
  assert (Hadm : Participant.isAdmin user = true).
  { vm_compute in Hget. injection Hget as <-.
    vm_compute in Hslot. injection Hslot as <-. reflexivity. }
  destruct (guest_control_can_be_granted "s1" "ABC123" patch rooms room user
              "s2" guest (Play None) 6000 Hget Hslot Hadm eq_refl Hguest)
    as [H1 H2].
  eexists. split; [exact H1|]. split; [|exact H2].
  now destruct (Room.playbackState room).
Defined.

(** X16.  A transfer hands the room over: after the admin's
    [transfer-admin] to another participant, the target's slot is admin,
    the caller's slot is not, the room's creator is the target's name and
    nobody joined or left; in that state every [user-action] of the former
    admin is denied and changes nothing. *)
Theorem transfer_hands_over
    (socketId roomId targetUserId targetSocket : string) (rooms : Rooms)
    (room : Room.t) (adminUser target : Participant.t) :
  JsMap.get roomId rooms = Some room ->
  JsMap.get socketId (Room.participants room) = Some adminUser ->
  Participant.isAdmin adminUser = true ->
  targetUserId <> "" ->
  JsMap.find_key (has_id targetUserId) (Room.participants room)
  = Some targetSocket ->
  targetSocket <> "" ->
  targetSocket <> socketId ->
  JsMap.get targetSocket (Room.participants room) = Some target ->
  let rooms' :=
    fst (Server.user_action socketId roomId
           (TransferAdmin (Some targetUserId)) rooms) in
  exists room',
    JsMap.get roomId rooms' = Some room'
    /\ JsMap.get targetSocket (Room.participants room')
       = Some (Participant.with_isAdmin true target)
    /\ JsMap.get socketId (Room.participants room')
       = Some (Participant.with_isAdmin false adminUser)
    /\ Room.creator room' = Participant.name target
    /\ JsMap.size (Room.participants room')
       = JsMap.size (Room.participants room)
    /\ forall act,
         Server.user_action socketId roomId act rooms'
         = (rooms',
            [Emit (SocketEmit socketId)
               (PermissionDenied "Only admins can perform this action")]).
Proof.
  intros Hget Hslot Hadm Hid Hfind Hts Hne Htarget rooms'.
  set (parts' :=
         JsMap.set targetSocket (Participant.with_isAdmin true target)
           (JsMap.set socketId (Participant.with_isAdmin false adminUser)
              (Room.participants room))).
  assert (Hr : rooms'
               = JsMap.set roomId
                   (Room.with_creator (Participant.name target)
                      (Room.with_participants parts' room)) rooms).
  { subst rooms' parts'.
    unfold Server.user_action. rewrite Hget, Hslot, Hadm. simpl.
    unfold transfer_admin. simpl.
    rewrite (truthy_string_true _ Hid), Hfind, (truthy_string_true _ Hts).
    rewrite (get_set_other targetSocket socketId) by exact Hne.
    now rewrite Htarget. }
  clearbody rooms'. subst rooms'.
  assert (Hself : JsMap.get socketId parts'
                  = Some (Participant.with_isAdmin false adminUser)).
  { subst parts'. rewrite get_set_other by congruence.
    apply JsMapFacts.get_set_same. }
  eexists. split; [apply JsMapFacts.get_set_same|]. simpl.
  split; [apply JsMapFacts.get_set_same|].
  split; [exact Hself|]. split; [reflexivity|]. split.
  - assert (Ht1 : JsMap.get targetSocket
              (JsMap.set socketId (Participant.with_isAdmin false adminUser)
                 (Room.participants room)) = Some target)
      by (now rewrite get_set_other by exact Hne).
    subst parts'.
    rewrite JsMapFacts.size_set, (JsMapFacts.size_delete_get _ _ _ Ht1).
    now rewrite JsMapFacts.size_set, (JsMapFacts.size_delete_get _ _ _ Hslot).
  - intros act. unfold Server.user_action.
    rewrite JsMapFacts.get_set_same. simpl. rewrite Hself. reflexivity.
Qed.

Lemma transfer_hands_over_witness :
  let rooms := fst (Server.run Sample.two_members []) in
  let rooms' :=
    fst (Server.user_action "s1" "ABC123"
           (TransferAdmin (Some "user_carol")) rooms) in
  exists room' carol alice,
    JsMap.get "ABC123" rooms' = Some room'
    /\ JsMap.get "s2" (Room.participants room') = Some carol
    /\ Participant.isAdmin carol = true
    /\ JsMap.get "s1" (Room.participants room') = Some alice
    /\ Participant.isAdmin alice = false
    /\ Room.creator room' = "Carol"
    /\ Server.user_action "s1" "ABC123" (KickUser (Some "user_carol")) rooms'
       = (rooms',
          [Emit (SocketEmit "s1")
             (PermissionDenied "Only admins can perform this action")]).
Proof.
  intros rooms.
  destruct (JsMap.get "ABC123" rooms) as [room|] eqn:Hget;
    [|vm_compute in Hget; discriminate].
  destruct (JsMap.get "s1" (Room.participants room)) as [user|] eqn:Hslot;
    [|vm_compute in Hget; injection Hget as <-; vm_compute in Hslot;
      discriminate].
  destruct (JsMap.get "s2" (Room.participants room)) as [target|] eqn:Htarget;
    [|vm_compute in Hget; injection Hget as <-; vm_compute in Htarget;
      discriminate].
  assert (Hfacts : Participant.isAdmin user = true
                   /\ JsMap.find_key (has_id "user_carol")
                        (Room.participants room) = Some "s2"
                   /\ Participant.name target = "Carol").
  { vm_compute in Hget. injection Hget as <-.
    vm_compute in Hslot. injection Hslot as <-.
    vm_compute in Htarget. injection Htarget as <-.
    repeat split; reflexivity. }
  destruct Hfacts as (Hadm & Hfind & Hname).
  assert (H1 : "user_carol" <> "") by discriminate.
  assert (H2 : "s2" <> "") by discriminate.
  assert (H3 : "s2" <> "s1") by discriminate.
  destruct (transfer_hands_over "s1" "ABC123" "user_carol" "s2" rooms room
              user target Hget Hslot Hadm H1 Hfind H2 H3 Htarget)
    as (room' & Ha & Hb & Hc & Hd & _ & He).
  exists room', (Participant.with_isAdmin true target),
    (Participant.with_isAdmin false user).
  repeat split; try assumption; try reflexivity.
  now rewrite Hd.
Defined.

(** X17.  A kick removes the target's slot: in the state the admin's
    [kick-user] leaves, the target's connection has no slot in the room
    and the count is one less; the target is told [kicked-from-room] and
    made to leave the Socket.IO room, and the room gets one [user-left]
    with the new roster. *)
Theorem kick_removes_slot
    (socketId roomId targetUserId targetSocket : string) (rooms : Rooms)
    (room : Room.t) (adminUser target : Participant.t) :
  JsMap.get roomId rooms = Some room ->
  distinct_keys (Room.participants room) ->
  JsMap.get socketId (Room.participants room) = Some adminUser ->
  Participant.isAdmin adminUser = true ->
  targetUserId <> "" ->
  JsMap.find_key (has_id targetUserId) (Room.participants room)
  = Some targetSocket ->
  targetSocket <> "" ->
  JsMap.get targetSocket (Room.participants room) = Some target ->
  let kicked :=
    Server.user_action socketId roomId (KickUser (Some targetUserId)) rooms in
  let parts := JsMap.delete targetSocket (Room.participants room) in
  ServerProps.participants_of roomId (fst kicked) = Some parts
  /\ JsMap.get targetSocket parts = None
  /\ S (JsMap.size parts) = JsMap.size (Room.participants room)
  /\ snd kicked
     = [Emit (IoTo targetSocket)
          (KickedFromRoom
             ("You were removed from the room by "
              ++ Participant.name adminUser));
        SocketsLeave targetSocket roomId;
        Emit (IoTo roomId)
          (UserLeft (Participant.name target) (JsMap.values parts))]
  /\ outsider targetSocket roomId (fst kicked).
Proof.
  intros Hget Hnd Hslot Hadm Hid Hfind Hts Htarget kicked parts.
  subst kicked parts.
  unfold Server.user_action. rewrite Hget, Hslot, Hadm. simpl.
  unfold kick_user.  simpl.
  rewrite (truthy_string_true _ Hid), Hfind, (truthy_string_true _ Hts),
    Htarget. simpl.
  pose proof (get_delete_same targetSocket _ Hnd) as Hgone.
  unfold ServerProps.participants_of, outsider.
  rewrite JsMapFacts.get_set_same. simpl.
  repeat split; auto.
  apply (JsMapFacts.size_delete_get _ _ _ Htarget).
Qed.

Lemma kick_removes_slot_witness :
  let rooms := fst (Server.run Sample.two_members []) in
  let kicked :=
    Server.user_action "s1" "ABC123" (KickUser (Some "user_carol")) rooms in
  (exists parts,
      ServerProps.participants_of "ABC123" (fst kicked) = Some parts
      /\ JsMap.get "s2" parts = None
      /\ JsMap.size parts = 1%nat)
  /\ outsider "s2" "ABC123" (fst kicked).
Proof.
  intros rooms.
  destruct (JsMap.get "ABC123" rooms) as [room|] eqn:Hget;
    [|vm_compute in Hget; discriminate].
  destruct (JsMap.get "s1" (Room.participants room)) as [user|] eqn:Hslot;
    [|vm_compute in Hget; injection Hget as <-; vm_compute in Hslot;
      discriminate].
  destruct (JsMap.get "s2" (Room.participants room)) as [target|] eqn:Htarget;
    [|vm_compute in Hget; injection Hget as <-; vm_compute in Htarget;
      discriminate].
  assert (Hfacts : Participant.isAdmin user = true
                   /\ JsMap.find_key (has_id "user_carol")
                        (Room.participants room) = Some "s2"
                   /\ distinct_keys (Room.participants room)
                   /\ JsMap.size (Room.participants room) = 2%nat).
  { vm_compute in Hget. injection Hget as <-.
    vm_compute in Hslot. injection Hslot as <-.
    repeat split; try reflexivity.
    vm_compute. repeat constructor; simpl; intuition discriminate. }
  destruct Hfacts as (Hadm & Hfind & Hnd & Hsize).
  assert (H1 : "user_carol" <> "") by discriminate.
  assert (H2 : "s2" <> "") by discriminate.
  destruct (kick_removes_slot "s1" "ABC123" "user_carol" "s2" rooms
              room user target Hget Hnd Hslot Hadm H1 Hfind H2 Htarget)
    as (Ha & Hb & Hc & _ & He).
  split; [|exact He].
  eexists. split; [exact Ha|]. split; [exact Hb|].
  rewrite Hsize in Hc. now injection Hc.
Defined.

(** ** Disconnecting *)

Section TableMiddle.
Context {V : Type}.
Implicit Types (m : JsMap.t V) (k : string) (v : V).

Lemma set_middle k v v0 (before rest : JsMap.t V) :
  JsMap.get k before = None ->
  JsMap.set k v (before ++ (k, v0) :: rest)%list
  = (before ++ (k, v) :: rest)%list.
Proof.
  induction before as [|[k1 v1] before IH]; simpl.
  - now rewrite String.eqb_refl.
  - destruct (String.eqb k1 k); [discriminate|].
    intros H. now rewrite IH.
Qed.

Lemma delete_middle k v0 (before rest : JsMap.t V) :
  JsMap.get k before = None ->
  JsMap.delete k (before ++ (k, v0) :: rest)%list = (before ++ rest)%list.
Proof.
  induction before as [|[k1 v1] before IH]; simpl.
  - now rewrite String.eqb_refl.
  - destruct (String.eqb k1 k); [discriminate|].
    intros H. now rewrite IH.
Qed.

Lemma distinct_keys_middle k v0 (before rest : JsMap.t V) :
  distinct_keys (before ++ (k, v0) :: rest)%list ->
  JsMap.get k before = None.
Proof.
  unfold distinct_keys. rewrite map_app. simpl. intros Hnd.
  apply get_notin. intros Hin.
  apply NoDup_remove_2 in Hnd. apply Hnd, in_or_app. now left.
Qed.

End TableMiddle.

(** X18.  The stand-alone server takes a disconnecting connection out of
    one room only: the first room of the table that holds it loses the
    slot (and is deleted if that empties it), one [user-left] goes to that
    room, and every other room is left as it was, also a later room that
    holds a slot for the same connection. *)
Theorem disconnect_leaves_first_room_only
    (socketId roomId : string) (before rest : Rooms) (room : Room.t)
    (user : Participant.t) :
  distinct_keys (before ++ (roomId, room) :: rest)%list ->
  in_no_room socketId before ->
  JsMap.get socketId (Room.participants room) = Some user ->
  let parts := JsMap.delete socketId (Room.participants room) in
  Server.disconnect socketId (before ++ (roomId, room) :: rest)%list
  = ((before
      ++ (if Nat.eqb (JsMap.size parts) 0 then []
          else [(roomId, Room.with_participants parts room)])
      ++ rest)%list,
     [Emit (SocketTo roomId socketId)
        (UserLeft (Participant.name user) (JsMap.values parts))]).
Proof.
  intros Hnd Hout Hslot parts. subst parts.
  pose proof (distinct_keys_middle _ _ _ _ Hnd) as Habsent.
  unfold Server.disconnect.
  rewrite (server_disconnect_loop_skip _ _ _ _ Hout). simpl.
  rewrite Hslot. f_equal.
  rewrite JsMapFacts.delete_set_same.
  destruct (Nat.eqb _ 0).
  - now rewrite (delete_middle _ _ _ _ Habsent).
  - now rewrite (set_middle _ _ _ _ _ Habsent).
Qed.

Lemma disconnect_leaves_first_room_only_witness :
  let first := created_room "s1" "AAA111" Sample.alice 1000 in
  let second := created_room "s1" "BBB222" Sample.alice 2000 in
  Server.disconnect "s1" [("AAA111", first); ("BBB222", second)]
  = ([("BBB222", second)],
     [Emit (SocketTo "AAA111" "s1") (UserLeft "Alice" [])])
  /\ JsMap.has "s1" (Room.participants second) = true.
Proof.
  intros first second. split; [|reflexivity].
  refine (disconnect_leaves_first_room_only "s1" "AAA111" [] [("BBB222", second)]
            first (first_slot Sample.alice 1000) _ _ _).
  - repeat constructor; simpl; intuition discriminate.
  - intros ? ? [].
  - reflexivity.
Defined.

Lemma in_no_room_app socketId (a b : Rooms) :
  in_no_room socketId a -> in_no_room socketId b ->
  in_no_room socketId (a ++ b)%list.
Proof.
  intros Ha Hb id r Hin. apply in_app_or in Hin as [H|H]; eauto.
Qed.

Lemma no_empty_room_app (a b : Rooms) :
  no_empty_room a -> no_empty_room b -> no_empty_room (a ++ b)%list.
Proof.
  intros Ha Hb id r Hin. apply in_app_or in Hin as [H|H]; eauto.
Qed.

Lemma manager_disconnect_loop_all socketId entries : forall done,
  distinct_keys (done ++ entries)%list ->
  slots_distinct entries ->
  in_no_room socketId done ->
  in_no_room socketId
    (fst (Manager.disconnect_loop socketId entries (done ++ entries)%list))
  /\ (no_empty_room done -> no_empty_room entries ->
      no_empty_room
        (fst (Manager.disconnect_loop socketId entries
                (done ++ entries)%list))).
Proof.
  induction entries as [|[roomId room] rest IH]; intros done Hnd Hslots Hout.
  - simpl. rewrite app_nil_r. auto.
  - rewrite manager_disconnect_loop_fst.
    pose proof (distinct_keys_middle _ _ _ _ Hnd) as Habsent.
    assert (Hrest : slots_distinct rest)
      by (intros id r Hin; apply (Hslots id r); now right).
    destruct (JsMap.get socketId (Room.participants room)) as [user|] eqn:Hslot.
    + cbv zeta. rewrite (set_middle _ _ _ _ _ Habsent).
      destruct (Nat.eqb _ 0) eqn:E.
      * rewrite (delete_middle _ _ _ _ Habsent).
        assert (Hnd' : distinct_keys (done ++ rest)%list).
        { unfold distinct_keys in *. rewrite map_app in *. simpl in Hnd.
          now apply NoDup_remove_1 in Hnd. }
        destruct (IH done Hnd' Hrest Hout) as [H1 H2].
        split; [exact H1|]. intros Hd He. apply H2; [exact Hd|].
        intros id r Hin. apply (He id r). now right.
      * replace (done ++ (roomId, _) :: rest)%list
          with ((done ++ [(roomId,
                   Room.with_participants
                     (JsMap.delete socketId (Room.participants room)) room)])
                ++ rest)%list by now rewrite <- app_assoc.
        assert (Hnd' : distinct_keys
                  ((done ++ [(roomId,
                      Room.with_participants
                        (JsMap.delete socketId (Room.participants room))
                        room)]) ++ rest)%list).
        { unfold distinct_keys in *. rewrite <- app_assoc.
          rewrite map_app in *. exact Hnd. }
        assert (Hout' : in_no_room socketId
                  (done ++ [(roomId,
                      Room.with_participants
                        (JsMap.delete socketId (Room.participants room))
                        room)])%list).
        { apply in_no_room_app; [exact Hout|].
          intros id r [Heq|[]]. injection Heq as <- <-. simpl.
          apply get_delete_same. apply (Hslots roomId room). now left. }
        destruct (IH _ Hnd' Hrest Hout') as [H1 H2].
        split; [exact H1|]. intros Hd He. apply H2.
        -- apply no_empty_room_app; [exact Hd|].
           intros id r [Heq|[]]. injection Heq as <- <-. simpl.
           now apply Nat.eqb_neq in E.
        -- intros id r Hin. apply (He id r). now right.
    + replace (done ++ (roomId, room) :: rest)%list
        with ((done ++ [(roomId, room)]) ++ rest)%list
        by now rewrite <- app_assoc.
      assert (Hnd' : distinct_keys ((done ++ [(roomId, room)]) ++ rest)%list)
        by (now rewrite <- app_assoc).
      assert (Hout' : in_no_room socketId (done ++ [(roomId, room)])%list).
      { apply in_no_room_app; [exact Hout|].
        intros id r [Heq|[]]. now injection Heq as <- <-. }
      destruct (IH _ Hnd' Hrest Hout') as [H1 H2].
      split; [exact H1|]. intros Hd He. apply H2.
      * apply no_empty_room_app; [exact Hd|].
        intros id r [Heq|[]]. injection Heq as <- <-.
        apply (He roomId room). now left.
      * intros id r Hin. apply (He id r). now right.
Qed.

(** X19.  [WebSocketManager] takes a disconnecting connection out of every
    room: after its [disconnect] handler no room of the table holds a slot
    for the connection, and the rooms this emptied are deleted (a table
    without empty rooms stays without). *)
Theorem manager_disconnect_leaves_every_room
    (socketId : string) (rooms : Rooms) :
  distinct_keys rooms ->
  slots_distinct rooms ->
  in_no_room socketId (fst (Manager.disconnect socketId rooms))
  /\ (no_empty_room rooms ->
      no_empty_room (fst (Manager.disconnect socketId rooms))).
Proof.
  intros Hnd Hslots.
  destruct (manager_disconnect_loop_all socketId rooms [] Hnd Hslots)
    as [H1 H2]; [intros ? ? []|].
  split; [exact H1|]. intros He. apply H2; [intros ? ? []|exact He].
Qed.

Lemma manager_disconnect_leaves_every_room_witness :
  let first := created_room "s1" "AAA111" Sample.alice 1000 in
  let second := created_room "s1" "BBB222" Sample.alice 2000 in
  in_no_room "s1"
    (fst (Manager.disconnect "s1" [("AAA111", first); ("BBB222", second)]))
  /\ fst (Manager.disconnect "s1" [("AAA111", first); ("BBB222", second)])
     = [].
Proof.
  intros first second. split; [|reflexivity].
  refine (proj1 (manager_disconnect_leaves_every_room "s1"
                   [("AAA111", first); ("BBB222", second)] _ _)).
  - repeat constructor; simpl; intuition discriminate.
  - intros id r [E|[E|[]]]; injection E as _ <-;
      repeat constructor; intros [].
Defined.

(** ** Drift correction in the player *)

Section Drift.
Import Player.

Lemma updateTime_cases c p r :
  (seeks (snd (updateTime c p r)) = []
   /\ lastSyncCorrection (fst (updateTime c p r)) = lastSyncCorrection r
   /\ (consecutiveSyncCorrections (fst (updateTime c p r))
       = consecutiveSyncCorrections r
       \/ 30000 < now p - lastSyncCorrection r))
  \/ (seeks (snd (updateTime c p r)) = [syncedTime p]
      /\ fst (updateTime c p r) = after_seek p r
      /\ 15000 < now p - lastSyncCorrection r
      /\ consecutiveSyncCorrections r = 0%nat).
Proof.
  unfold updateTime.
  destruct (negb (isDragging c) && hasPlayer p && negb (isSeeking r));
    [|left; simpl; auto].
  destruct (playerTime p) as [t|]; [|left; simpl; auto].
  destruct (isConnected c && isPlaying c && negb (syncPaused c)).
  - destruct (Qgt_bool _ 5 && (15000 <? _) && Nat.ltb _ 1 && playerPlaying c)
      eqn:E.
    + destruct (hasSeekTo p); [|left; simpl; auto].
      right.
      apply andb_true_iff in E as [E _].
      apply andb_true_iff in E as [E Hc].
      apply andb_true_iff in E as [_ Ht].
      apply Z.ltb_lt in Ht. apply Nat.ltb_lt in Hc.
      simpl. split; [reflexivity|]. split; [reflexivity|].
      split; [exact Ht|lia].
    + left. destruct (Qgt_bool _ 2 && Qle_bool _ 5); [simpl; auto|].
      destruct (Qle_bool _ 2); [|simpl; auto].
      destruct (30000 <? _) eqn:E30; simpl; [|auto].
      apply Z.ltb_lt in E30. auto.
  - left. destruct (negb (isConnected c)); [simpl; auto|].
    destruct (syncPaused c); simpl; auto.
Qed.

Lemma playPauseEffect_cases c p r :
  (seeks (snd (playPauseEffect c p r)) = []
   /\ fst (playPauseEffect c p r) = r)
  \/ (seeks (snd (playPauseEffect c p r)) = [syncedTime p]
      /\ fst (playPauseEffect c p r) = after_seek p r
      /\ 5000 < now p - lastSyncCorrection r
      /\ consecutiveSyncCorrections r = 0%nat).
Proof.
  unfold playPauseEffect.
  destruct (negb (hasPlayer p) || negb (isYTReady c) || negb (playerReady r));
    [left; simpl; auto|].
  destruct (negb (hasPlayVideo p) || negb (hasPauseVideo p)
            || negb (hasSeekTo p)); [left; simpl; auto|].
  destruct (isPlaying c && negb (playerPlaying c)).
  - destruct (isConnected c && negb (isSeeking r) && negb (syncPaused c));
      [|left; simpl; auto].
    destruct (5000 <? _) eqn:Ht; [|left; simpl; auto].
    destruct (Qgt_bool _ 3 && Nat.ltb _ 1) eqn:E; [|left; simpl; auto].
    right. apply andb_true_iff in E as [_ Hc].
    apply Z.ltb_lt in Ht. apply Nat.ltb_lt in Hc.
    simpl. repeat split; auto. lia.
  - left. destruct (negb (isPlaying c) && playerPlaying c); simpl; auto.
Qed.

Lemma is_seek_seeks out :
  existsb is_seek out = match seeks out with [] => false | _ => true end.
Proof.
  induction out as [|c out IH]; simpl; [reflexivity|].
  destruct c; simpl; auto.
Qed.

Lemma correction_poll c p r :
  correction (Poll c p) (snd (updateTime c p r))
  = match seeks (snd (updateTime c p r)) with
    | [] => None
    | _ => Some (now p)
    end.
Proof. simpl. rewrite is_seek_seeks. now destruct (seeks _). Qed.

Lemma correction_playPause c p r :
  correction (PlayPause c p) (snd (playPauseEffect c p r))
  = match seeks (snd (playPauseEffect c p r)) with
    | [] => None
    | _ => Some (now p)
    end.
Proof. simpl. rewrite is_seek_seeks. now destruct (seeks _). Qed.

(** What one step does to the time of the last correction. *)
Lemma step_last s r :
  (correction s (snd (step s r)) = None
   /\ (lastSyncCorrection (fst (step s r)) = lastSyncCorrection r
       \/ step_time s = Some (lastSyncCorrection (fst (step s r)))))
  \/ (exists t,
        correction s (snd (step s r)) = Some t
        /\ step_time s = Some t
        /\ lastSyncCorrection (fst (step s r)) = t
        /\ lastSyncCorrection r + 5000 < t).
Proof.
  destruct s as [c p|c p|st|t| | |c p|t|c p q|t|]; cbn [step step_time].
  - rewrite correction_poll.
    destruct (updateTime_cases c p r) as [(H1 & H2 & _)|(H1 & H2 & H3 & _)].
    + left. rewrite H1. auto.
    + right. exists (now p). rewrite H1, H2. simpl.
      split; [reflexivity|]. split; [reflexivity|]. split; [reflexivity|lia].
  - rewrite correction_playPause.
    destruct (playPauseEffect_cases c p r) as [(H1 & H2)|(H1 & H2 & H3 & _)].
    + left. rewrite H1, H2. auto.
    + right. exists (now p). rewrite H1, H2. simpl.
      split; [reflexivity|]. split; [reflexivity|]. split; [reflexivity|lia].
  - left. destruct st; simpl; auto.
  - left. simpl. auto.
  - left. unfold bufferingSettled. destruct (playerReady r); simpl; auto.
  - left. simpl. auto.
  - left. unfold onReady.
    destruct (isConnected c); [destruct (Qgt_bool _ 0)|]; simpl; auto.
  - left. simpl. auto.
  - left. unfold handleSeek.
    destruct (_ || _); [simpl; auto|]. destruct (hasSeekTo p); simpl; auto.
  - left. simpl. auto.
  - left. simpl. auto.
Qed.

Lemma spaced_earlier gap t t' ts :
  t <= t' -> spaced gap t' ts -> spaced gap t ts.
Proof. destruct ts as [|t0 ts]; simpl; [auto|]. intros H [H1 H2]. split; [lia|auto]. Qed.

Lemma clock_from_earlier l : forall t t',
  t <= t' -> clock_from t' l -> clock_from t l.
Proof.
  induction l as [|s l IH]; simpl; [auto|]. intros t t' H.
  destruct (step_time s) as [t0|]; [|now apply IH].
  intros [H1 H2]. split; [lia|exact H2].
Qed.

Lemma corrections_spaced l : forall r,
  clock_from (lastSyncCorrection r) l ->
  spaced 5000 (lastSyncCorrection r) (correction_times l r).
Proof.
  induction l as [|s l IH]; intros r Hclock; [exact I|].
  simpl in Hclock. simpl.
  destruct (step s r) as [r' out] eqn:Hstep.
  pose proof (step_last s r) as Hs. rewrite Hstep in Hs. simpl in Hs.
  destruct Hs as [(Hnone & Hlast)|(t & Hq & Ht & Hlast & Hgap)].
  - rewrite Hnone.
    assert (Hle : lastSyncCorrection r <= lastSyncCorrection r'
                  /\ clock_from (lastSyncCorrection r') l).
    { destruct Hlast as [->|Ht].
      - split; [lia|]. destruct (step_time s) as [t0|]; [|exact Hclock].
        destruct Hclock as [H1 H2]. eapply clock_from_earlier; eauto.
      - rewrite Ht in Hclock. tauto. }
    destruct Hle as [Hle Hclock'].
    eapply spaced_earlier; [exact Hle|]. now apply IH.
  - rewrite Hq. rewrite Ht in Hclock. destruct Hclock as [_ Hclock].
    simpl. split; [exact Hgap|]. rewrite <- Hlast. apply IH.
    now rewrite Hlast.
Qed.

Lemma steps_cons s l r :
  steps (s :: l) r
  = (fst (steps l (fst (step s r))),
     (snd (step s r) ++ snd (steps l (fst (step s r))))%list).
Proof.
  simpl. destruct (step s r) as [r' out]. simpl.
  now destruct (steps l r').
Qed.

Lemma seeks_app out1 out2 :
  seeks (out1 ++ out2) = (seeks out1 ++ seeks out2)%list.
Proof.
  induction out1 as [|c out1 IH]; simpl; [reflexivity|].
  destruct c; simpl; now rewrite ?IH.
Qed.


End Drift.

(** X20.  Drift corrections are rate-limited.  Between two loads of a
    video, along any run of the player's callbacks and timers (polls,
    play/pause effects, [onReady], state changes, manual seeks and every
    timer they set) whose clock readings never go back, every drift
    correction comes more than 5 seconds after the previous one, and the
    first more than 5 seconds after the time stored as last correction at
    the start. *)
Theorem corrections_are_spaced (l : list Player.Step) (r : Player.Refs) :
  Player.clock_from (Player.lastSyncCorrection r) l ->
  Player.spaced 5000 (Player.lastSyncCorrection r)
    (Player.correction_times l r).
Proof. apply corrections_spaced. Qed.

Lemma corrections_are_spaced_witness :
  Player.correction_times Sample.drifting Sample.fresh_refs = [20000; 40000]
  /\ Player.spaced 5000 0
       (Player.correction_times Sample.drifting Sample.fresh_refs).
Proof.
  split; [reflexivity|].
  apply (corrections_are_spaced Sample.drifting Sample.fresh_refs).
  simpl. lia.
Defined.



(** ** One slot per participant identifier *)

Section Identifiers.
Import JsMapFacts.
Implicit Types (m : JsMap.t Participant.t) (p : Participant.t).

Lemma ids_in k p m :
  In (k, p) m -> In (Participant.id p) (map Participant.id (JsMap.values m)).
Proof.
  intros H. unfold JsMap.values. rewrite map_map.
  now apply (in_map (fun e => Participant.id (snd e)) _ (k, p)).
Qed.

Lemma ids_of m x :
  In x (map Participant.id (JsMap.values m)) ->
  exists k p, In (k, p) m /\ Participant.id p = x.
Proof.
  unfold JsMap.values. rewrite map_map. intros H.
  apply in_map_iff in H as ([k' p] & Hid & Hin). eauto.
Qed.

Lemma same_id_same_slot m : forall k1 p1 k2 p2,
  ids_distinct m -> In (k1, p1) m -> In (k2, p2) m ->
  Participant.id p1 = Participant.id p2 -> k1 = k2.
Proof.
  unfold ids_distinct.
  induction m as [|[k0 p0] m IH]; intros k1 p1 k2 p2 Hnd H1 H2 Hid;
    [contradiction|].
  unfold JsMap.values in Hnd. simpl in Hnd.
  inversion Hnd as [|? ? Hn Hnd']; subst.
  destruct H1 as [E1|H1], H2 as [E2|H2].
  - congruence.
  - injection E1 as -> ->. destruct Hn. rewrite Hid. eapply ids_in; eauto.
  - injection E2 as -> ->. destruct Hn. rewrite <- Hid. eapply ids_in; eauto.
  - eapply IH; eauto.
Qed.

Lemma in_delete_other k m : forall k' p,
  distinct_keys m -> In (k', p) (JsMap.delete k m) -> k' <> k.
Proof.
  unfold distinct_keys.
  induction m as [|[k0 p0] m IH]; intros k' p Hnd Hin; [contradiction|].
  simpl in Hnd. inversion Hnd as [|? ? Hn Hnd']; subst.
  simpl in Hin. destruct (String.eqb k0 k) eqn:E.
  - apply String.eqb_eq in E. subst k0. intros ->.
    apply Hn. now apply (in_map fst _ (k, p)).
  - destruct Hin as [Heq|Hin]; [|eauto].
    injection Heq as <- <-. now apply String.eqb_neq.
Qed.

Lemma ids_distinct_delete k m : ids_distinct m -> ids_distinct (JsMap.delete k m).
Proof.
  unfold ids_distinct, JsMap.values.
  induction m as [|[k0 p0] m IH]; simpl; intros Hnd; [constructor|].
  inversion Hnd as [|? ? Hn Hnd']; subst.
  destruct (String.eqb k0 k); simpl; [exact Hnd'|].
  constructor; [|auto]. intros Hin. apply Hn.
  apply ids_of in Hin as (k' & p & Hin & Hid).
  apply In_delete in Hin. rewrite <- Hid. eapply ids_in; eauto.
Qed.

Lemma keys_nonempty_delete k m :
  keys_nonempty m -> keys_nonempty (JsMap.delete k m).
Proof. intros H k' p Hin. apply In_delete in Hin. eauto. Qed.

Lemma keys_nonempty_set k p m :
  k <> "" -> keys_nonempty m -> keys_nonempty (JsMap.set k p m).
Proof.
  intros Hk H k' p' Hin. apply In_set in Hin as [E|Hin]; [|eauto].
  now injection E as -> ->.
Qed.

Lemma slot_ok_delete k m : slot_ok m -> slot_ok (JsMap.delete k m).
Proof.
  intros (H1 & H2 & H3).
  repeat split; auto using distinct_keys_delete, ids_distinct_delete,
    keys_nonempty_delete.
Qed.

(** Storing a slot whose identifier no other connection carries. *)
Lemma ids_distinct_set k p m :
  distinct_keys m -> ids_distinct m ->
  (forall k' p', In (k', p') m -> k' <> k ->
                 Participant.id p' <> Participant.id p) ->
  ids_distinct (JsMap.set k p m).
Proof.
  unfold distinct_keys, ids_distinct, JsMap.values.
  induction m as [|[k0 p0] m IH]; simpl; intros Hk Hi Hother.
  - repeat constructor. intros [].
  - inversion Hk as [|? ? Hnk Hk']; subst.
    inversion Hi as [|? ? Hni Hi']; subst.
    destruct (String.eqb k0 k) eqn:E; simpl.
    + apply String.eqb_eq in E. subst k0.
      constructor; [|exact Hi']. intros Hin.
      apply ids_of in Hin as (k' & p' & Hin & Hid).
      apply (Hother k' p'); [now right| |exact Hid].
      intros ->. apply Hnk. now apply (in_map fst _ (k, p')).
    + apply String.eqb_neq in E.
      constructor.
      * intros Hin. apply ids_of in Hin as (k' & p' & Hin & Hid).
        apply In_set in Hin as [Heq|Hin].
        -- injection Heq as -> ->.
           apply (Hother k0 p0); [now left|exact E|now symmetry].
        -- apply Hni. rewrite <- Hid. eapply ids_in; eauto.
      * apply IH; auto. intros k' p' Hin. apply Hother. now right.
Qed.

(** Rewriting a slot in place without touching its identifier. *)
Lemma slot_ok_update k p p' m :
  JsMap.get k m = Some p -> Participant.id p' = Participant.id p ->
  slot_ok m -> slot_ok (JsMap.set k p' m).
Proof.
  intros Hget Hid (H1 & H2 & H3).
  assert (Hin := get_In _ _ _ Hget).
  split; [now apply distinct_keys_set|]. split.
  - apply ids_distinct_set; auto.
    intros k' q Hq Hne Hsame. apply Hne.
    eapply same_id_same_slot; eauto. congruence.
  - apply keys_nonempty_set; eauto.
Qed.

Lemma slot_ok_join socketId user now m :
  socketId <> "" -> slot_ok m ->
  let parts := Server.remove_old_connection socketId (JoinUser.id user) m in
  slot_ok
    (JsMap.set socketId
       (Participant.mk (JoinUser.id user) (JoinUser.name user)
          (Server.joining_isAdmin parts user) now true) parts).
Proof.
  intros Hs (H1 & H2 & H3) parts.
  assert (Hparts : slot_ok parts
                   /\ forall k' p', In (k', p') parts -> k' <> socketId ->
                                    Participant.id p' <> JoinUser.id user).
  { subst parts. unfold Server.remove_old_connection.
    destruct (JsMap.find_key _ m) as [e|] eqn:Hfind.
    - apply find_key_some in Hfind as (p0 & Hin0 & Hid0).
      unfold has_id in Hid0. apply String.eqb_eq in Hid0.
      rewrite (truthy_string_true e) by eauto. simpl.
      destruct (String.eqb e socketId) eqn:E; simpl.
      + apply String.eqb_eq in E. subst e.
        split; [repeat split; auto|].
        intros k' p' Hin Hne Hid. apply Hne.
        eapply same_id_same_slot; eauto. congruence.
      + split; [now apply slot_ok_delete|].
        intros k' p' Hin _ Hid.
        apply (in_delete_other e m k' p' H1 Hin).
        apply In_delete in Hin.
        eapply same_id_same_slot; eauto. congruence.
    - split; [repeat split; auto|].
      intros k' p' Hin _ Hid.
      pose proof (find_key_none _ _ Hfind _ _ Hin) as Hno.
      unfold has_id in Hno. apply String.eqb_neq in Hno. contradiction. }
  destruct Hparts as [(P1 & P2 & P3) Hother].
  split; [now apply distinct_keys_set|]. split.
  - now apply ids_distinct_set.
  - now apply keys_nonempty_set.
Qed.

Lemma slots_ok_get roomId room rooms :
  slots_ok rooms -> JsMap.get roomId rooms = Some room ->
  slot_ok (Room.participants room).
Proof. intros H Hg. apply get_In in Hg. eauto. Qed.

Lemma slots_ok_set roomId room rooms :
  slots_ok rooms -> slot_ok (Room.participants room) ->
  slots_ok (JsMap.set roomId room rooms).
Proof.
  intros H Hr id r Hin.
  apply In_set in Hin as [E|Hin]; [|eauto].
  injection E as -> ->. exact Hr.
Qed.

Lemma slots_ok_delete roomId rooms :
  slots_ok rooms -> slots_ok (JsMap.delete roomId rooms).
Proof. intros H id r Hin. apply In_delete in Hin. eauto. Qed.

Lemma slot_ok_empty : slot_ok [].
Proof. repeat split; try constructor. intros ? ? []. Qed.

Lemma disconnect_loop_slots_ok socketId entries rooms :
  slots_ok rooms ->
  (forall e, In e entries -> In e rooms) ->
  slots_ok (fst (Server.disconnect_loop socketId entries rooms)).
Proof.
  intros Inv.
  induction entries as [|[roomId room] rest IH]; simpl; intros Hsub; [exact Inv|].
  destruct (JsMap.get socketId (Room.participants room)) as [user|].
  - assert (Inv1 : slots_ok
      (JsMap.set roomId
         (Room.with_participants
            (JsMap.delete socketId (Room.participants room)) room) rooms)).
    { apply slots_ok_set; [exact Inv|]. simpl. apply slot_ok_delete.
      apply (Inv roomId room). apply Hsub. now left. }
    simpl. destruct (Nat.eqb _ 0); auto using slots_ok_delete.
  - apply IH. intros e He. apply Hsub. now right.
Qed.

Lemma user_switch_slots_ok socketId roomId room adminUser action rooms :
  slots_ok rooms ->
  JsMap.get roomId rooms = Some room ->
  JsMap.get socketId (Room.participants room) = Some adminUser ->
  slots_ok (fst (user_switch socketId roomId room adminUser action rooms)).
Proof.
  intros Inv Hget Hslot.
  pose proof (slots_ok_get _ _ _ Inv Hget) as Hr.
  destruct action as [t|t|[p|]|a]; simpl; auto.
  - unfold kick_user.
    destruct (truthy_target t); [|exact Inv].
    destruct (JsMap.find_key _ _) as [k|]; [|exact Inv].
    destruct (truthy_string k); [|exact Inv].
    destruct (JsMap.get k _); [|exact Inv].
    simpl. apply slots_ok_set; [exact Inv|]. simpl.
    now apply slot_ok_delete.
  - unfold transfer_admin.
    destruct (truthy_target t); [|exact Inv].
    destruct (JsMap.find_key _ _) as [k|]; [|exact Inv].
    destruct (truthy_string k); [|exact Inv].
    destruct (JsMap.get k _) as [targetUser|] eqn:Htarget; [|exact Inv].
    simpl. apply slots_ok_set; [exact Inv|]. simpl.
    eapply slot_ok_update; [exact Htarget|reflexivity|].
    eapply slot_ok_update; [exact Hslot|reflexivity|exact Hr].
  - now apply slots_ok_set.
Qed.

Lemma handle_slots_ok now req rooms :
  sockets_named [(now, req)] ->
  slots_ok rooms -> slots_ok (fst (Server.handle now req rooms)).
Proof.
  intros Hnamed Inv. destruct req; simpl.
  - destruct Hnamed as [Hs _]. unfold Server.join_room.
    destruct (_ || _); [exact Inv|].
    destruct (JsMap.get roomId rooms) as [room|] eqn:Hget.
    + destruct (_ >=? _); [exact Inv|]. simpl.
      apply slots_ok_set; [exact Inv|]. simpl.
      apply slot_ok_join; [exact Hs|]. eapply slots_ok_get; eauto.
    + assert (Inv1 : slots_ok
                (JsMap.set roomId (Server.newRoom roomId user now) rooms))
        by (apply slots_ok_set; [exact Inv|apply slot_ok_empty]).
      destruct (_ >=? _); [exact Inv1|].
      apply slots_ok_set; [exact Inv1|].
      apply (slot_ok_join socketId user now []); [exact Hs|apply slot_ok_empty].
  - unfold Server.request_sync.
    destruct (JsMap.get roomId rooms); exact Inv.
  - apply disconnect_loop_slots_ok; auto.
  - unfold Server.send_message.
    destruct (JsMap.get roomId rooms) as [room|] eqn:Hget; [|exact Inv].
    destruct (JsMap.has _ _); [|exact Inv].
    simpl. apply slots_ok_set; [exact Inv|]. simpl. eapply slots_ok_get; eauto.
  - unfold Server.add_song.
    destruct (JsMap.get roomId rooms) as [room|] eqn:Hget; [|exact Inv].
    destruct (JsMap.has _ _); [|exact Inv].
    destruct (Room.playbackState room).
    simpl. apply slots_ok_set; [exact Inv|]. simpl. eapply slots_ok_get; eauto.
  - unfold Server.playback_control.
    destruct (JsMap.get roomId rooms) as [room|] eqn:Hget; [|exact Inv].
    destruct (JsMap.get socketId _); [|exact Inv].
    destruct (_ && _); [exact Inv|].
    simpl. apply slots_ok_set; [exact Inv|]. simpl. eapply slots_ok_get; eauto.
  - unfold Server.user_action.
    destruct (JsMap.get roomId rooms) as [room|] eqn:Hget; [|exact Inv].
    destruct (JsMap.get socketId _) as [adminUser|] eqn:Hslot; [|exact Inv].
    destruct (negb _); [exact Inv|].
    now apply user_switch_slots_ok.
  - unfold Server.close_room.
    destruct (JsMap.get roomId rooms) as [room|]; [|exact Inv].
    destruct (JsMap.get socketId _) as [user|]; [|exact Inv].
    destruct (negb _); [exact Inv|].
    simpl. now apply slots_ok_delete.
Qed.

Lemma run_slots_ok reqs : forall rooms,
  sockets_named reqs -> slots_ok rooms ->
  slots_ok (fst (Server.run reqs rooms)).
Proof.
  induction reqs as [|[now req] rest IH]; intros rooms Hnamed Inv; [exact Inv|].
  rewrite run_fst.
  assert (H1 : sockets_named [(now, req)] /\ sockets_named rest).
  { simpl in *. destruct req; tauto. }
  destruct H1 as [H1 H2].
  apply IH; [exact H2|]. now apply handle_slots_ok.
Qed.

End Identifiers.

(** X22.  In every state the stand-alone server reaches from the empty
    room table, when the connections that join have non-empty identifiers,
    no two slots of a room carry the same participant identifier: a
    participant who joins again always takes the place of their old
    slot. *)
Theorem one_slot_per_participant (reqs : list (Z * Server.Request)) :
  sockets_named reqs ->
  one_slot_per_identifier (fst (Server.run reqs [])).
Proof.
  intros Hnamed roomId room Hin.
  assert (Hok : slots_ok (fst (Server.run reqs [])))
    by (apply run_slots_ok; [exact Hnamed|intros ? ? []]).
  exact (proj1 (proj2 (Hok roomId room Hin))).
Qed.

Lemma one_slot_per_participant_witness :
  sockets_named Sample.admin_reconnects
  /\ one_slot_per_identifier (fst (Server.run Sample.admin_reconnects [])).
Proof.
  assert (Hnamed : sockets_named Sample.admin_reconnects)
    by (simpl; repeat split; discriminate).
  split; [exact Hnamed|].
  exact (one_slot_per_participant Sample.admin_reconnects Hnamed).
Defined.

(** ** [WebSocketManager] against the stand-alone server *)

Lemma manager_join_new_room socketId roomId user now rooms :
  JsMap.get roomId rooms = None ->
  fst (Manager.join_room socketId roomId user now rooms)
  = (rooms
     ++ [(roomId,
          Room.with_participants
            [(socketId,
              Participant.mk (JoinUser.id user) (JoinUser.name user)
                (Manager.user_isAdmin user) now true)]
            (Server.newRoom roomId user now))])%list.
Proof.
  intros Hget. unfold Manager.join_room. rewrite Hget. simpl.
  now rewrite (set_absent _ _ _ Hget), (set_last _ _ _ _ Hget).
Qed.

(** X23.  [WebSocketManager] does not make the first participant admin.
    When the connection that creates a room joins without [isAdmin] set,
    the room has no admin: with the default settings every
    [playback-control], [user-action] and [close-room] that this
    participant sends is denied and changes nothing. *)
Theorem manager_room_without_admin
    (socketId roomId : string) (user : JoinUser.t) (now : Z) (rooms : Rooms) :
  JsMap.get roomId rooms = None ->
  Manager.user_isAdmin user = false ->
  let rooms' := fst (Manager.join_room socketId roomId user now rooms) in
  let denied msg :=
    (rooms', [Emit (SocketEmit socketId) (PermissionDenied msg)]) in
  (exists room,
      JsMap.get roomId rooms' = Some room
      /\ admin_count (Room.participants room) = 0%nat
      /\ JsMap.size (Room.participants room) = 1%nat)
  /\ (forall control t,
         Manager.playback_control socketId roomId control t rooms'
         = denied "Only admins can control playback")
  /\ (forall act,
         Manager.user_action socketId roomId act rooms'
         = denied "Only admins can perform this action")
  /\ Manager.close_room socketId roomId rooms'
     = denied "Only admins can close the room".
Proof.
  intros Hget Hadm rooms' denied. subst denied.
  assert (Hr : rooms' = (rooms
     ++ [(roomId,
          Room.with_participants
            [(socketId,
              Participant.mk (JoinUser.id user) (JoinUser.name user)
                false now true)]
            (Server.newRoom roomId user now))])%list).
  { subst rooms'. rewrite (manager_join_new_room _ _ _ _ _ Hget).
    now rewrite Hadm. }
  clearbody rooms'. subst rooms'.
  pose proof (get_last roomId
                (Room.with_participants
                   [(socketId,
                     Participant.mk (JoinUser.id user) (JoinUser.name user)
                       false now true)]
                   (Server.newRoom roomId user now)) rooms Hget) as Hnew.
  split; [eexists; split; [exact Hnew|split; reflexivity]|].
  unfold Manager.playback_control, Manager.user_action, Manager.close_room.
  rewrite Hnew. simpl. rewrite String.eqb_refl. simpl. auto.
Qed.

Lemma manager_room_without_admin_witness :
  let rooms' := fst (Manager.join_room "s1" "ABC123" Sample.alice 1000 []) in
  (exists room,
      JsMap.get "ABC123" rooms' = Some room
      /\ admin_count (Room.participants room) = 0%nat
      /\ JsMap.size (Room.participants room) = 1%nat)
  /\ Manager.playback_control "s1" "ABC123" (Play None) 2000 rooms'
     = (rooms',
        [Emit (SocketEmit "s1")
           (PermissionDenied "Only admins can control playback")]).
Proof.
  intros rooms'.
  destruct (manager_room_without_admin "s1" "ABC123" Sample.alice 1000 []
              eq_refl eq_refl) as (H1 & H2 & _).
  split; [exact H1|]. apply H2.
Defined.

(** X24.  [WebSocketManager] has no reconnect handling: every join it
    accepts from a connection that has no slot in the room adds one slot,
    also when a slot of the room already carries the participant's
    identifier; a join from a connection that has a slot rewrites that
    slot. *)
Theorem manager_join_adds_a_slot
    (socketId roomId : string) (user : JoinUser.t) (now : Z) (rooms : Rooms)
    (room : Room.t) :
  JsMap.get roomId rooms = Some room ->
  Z.of_nat (JsMap.size (Room.participants room))
  < RoomSettings.maxParticipants (Room.settings room) ->
  exists parts slot,
    ServerProps.participants_of roomId
      (fst (Manager.join_room socketId roomId user now rooms)) = Some parts
    /\ JsMap.get socketId parts = Some slot
    /\ Participant.id slot = JoinUser.id user
    /\ JsMap.size parts
       = if JsMap.has socketId (Room.participants room)
         then JsMap.size (Room.participants room)
         else S (JsMap.size (Room.participants room)).
Proof.
  intros Hget Hcap. unfold Manager.join_room. rewrite Hget.
  replace (_ >=? _) with false
    by (symmetry; rewrite Z.geb_leb; apply Z.leb_gt; lia).
  simpl. unfold ServerProps.participants_of.
  rewrite JsMapFacts.get_set_same. simpl.
  do 2 eexists. split; [reflexivity|].
  split; [apply JsMapFacts.get_set_same|]. split; [reflexivity|].
  rewrite JsMapFacts.size_set. unfold JsMap.has.
  destruct (JsMap.get socketId (Room.participants room)) as [old|] eqn:Hold.
  - apply (JsMapFacts.size_delete_get _ _ _ Hold).
  - f_equal. clear - Hold. unfold JsMap.size.
    induction (Room.participants room) as [|[k v] m IH]; [reflexivity|].
    simpl in *. destruct (String.eqb k socketId); [discriminate|].
    simpl. now rewrite IH.
Qed.

Lemma manager_join_adds_a_slot_witness :
  let rooms := fst (Manager.join_room "s1" "ABC123" Sample.alice 1000 []) in
  exists parts,
    ServerProps.participants_of "ABC123"
      (fst (Manager.join_room "s2" "ABC123" Sample.alice 2000 rooms))
    = Some parts
    /\ JsMap.size parts = 2%nat
    /\ map Participant.id (JsMap.values parts) = ["user_alice"; "user_alice"].
Proof.
  intros rooms.
  destruct (JsMap.get "ABC123" rooms) as [room|] eqn:Hget;
    [|vm_compute in Hget; discriminate].
  assert (Hcap : Z.of_nat (JsMap.size (Room.participants room))
                 < RoomSettings.maxParticipants (Room.settings room)).
  { vm_compute in Hget. injection Hget as <-. reflexivity. }
  destruct (manager_join_adds_a_slot "s2" "ABC123" Sample.alice 2000 rooms
              room Hget Hcap) as (parts & slot & H1 & _ & _ & H4).
  exists parts. split; [exact H1|].
  vm_compute in Hget. injection Hget as <-.
  split; [exact H4|].
  vm_compute in H1. injection H1 as <-. reflexivity.
Defined.

(** X25.  For a caller that has a slot in the room the two servers do the
    same: [user-action] gives the same table and the same events;
    [request-sync] does so for any caller; [playback-control] stores the
    same playback state and sends the same events, after which
    [WebSocketManager] may start or stop the timer of the room. *)
Theorem servers_agree_for_participants
    (socketId roomId : string) (act : UserAct) (control : Control) (now : Z)
    (rooms : Rooms) (room : Room.t) (user : Participant.t) :
  JsMap.get roomId rooms = Some room ->
  JsMap.get socketId (Room.participants room) = Some user ->
  Manager.user_action socketId roomId act rooms
  = Server.user_action socketId roomId act rooms
  /\ Manager.request_sync socketId roomId now rooms
     = Server.request_sync socketId roomId now rooms
  /\ ServerProps.playback_of roomId
       (fst (Manager.playback_control socketId roomId control now rooms))
     = ServerProps.playback_of roomId
         (fst (Server.playback_control socketId roomId control now rooms))
  /\ exists timer,
       snd (Manager.playback_control socketId roomId control now rooms)
       = (snd (Server.playback_control socketId roomId control now rooms)
          ++ timer)%list
       /\ timer_only timer.
Proof.
  intros Hget Hslot.
  unfold Manager.user_action, Server.user_action, Manager.request_sync,
    Server.request_sync, Manager.playback_control, Server.playback_control,
    ServerProps.playback_of.
  rewrite Hget, Hslot. simpl.
  split; [reflexivity|]. split; [reflexivity|].
  destruct (_ && _).
  - split; [reflexivity|]. exists []. split; [reflexivity|now left].
  - destruct control; simpl;
      repeat match goal with
             | |- context [if ?b then _ else _] => destruct b; simpl
             end;
      rewrite ?JsMapFacts.get_set_same; simpl;
      (split; [reflexivity|]);
      first [ exists []; split; [reflexivity|now left]
            | exists [SetInterval roomId]; split; [reflexivity|];
              right; exists roomId; now left
            | exists [ClearInterval roomId]; split; [reflexivity|];
              right; exists roomId; now right ].
Qed.

Lemma servers_agree_for_participants_witness :
  let rooms := fst (Server.run Sample.two_members []) in
  Manager.user_action "s1" "ABC123" (KickUser (Some "user_carol")) rooms
  = Server.user_action "s1" "ABC123" (KickUser (Some "user_carol")) rooms
  /\ snd (Manager.playback_control "s1" "ABC123" (Play None) 5000 rooms)
     = (snd (Server.playback_control "s1" "ABC123" (Play None) 5000 rooms)
        ++ [SetInterval "ABC123"])%list.
Proof.
  intros rooms.
  destruct (JsMap.get "ABC123" rooms) as [room|] eqn:Hget;
    [|vm_compute in Hget; discriminate].
  destruct (JsMap.get "s1" (Room.participants room)) as [user|] eqn:Hslot;
    [|vm_compute in Hget; injection Hget as <-; vm_compute in Hslot;
      discriminate].
  destruct (servers_agree_for_participants "s1" "ABC123"
              (KickUser (Some "user_carol")) (Play None) 5000 rooms room user
              Hget Hslot) as (H1 & _).
  split; [exact H1|]. reflexivity.
Defined.

(** ** The playlist and the chat log *)

Lemma push_song_playlist song s :
  PlaybackState.playlist (push_song song s)
  = (PlaybackState.playlist s ++ [song])%list.
Proof.
  destruct s as [cur playing ct vol pl idx sst pst lst]. simpl.
  destruct cur; [reflexivity|]. now destruct (Nat.eqb _ 1).
Qed.

(** X26.  Adding a track never changes what is playing.  When a
    participant adds a song (to a room whose current song is the playlist
    entry at the current index, as in every reachable state), the song goes
    to the end of the playlist and the new state is broadcast to the room;
    it becomes the current song, at index 0, only if the playlist was
    empty; otherwise current song and index stay; play state, position and
    anchor stay in both cases. *)
Theorem add_song_keeps_current
    (socketId roomId : string) (song : NewSong.t) (now : Z) (rooms : Rooms)
    (room : Room.t) :
  JsMap.get roomId rooms = Some room ->
  JsMap.has socketId (Room.participants room) = true ->
  song_ok (Room.playbackState room) ->
  let s := Room.playbackState room in
  let s' := push_song (song_of song now) s in
  Server.add_song socketId roomId song now rooms
  = (JsMap.set roomId (Room.with_playbackState s' room) rooms,
     [Emit (IoTo roomId) (PlaylistUpdated s')])
  /\ PlaybackState.playlist s'
     = (PlaybackState.playlist s ++ [song_of song now])%list
  /\ (PlaybackState.playlist s = [] ->
      PlaybackState.currentSong s' = Some (song_of song now)
      /\ PlaybackState.currentIndex s' = 0)
  /\ (PlaybackState.playlist s <> [] ->
      PlaybackState.currentSong s' = PlaybackState.currentSong s
      /\ PlaybackState.currentIndex s' = PlaybackState.currentIndex s)
  /\ PlaybackState.isPlaying s' = PlaybackState.isPlaying s
  /\ PlaybackState.currentTime s' = PlaybackState.currentTime s
  /\ PlaybackState.serverStartTime s' = PlaybackState.serverStartTime s
  /\ PlaybackState.playbackStartTime s' = PlaybackState.playbackStartTime s.
Proof.
  intros Hget Hhas Hok s s'. subst s s'.
  split.
  { unfold Server.add_song. rewrite Hget, Hhas.
    now destruct (Room.playbackState room). }
  split; [apply push_song_playlist|].
  destruct (Room.playbackState room)
    as [cur playing ct vol pl idx sst pst lst].
  unfold song_ok in Hok. simpl in *.
  destruct Hok as [(-> & -> & ->)|(Hidx & Hsong)].
  - simpl. split; [now split|].
    split; [intros H; now destruct H|now repeat split].
  - destruct cur as [c|].
    + simpl. split; [intros ->; simpl in Hidx; lia|].
      split; [now split|now repeat split].
    + symmetry in Hsong. apply nth_error_None in Hsong. lia.
Qed.

Lemma add_song_keeps_current_witness :
  let rooms := fst (Server.run Sample.one_track []) in
  exists s s',
    ServerProps.playback_of "ABC123" rooms = Some s
    /\ ServerProps.playback_of "ABC123"
         (fst (Server.add_song "s1" "ABC123" Sample.track 7000 rooms))
       = Some s'
    /\ List.length (PlaybackState.playlist s') = 2%nat
    /\ PlaybackState.currentSong s' = PlaybackState.currentSong s
    /\ PlaybackState.currentIndex s' = 0.
Proof.
  intros rooms.
  destruct (JsMap.get "ABC123" rooms) as [room|] eqn:Hget;
    [|vm_compute in Hget; discriminate].
  assert (Hfacts : JsMap.has "s1" (Room.participants room) = true
                   /\ song_ok (Room.playbackState room)
                   /\ PlaybackState.playlist (Room.playbackState room) <> []
                   /\ List.length
                        (PlaybackState.playlist (Room.playbackState room))
                      = 1%nat
                   /\ PlaybackState.currentIndex (Room.playbackState room) = 0).
  { vm_compute in Hget. injection Hget as <-.
    split; [reflexivity|]. split; [right; split; [simpl; lia|reflexivity]|].
    split; [discriminate|]. split; reflexivity. }
  destruct Hfacts as (Hhas & Hok & Hne & Hlen & Hidx).
  destruct (add_song_keeps_current "s1" "ABC123" Sample.track 7000 rooms room
              Hget Hhas Hok) as (H1 & H2 & _ & H4 & _).
  destruct (H4 Hne) as [H5 H6].
  exists (Room.playbackState room),
    (push_song (song_of Sample.track 7000) (Room.playbackState room)).
  unfold ServerProps.playback_of. rewrite Hget, H1. cbn [fst].
  rewrite JsMapFacts.get_set_same. cbn [Room.playbackState Room.with_playbackState].
  split; [reflexivity|]. split; [reflexivity|].
  split; [rewrite H2, length_app, Hlen; reflexivity|].
  split; [exact H5|]. now rewrite H6.
Defined.

Section Growth.
Import JsMapFacts.

Lemma get_delete_other {V} k k' (m : JsMap.t V) :
  k <> k' -> JsMap.get k (JsMap.delete k' m) = JsMap.get k m.
Proof.
  intros Hne.
  induction m as [|[k0 v0] m IH]; simpl; [reflexivity|].
  destruct (String.eqb k0 k') eqn:E0; simpl.
  - apply String.eqb_eq in E0. subst k0.
    destruct (String.eqb k' k) eqn:E; [|reflexivity].
    apply String.eqb_eq in E. congruence.
  - now rewrite IH.
Qed.

Lemma In_get {V} k (v : V) m :
  distinct_keys m -> In (k, v) m -> JsMap.get k m = Some v.
Proof.
  unfold distinct_keys.
  induction m as [|[k0 v0] m IH]; simpl; intros Hnd Hin; [contradiction|].
  inversion Hnd as [|? ? Hn Hnd']; subst.
  destruct Hin as [E|Hin].
  - injection E as -> ->. now rewrite String.eqb_refl.
  - destruct (String.eqb k0 k) eqn:E; [|auto].
    apply String.eqb_eq in E. subst k0.
    destruct Hn. now apply (in_map fst _ (k, v)).
Qed.

Lemma extends_refl r : extends r r.
Proof. split; exists []; now rewrite app_nil_r. Qed.

Lemma only_grows_refl rooms : only_grows rooms rooms.
Proof. intros k r r' H1 H2. rewrite H1 in H2. injection H2 as <-. apply extends_refl. Qed.

Lemma only_grows_set roomId room room' rooms :
  JsMap.get roomId rooms = Some room -> extends room room' ->
  only_grows rooms (JsMap.set roomId room' rooms).
Proof.
  intros Hget Hext k r r' H1 H2.
  destruct (String.eqb k roomId) eqn:E.
  - apply String.eqb_eq in E. subst k.
    rewrite get_set_same in H2. congruence.
  - apply String.eqb_neq in E. rewrite get_set_other in H2 by exact E.
    rewrite H1 in H2. injection H2 as <-. apply extends_refl.
Qed.

Lemma only_grows_delete roomId rooms :
  distinct_keys rooms -> only_grows rooms (JsMap.delete roomId rooms).
Proof.
  intros Hnd k r r' H1 H2.
  destruct (String.eqb k roomId) eqn:E.
  - apply String.eqb_eq in E. subst k.
    now rewrite get_delete_same in H2.
  - apply String.eqb_neq in E. rewrite get_delete_other in H2 by exact E.
    rewrite H1 in H2. injection H2 as <-. apply extends_refl.
Qed.

Lemma only_grows_created roomId room room' rooms :
  JsMap.get roomId rooms = None ->
  only_grows rooms (JsMap.set roomId room' (JsMap.set roomId room rooms)).
Proof.
  intros Hget k r r' H1 H2.
  destruct (String.eqb k roomId) eqn:E.
  - apply String.eqb_eq in E. subst k. congruence.
  - apply String.eqb_neq in E. rewrite !get_set_other in H2 by exact E.
    rewrite H1 in H2. injection H2 as <-. apply extends_refl.
Qed.

Lemma extends_same r r' :
  Room.messages r' = Room.messages r ->
  Room.playbackState r' = Room.playbackState r ->
  extends r r'.
Proof.
  intros H1 H2. unfold extends. rewrite H1, H2.
  split; exists []; now rewrite app_nil_r.
Qed.

Lemma playback_switch_playlist now a s :
  PlaybackState.playlist (playback_switch now a s) = PlaybackState.playlist s.
Proof.
  destruct s as [song playing ct vol pl idx sst pst lst].
  destruct a; simpl;
    repeat match goal with
           | |- context [if ?b then _ else _] => destruct b; simpl
           end; reflexivity.
Qed.

Lemma disconnect_loop_only_grows socketId entries rooms :
  distinct_keys rooms ->
  (forall e, In e entries -> In e rooms) ->
  only_grows rooms (fst (Server.disconnect_loop socketId entries rooms)).
Proof.
  intros Hnd.
  induction entries as [|[roomId room] rest IH]; simpl; intros Hsub;
    [apply only_grows_refl|].
  destruct (JsMap.get socketId (Room.participants room)) as [user|].
  - simpl. destruct (Nat.eqb _ 0).
    + rewrite delete_set_same. now apply only_grows_delete.
    + eapply only_grows_set.
      * apply In_get; [exact Hnd|]. apply Hsub. now left.
      * now apply extends_same.
  - apply IH. intros e He. apply Hsub. now right.
Qed.

Lemma handle_only_grows now req rooms :
  distinct_keys rooms ->
  only_grows rooms (fst (Server.handle now req rooms)).
Proof.
  intros Hnd. destruct req; simpl.
  - unfold Server.join_room.
    destruct (_ || _); [apply only_grows_refl|].
    destruct (JsMap.get roomId rooms) as [room|] eqn:Hget.
    + destruct (_ >=? _); [apply only_grows_refl|]. simpl.
      eapply only_grows_set; [exact Hget|now apply extends_same].
    + destruct (_ >=? _); simpl.
      * intros k r r' H1 H2.
        destruct (String.eqb k roomId) eqn:E.
        -- apply String.eqb_eq in E. subst k. congruence.
        -- apply String.eqb_neq in E. rewrite get_set_other in H2 by exact E.
           rewrite H1 in H2. injection H2 as <-. apply extends_refl.
      * now apply only_grows_created.
  - unfold Server.request_sync.
    destruct (JsMap.get roomId rooms); apply only_grows_refl.
  - now apply disconnect_loop_only_grows.
  - unfold Server.send_message.
    destruct (JsMap.get roomId rooms) as [room|] eqn:Hget;
      [|apply only_grows_refl].
    destruct (JsMap.has _ _); [|apply only_grows_refl].
    simpl. eapply only_grows_set; [exact Hget|].
    split; simpl; [eauto|]. exists []. now rewrite app_nil_r.
  - destruct (JsMap.get roomId rooms) as [room|] eqn:Hget;
      [|unfold Server.add_song; rewrite Hget; apply only_grows_refl].
    destruct (JsMap.has socketId (Room.participants room)) eqn:Hhas;
      [|unfold Server.add_song; rewrite Hget, Hhas; apply only_grows_refl].
    rewrite (server_add_song_push _ _ _ _ _ _ Hget Hhas).
    eapply only_grows_set; [exact Hget|].
    split; simpl; [exists []; now rewrite app_nil_r|].
    rewrite push_song_playlist. eauto.
  - unfold Server.playback_control.
    destruct (JsMap.get roomId rooms) as [room|] eqn:Hget;
      [|apply only_grows_refl].
    destruct (JsMap.get socketId _); [|apply only_grows_refl].
    destruct (_ && _); [apply only_grows_refl|].
    simpl. eapply only_grows_set; [exact Hget|].
    split; simpl; [exists []; now rewrite app_nil_r|].
    rewrite playback_switch_playlist. exists []. now rewrite app_nil_r.
  - unfold Server.user_action.
    destruct (JsMap.get roomId rooms) as [room|] eqn:Hget;
      [|apply only_grows_refl].
    destruct (JsMap.get socketId _) as [adminUser|]; [|apply only_grows_refl].
    destruct (negb _); [apply only_grows_refl|].
    destruct action as [t|t|[p|]|a]; simpl; try apply only_grows_refl.
    + unfold kick_user.
      destruct (truthy_target t); [|apply only_grows_refl].
      destruct (JsMap.find_key _ _) as [k|]; [|apply only_grows_refl].
      destruct (truthy_string k); [|apply only_grows_refl].
      destruct (JsMap.get k _); [|apply only_grows_refl].
      simpl. eapply only_grows_set; [exact Hget|now apply extends_same].
    + unfold transfer_admin.
      destruct (truthy_target t); [|apply only_grows_refl].
      destruct (JsMap.find_key _ _) as [k|]; [|apply only_grows_refl].
      destruct (truthy_string k); [|apply only_grows_refl].
      destruct (JsMap.get k _); [|apply only_grows_refl].
      simpl. eapply only_grows_set; [exact Hget|now apply extends_same].
    + eapply only_grows_set; [exact Hget|now apply extends_same].
  - unfold Server.close_room.
    destruct (JsMap.get roomId rooms) as [room|]; [|apply only_grows_refl].
    destruct (JsMap.get socketId _) as [user|]; [|apply only_grows_refl].
    destruct (negb _); [apply only_grows_refl|].
    simpl. now apply only_grows_delete.
Qed.

End Growth.

(** X27.  The chat log and the playlist are append-only.  Whatever request
    the stand-alone server handles, a room that is in the table before and
    after has its old chat log and its old playlist as the beginning of
    the new ones: no message and no track is ever removed, changed or
    reordered. *)
Theorem logs_are_append_only
    (now : Z) (req : Server.Request) (rooms : Rooms) :
  distinct_keys rooms ->
  only_grows rooms (fst (Server.handle now req rooms)).
Proof. apply handle_only_grows. Qed.

Lemma logs_are_append_only_witness :
  let rooms := fst (Server.run Sample.one_track []) in
  distinct_keys rooms
  /\ only_grows rooms
       (fst (Server.handle 8000
               (Server.SendMessage "s1" "ABC123" "hello" "Alice" "r4nd")
               rooms)).
Proof.
  intros rooms.
  assert (Hnd : distinct_keys rooms)
    by (vm_compute; repeat constructor; intros []).
  split; [exact Hnd|].
  exact (logs_are_append_only 8000
           (Server.SendMessage "s1" "ABC123" "hello" "Alice" "r4nd") rooms
           Hnd).
Defined.


(** X28.  [WebSocketManager] does not ask whether the caller is in the
    room.  From a connection that has no slot in an existing room, a
    [send-message] is stored and broadcast to the room and so is an
    [add-song]; a [playback-control] is applied and broadcast when the room
    allows guest control and is denied otherwise; [user-action] and
    [close-room] are denied.  (The stand-alone server ignores all five.) *)
Theorem manager_serves_outsiders
    (socketId roomId message user : string) (song : NewSong.t)
    (control : Control) (act : UserAct) (now : Z) (rooms : Rooms)
    (room : Room.t) :
  JsMap.get roomId rooms = Some room ->
  JsMap.get socketId (Room.participants room) = None ->
  let chatMessage := ChatMessage.mk (now, "") user message now roomId in
  let added := push_song (song_of song now) (Room.playbackState room) in
  let switched := playback_switch now control (Room.playbackState room) in
  let denied msg :=
    (rooms, [Emit (SocketEmit socketId) (PermissionDenied msg)]) in
  Manager.send_message socketId roomId message user now rooms
  = (JsMap.set roomId
       (Room.with_messages (Room.messages room ++ [chatMessage])%list room)
       rooms,
     [Emit (IoTo roomId) (NewMessage chatMessage)])
  /\ Manager.add_song socketId roomId song now rooms
     = (JsMap.set roomId (Room.with_playbackState added room) rooms,
        [Emit (IoTo roomId) (PlaylistUpdated added)])
  /\ (RoomSettings.allowGuestControl (Room.settings room) = true ->
      ServerProps.playback_of roomId
        (fst (Manager.playback_control socketId roomId control now rooms))
      = Some switched
      /\ In (Emit (IoTo roomId) (PlaybackStateChanged switched now))
           (snd (Manager.playback_control socketId roomId control now rooms)))
  /\ (RoomSettings.allowGuestControl (Room.settings room) = false ->
      Manager.playback_control socketId roomId control now rooms
      = denied "Only admins can control playback")
  /\ Manager.user_action socketId roomId act rooms
     = denied "Only admins can perform this action"
  /\ Manager.close_room socketId roomId rooms
     = denied "Only admins can close the room".
Proof.
  intros Hget Hout chatMessage added switched denied.
  subst chatMessage added switched denied.
  split; [unfold Manager.send_message; now rewrite Hget|].
  split.
  { unfold Manager.add_song. rewrite Hget.
    now destruct (Room.playbackState room). }
  split.
  { intros Hguest.
    unfold Manager.playback_control, ServerProps.playback_of.
    rewrite Hget, Hout, Hguest.
    destruct control; cbn -[JsMap.get JsMap.set playback_switch];
      repeat match goal with
             | |- context [if ?b then _ else _] =>
                 destruct b; cbn -[JsMap.get JsMap.set playback_switch]
             end;
      rewrite JsMapFacts.get_set_same;
      (split; [now destruct room|now left]). }
  split.
  { intros Hguest. unfold Manager.playback_control.
    now rewrite Hget, Hout, Hguest. }
  split.
  - unfold Manager.user_action. now rewrite Hget, Hout.
  - unfold Manager.close_room. now rewrite Hget, Hout.
Qed.

Lemma manager_serves_outsiders_witness :
  let rooms :=
    fst (Manager.run [(1000, Manager.JoinRoom "s1" "ABC123" Sample.alice)] []) in
  exists room,
    JsMap.get "ABC123" rooms = Some room
    /\ JsMap.get "s9" (Room.participants room) = None
    /\ snd (Manager.send_message "s9" "ABC123" "hi" "Mallory" 5000 rooms)
       = [Emit (IoTo "ABC123")
            (NewMessage (ChatMessage.mk (5000, "") "Mallory" "hi" 5000 "ABC123"))]
    /\ Manager.close_room "s9" "ABC123" rooms
       = (rooms,
          [Emit (SocketEmit "s9")
             (PermissionDenied "Only admins can close the room")]).
Proof.
  intros rooms.
  destruct (JsMap.get "ABC123" rooms) as [room|] eqn:Hget;
    [|vm_compute in Hget; discriminate].
  assert (Hout : JsMap.get "s9" (Room.participants room) = None)
    by (vm_compute in Hget; injection Hget as <-; reflexivity).
  destruct (manager_serves_outsiders "s9" "ABC123" "hi" "Mallory" Sample.track
              Pause (KickUser None) 5000 rooms room Hget Hout)
    as (H1 & _ & _ & _ & _ & H6).
  exists room. split; [reflexivity|]. split; [exact Hout|].
  split; [now rewrite H1|exact H6].
Defined.
